(** * SFML: the X11 window backend, the UIKit monitor and the Music stream

    A shallow embedding of the parts of SFML that talk to the X server
    ([WindowImplX11.cpp]), of [MonitorImplUIKit::getFullscreenModes] and of
    [Music::onGetData], with the properties that are stated about them.

    Conventions.
    - X identifiers ([Window], [Atom], [Time], [RRMode], ...) are C integers
      and are modelled as [Z]; [None] of Xlib is [X.None], that is [0].
    - The X server is an environment: a record [XServer] of the replies it
      gives to the queries the code sends.  A function of the backend takes
      the replies that hold while it runs.
    - What a function does to the outside world is the list of [Effect]s it
      issues, in program order. *)

From Stdlib Require Import ZArith Bool String List Lia Arith.
Import ListNotations.
Open Scope string_scope.
Open Scope list_scope.
Open Scope Z_scope.

(** ** Xlib types and constants *)

Module X11.

Definition Window := Z.
Definition Atom := Z.
Definition Time := Z.
Definition RRMode := Z.
Definition RRCrtc := Z.
Definition RROutput := Z.

(** [None] of X.h, written [X.None]. *)
Module X.
Definition None : Z := 0.
End X.

Definition Success : Z := 0.
Definition CurrentTime : Z := 0.
Definition NoEventMask : Z := 0.
Definition AnyPropertyType : Z := 0.

(* X.h: event types *)
Definition KeyPress : Z := 2.
Definition KeyRelease : Z := 3.
Definition ClientMessage : Z := 33.
Definition GenericEvent : Z := 35.

(* X.h: grab status, map state, focus revert *)
Definition GrabSuccess : Z := 0.
Definition IsUnmapped : Z := 0.
Definition IsUnviewable : Z := 1.
Definition IsViewable : Z := 2.
Definition RevertToPointerRoot : Z := 1.
Definition SubstructureNotifyMask : Z := Z.shiftl 1 19.
Definition SubstructureRedirectMask : Z := Z.shiftl 1 20.

(* Xatom.h *)
Definition XA_CARDINAL : Atom := 6.
Definition XA_STRING : Atom := 31.
Definition XA_WINDOW : Atom := 33.

(* Xutil.h *)
Definition XUrgencyHint : Z := Z.shiftl 1 8.

(* randr.h *)
Definition RR_Rotate_0 : Z := 1.
Definition RR_Rotate_90 : Z := 2.
Definition RR_Rotate_180 : Z := 4.
Definition RR_Rotate_270 : Z := 8.
Definition RR_Connected : Z := 0.
Definition RR_Disconnected : Z := 1.
Definition RR_UnknownConnection : Z := 2.
Definition RRSetConfigSuccess : Z := 0.
Definition RRSetConfigFailed : Z := 3.

(** The [xclient] member of [XEvent]: [data.l] has five longs. *)
Record XClientMessageEvent := {
  xclient_window : Window;
  xclient_message_type : Atom;
  xclient_format : Z;
  xclient_l0 : Z;
  xclient_l1 : Z;
  xclient_l2 : Z;
  xclient_l3 : Z;
  xclient_l4 : Z
}.

(** What the backend does to the outside world. *)
Inductive Effect :=
| XGrabPointer (w : Window)
| XUngrabPointer
| XRRSetCrtcConfig (crtc : RRCrtc) (x y : Z) (mode : RRMode) (rotation : Z)
                   (outputs : list RROutput)
| XSendEvent (dest : Window) (propagate : bool) (mask : Z)
             (ev : XClientMessageEvent)
| XConvertSelection (selection target property : Atom) (requestor : Window)
                    (time : Time)
| XRaiseWindow (w : Window)
| XSetInputFocus (w : Window) (revertTo : Z) (time : Time)
| XSetWMHints (w : Window) (flags : Z)
| XDefineCursor (w : Window) (cursor : Z)
| XFlush
| pushEvent (name : string)
| sleep (milliseconds : Z)
| err (msg : string).

(** The quotation mark (character 34), for the messages that hold it. *)
Definition quotationMark : string :=
  String (Ascii.Ascii false true false false false true false false)
         EmptyString.

(** [message] with [name] between quotation marks in its middle. *)
Definition quoting (before name after : string) : string :=
  (before ++ quotationMark ++ name ++ quotationMark ++ after)%string.

(** C integer conversions: [unsigned long] is 64 bits wide (LP64), [int] and
    [unsigned int] are 32 bits wide. *)
Definition wrap_ulong (z : Z) : Z := z mod 2 ^ 64.
Definition wrap_uint (z : Z) : Z := z mod 2 ^ 32.
Definition to_int (z : Z) : Z := (z + 2 ^ 31) mod 2 ^ 32 - 2 ^ 31.

End X11.

Import X11.

(** [sf::VideoMode]: [size] is a [Vector2u], [bitsPerPixel] an
    [unsigned int]. *)
Record VideoMode := {
  size_x : Z;
  size_y : Z;
  bitsPerPixel : Z
}.

(** ** The members of [WindowImplX11] that the modelled functions use *)

Record WindowImplX11 := {
  m_window : Window;
  m_fullscreen : bool;
  m_cursorGrabbed : bool;
  m_keyRepeat : bool;
  m_lastInputTime : Time;
  m_oldVideoMode : RRMode;
  m_oldRRCrtc : RRCrtc;
  m_dropSource : Window;
  m_acceptedFileType : Atom;
  m_lastCursor : Z;
  m_hiddenCursor : Z
}.

Definition set_cursorGrabbed (b : bool) (w : WindowImplX11) : WindowImplX11 :=
  {| m_window := m_window w; m_fullscreen := m_fullscreen w;
     m_cursorGrabbed := b; m_keyRepeat := m_keyRepeat w;
     m_lastInputTime := m_lastInputTime w;
     m_oldVideoMode := m_oldVideoMode w; m_oldRRCrtc := m_oldRRCrtc w;
     m_dropSource := m_dropSource w;
     m_acceptedFileType := m_acceptedFileType w;
     m_lastCursor := m_lastCursor w; m_hiddenCursor := m_hiddenCursor w |}.

Definition set_keyRepeat (b : bool) (w : WindowImplX11) : WindowImplX11 :=
  {| m_window := m_window w; m_fullscreen := m_fullscreen w;
     m_cursorGrabbed := m_cursorGrabbed w; m_keyRepeat := b;
     m_lastInputTime := m_lastInputTime w;
     m_oldVideoMode := m_oldVideoMode w; m_oldRRCrtc := m_oldRRCrtc w;
     m_dropSource := m_dropSource w;
     m_acceptedFileType := m_acceptedFileType w;
     m_lastCursor := m_lastCursor w; m_hiddenCursor := m_hiddenCursor w |}.

Definition set_oldVideoMode (mode : RRMode) (crtc : RRCrtc)
    (w : WindowImplX11) : WindowImplX11 :=
  {| m_window := m_window w; m_fullscreen := m_fullscreen w;
     m_cursorGrabbed := m_cursorGrabbed w; m_keyRepeat := m_keyRepeat w;
     m_lastInputTime := m_lastInputTime w;
     m_oldVideoMode := mode; m_oldRRCrtc := crtc;
     m_dropSource := m_dropSource w;
     m_acceptedFileType := m_acceptedFileType w;
     m_lastCursor := m_lastCursor w; m_hiddenCursor := m_hiddenCursor w |}.

Definition set_drop (source : Window) (fileType : Atom)
    (w : WindowImplX11) : WindowImplX11 :=
  {| m_window := m_window w; m_fullscreen := m_fullscreen w;
     m_cursorGrabbed := m_cursorGrabbed w; m_keyRepeat := m_keyRepeat w;
     m_lastInputTime := m_lastInputTime w;
     m_oldVideoMode := m_oldVideoMode w; m_oldRRCrtc := m_oldRRCrtc w;
     m_dropSource := source;
     m_acceptedFileType := fileType;
     m_lastCursor := m_lastCursor w; m_hiddenCursor := m_hiddenCursor w |}.

(** ** [WindowImplX11::setMouseCursorGrabbed] *)

Module CursorGrab.

Definition maxTrialsCount : nat := 5.

(** The [for] loop over [trial]: [remaining] is [maxTrialsCount - trial];
    [grabPointer k] is the status the server gives to the [k]-th call of
    [XGrabPointer] of this loop. *)
Fixpoint grabTrials (grabPointer : nat -> Z) (remaining trial : nat)
    (w : WindowImplX11) : WindowImplX11 * list Effect :=
  match remaining with
  | O => (w, [])
  | S remaining' =>
      let result := grabPointer trial in
      if result =? GrabSuccess then
        (set_cursorGrabbed true w, [XGrabPointer (m_window w)])
      else
        let '(w', tr) := grabTrials grabPointer remaining' (S trial) w in
        (w', XGrabPointer (m_window w) :: sleep 50 :: tr)
  end.

Definition setMouseCursorGrabbed (grabPointer : nat -> Z) (grabbed : bool)
    (w : WindowImplX11) : WindowImplX11 * list Effect :=
  if m_fullscreen w || Bool.eqb (m_cursorGrabbed w) grabbed then (w, [])
  else if grabbed then
    let '(w', tr) := grabTrials grabPointer maxTrialsCount 0 w in
    if negb (m_cursorGrabbed w') then
      (w', tr ++ [err "Failed to grab mouse cursor"])
    else (w', tr)
  else (set_cursorGrabbed false w, [XUngrabPointer]).

Definition isGrab (e : Effect) : bool :=
  match e with XGrabPointer _ => true | _ => false end.

Definition isUngrab (e : Effect) : bool :=
  match e with XUngrabPointer => true | _ => false end.

Definition grabCount (tr : list Effect) : nat := length (filter isGrab tr).

(** The members that [setMouseCursorGrabbed] does not write. *)
Definition otherMembers (w : WindowImplX11) :=
  (m_window w, m_fullscreen w, m_keyRepeat w, m_lastInputTime w,
   m_oldVideoMode w, m_oldRRCrtc w, m_dropSource w, m_acceptedFileType w,
   m_lastCursor w, m_hiddenCursor w).

End CursorGrab.

(** ** [MonitorImplUIKit::getFullscreenModes] *)

Module MonitorUIKit.

(** [desktop] is what [getDesktopMode()] returns (it reads the screen
    bounds from UIKit). *)
Definition getFullscreenModes (desktop : VideoMode) : list VideoMode :=
  [desktop;
   {| size_x := size_y desktop; size_y := size_x desktop;
      bitsPerPixel := bitsPerPixel desktop |}].

End MonitorUIKit.

(** ** [WindowImplX11::processEvents]: the event queue and key repeat *)

Module EventQueue.

(** The members of the [XEvent] union that [checkEvent] and
    [processEvents] read: [type], [xany.window], [xkey.keycode],
    [xkey.time] and [xclient.message_type]. *)
Record XEvent := {
  ev_type : Z;
  ev_window : Window;
  ev_keycode : Z;
  ev_time : Time;
  ev_message_type : Atom
}.

(** [checkEvent]: [wmProtocols] is the atom of "WM_PROTOCOLS", [userData]
    the window the caller asks for. *)
Definition checkEvent (wmProtocols : Atom) (event : XEvent)
    (userData : Window) : bool :=
  if (ev_window event =? userData) || (ev_type event =? GenericEvent) then true
  else if ev_type event =? ClientMessage then
    negb (ev_message_type event =? wmProtocols)
  else false.

(** Xlib's [XCheckIfEvent]: the first queued event that satisfies the
    predicate is removed from the queue and returned; the other events stay
    queued, in order. *)
Fixpoint XCheckIfEvent (predicate : XEvent -> bool) (queue : list XEvent)
    : option (XEvent * list XEvent) :=
  match queue with
  | [] => None
  | e :: rest =>
      if predicate e then Some (e, rest)
      else match XCheckIfEvent predicate rest with
           | Some (found, rest') => Some (found, e :: rest')
           | None => None
           end
  end.

(** The test of the inner loop, on an [event] of type [KeyRelease]:
    [xkey.time] is an [unsigned long], so [time + 1] wraps. *)
Definition isRepeat (event nextEvent : XEvent) : bool :=
  (ev_type nextEvent =? KeyPress)
  && (ev_keycode nextEvent =? ev_keycode event)
  && (ev_time event <=? ev_time nextEvent)
  && (ev_time nextEvent <=? wrap_ulong (ev_time event + 1)).

(** The inner [while (event.type == KeyRelease)] loop.  It yields the
    event to process, [processThisEvent], the queue that is left and the
    events given to [processEvent] so far.  [fuel] bounds the iterations. *)
Fixpoint repeatLoop (fuel : nat) (predicate : XEvent -> bool)
    (keyRepeat : bool) (event : XEvent) (queue forwarded : list XEvent)
    : option (XEvent * bool * list XEvent * list XEvent) :=
  if ev_type event =? KeyRelease then
    match XCheckIfEvent predicate queue with
    | Some (nextEvent, queue') =>
        if isRepeat event nextEvent then
          if keyRepeat then Some (nextEvent, true, queue', forwarded)
          else Some (event, false, queue', forwarded)
        else
          match fuel with
          | O => None
          | S fuel' =>
              repeatLoop fuel' predicate keyRepeat nextEvent queue'
                         (forwarded ++ [event])
          end
    | None => Some (event, true, queue, forwarded)
    end
  else Some (event, true, queue, forwarded).

(** The outer [while (XCheckIfEvent(...))] loop. *)
Fixpoint processLoop (fuel : nat) (predicate : XEvent -> bool)
    (keyRepeat : bool) (queue forwarded : list XEvent)
    : option (list XEvent * list XEvent) :=
  match XCheckIfEvent predicate queue with
  | None => Some (queue, forwarded)
  | Some (event, queue') =>
      match fuel with
      | O => None
      | S fuel' =>
          match repeatLoop fuel' predicate keyRepeat event queue' forwarded with
          | None => None
          | Some (event', processThisEvent, queue'', forwarded') =>
              processLoop fuel' predicate keyRepeat queue''
                (if processThisEvent then forwarded' ++ [event']
                 else forwarded')
          end
      end
  end.

(** [processEvents] on the events that are queued when it is called:
    the queue that is left and the events given to [processEvent], in the
    order of the calls.  [ClipboardImpl_processEvents] is the clipboard's
    own [processEvents], which is called last: that class is not part of
    these sources, so what it does to the queue is a parameter. *)
Definition processEvents
    (ClipboardImpl_processEvents : list XEvent -> list XEvent)
    (wmProtocols : Atom) (w : WindowImplX11) (queue : list XEvent)
    : option (list XEvent * list XEvent) :=
  match processLoop (length queue)
                    (fun e => checkEvent wmProtocols e (m_window w))
                    (m_keyRepeat w) queue [] with
  | Some (queue', forwarded) =>
      Some (ClipboardImpl_processEvents queue', forwarded)
  | None => None
  end.

Definition setKeyRepeatEnabled (enabled : bool) (w : WindowImplX11)
    : WindowImplX11 :=
  set_keyRepeat enabled w.

(** The statement about key repeat, in its own words.  A key-repeat pair
    is a [KeyRelease] followed at once by a [KeyPress] of the same keycode
    whose timestamp is at most 1 ms later. *)
Definition isKeyRepeatPair (release press : XEvent) : bool :=
  (ev_type release =? KeyRelease)
  && (ev_type press =? KeyPress)
  && (ev_keycode press =? ev_keycode release)
  && (ev_time release <=? ev_time press)
  && (ev_time press <=? ev_time release + 1).

(** An event of the sequence is dropped when it is the release of a pair,
    or, with key repeat disabled, the press of a pair; the others are kept
    in order.  [prev] is the event just before [events]. *)
Fixpoint withoutRepeatPairs (keyRepeat : bool) (prev : option XEvent)
    (events : list XEvent) : list XEvent :=
  match events with
  | [] => []
  | e :: rest =>
      let releaseOfPair :=
        match rest with
        | next :: _ => isKeyRepeatPair e next
        | [] => false
        end in
      let pressOfPair :=
        match prev with
        | Some p => isKeyRepeatPair p e
        | None => false
        end in
      if releaseOfPair || (negb keyRepeat && pressOfPair)
      then withoutRepeatPairs keyRepeat (Some e) rest
      else e :: withoutRepeatPairs keyRepeat (Some e) rest
  end.

(** Left-to-right removal of pairs, the shape the loops compute. *)
Fixpoint dropRepeats (keyRepeat : bool) (events : list XEvent)
    : list XEvent :=
  match events with
  | [] => []
  | e :: rest =>
      match rest with
      | [] => [e]
      | next :: rest' =>
          if isKeyRepeatPair e next then
            (if keyRepeat then [next] else []) ++ dropRepeats keyRepeat rest'
          else e :: dropRepeats keyRepeat rest
      end
  end.

(** X timestamps are 32-bit values of the protocol. *)
Definition validTime (e : XEvent) : Prop := 0 <= ev_time e < 2 ^ 32.

(** The statement read with the pairs taken in the native queue, whatever
    the windows of the events between: what it says is forwarded. *)
Definition forwardedPerNativeQueue (selected : XEvent -> bool)
    (keyRepeat : bool) (queue : list XEvent) : list XEvent :=
  filter selected (withoutRepeatPairs keyRepeat None queue).

End EventQueue.

(** ** [WindowImplX11::setVideoMode] and [resetVideoMode] *)

Module VideoModeSwitch.

(** Xrandr.h: the members the code reads. *)
Record XRRModeInfo := {
  mode_id : RRMode;
  mode_width : Z;
  mode_height : Z
}.

(** [nmode] is the length of [modes]. *)
Record XRRScreenResources := {
  res_modes : list XRRModeInfo;
  res_outputs : list RROutput
}.

Record XRROutputInfo := {
  output_crtc : RRCrtc;
  output_connection : Z
}.

Record XRRCrtcInfo := {
  crtc_x : Z;
  crtc_y : Z;
  crtc_mode : RRMode;
  crtc_rotation : Z
}.

(** The replies of the server to the XRandR queries; a null pointer is
    [None].  [XRRSetCrtcConfig_status] is the status that
    [XRRSetCrtcConfig] returns; the code does not look at it. *)
Record XRandR := {
  XQueryExtension_RANDR : bool;
  XRRGetScreenResources : option XRRScreenResources;
  XRRGetOutputPrimary : RROutput;
  XRRGetOutputInfo : RROutput -> option XRROutputInfo;
  XRRGetCrtcInfo : RRCrtc -> option XRRCrtcInfo;
  XRRSetCrtcConfig_status : Z
}.

(** A [WindowImplX11*]; [fullscreenWindow] is [None] for [nullptr]. *)
Definition Ptr := nat.

Definition checkXRandR (x : XRandR) : bool * list Effect :=
  if negb (XQueryExtension_RANDR x) then
    (false, [err "XRandR extension is not supported"])
  else (true, []).

(** [res->outputs[0]]: reading past an empty array is not modelled, the
    value is [0] then. *)
Definition getOutputPrimary (x : XRandR) (res : XRRScreenResources)
    : RROutput :=
  let output := XRRGetOutputPrimary x in
  if output =? X.None then nth 0 (res_outputs res) 0 else output.

Definition swapSize (m : XRRModeInfo) : XRRModeInfo :=
  {| mode_id := mode_id m; mode_width := mode_height m;
     mode_height := mode_width m |}.

(** The [for] loop that looks for the [RRMode] to set: it stops at the
    first mode that matches, and swaps the width and the height of every
    mode it visits when the crtc is rotated by 90 or 270 degrees. *)
Fixpoint findMode (rotation : Z) (size : Z * Z) (modes : list XRRModeInfo)
    : option RRMode :=
  match modes with
  | [] => None
  | m :: rest =>
      let m' :=
        if (rotation =? RR_Rotate_90) || (rotation =? RR_Rotate_270)
        then swapSize m else m in
      if (mode_width m' =? fst size) && (mode_height m' =? snd size)
      then Some (mode_id m')
      else findMode rotation size rest
  end.

Section WithVideoMode.

(** [operator==] of [sf::VideoMode] and [VideoMode::getDesktopMode()] are
    defined outside the files at hand. *)
Variable VideoMode_eq : VideoMode -> VideoMode -> bool.
Variable getDesktopMode : VideoMode.

(** [setVideoMode]: the window, [fullscreenWindow] and the effects. *)
Definition setVideoMode (this : Ptr) (x : XRandR) (mode : VideoMode)
    (self : WindowImplX11) (fullscreenWindow : option Ptr)
    : WindowImplX11 * option Ptr * list Effect :=
  if VideoMode_eq mode getDesktopMode then (self, fullscreenWindow, [])
  else
    let '(present, tr) := checkXRandR x in
    if negb present then
      (self, fullscreenWindow,
       tr ++ [err "Fullscreen is not supported, switching to window mode"])
    else
      match XRRGetScreenResources x with
      | None =>
          (self, fullscreenWindow,
           tr ++ [err "Failed to get the current screen resources for fullscreen mode, switching to window mode"])
      | Some res =>
          let output := getOutputPrimary x res in
          match XRRGetOutputInfo x output with
          | None =>
              (self, fullscreenWindow,
               tr ++ [err "Failed to get output info for fullscreen mode, switching to window mode"])
          | Some outputInfo =>
              if output_connection outputInfo =? RR_Disconnected then
                (self, fullscreenWindow,
                 tr ++ [err "Failed to get output info for fullscreen mode, switching to window mode"])
              else
                match XRRGetCrtcInfo x (output_crtc outputInfo) with
                | None =>
                    (self, fullscreenWindow,
                     tr ++ [err "Failed to get crtc info for fullscreen mode, switching to window mode"])
                | Some crtcInfo =>
                    match findMode (crtc_rotation crtcInfo)
                                   (size_x mode, size_y mode)
                                   (res_modes res) with
                    | None =>
                        (self, fullscreenWindow,
                         tr ++ [err "Failed to find a matching RRMode for fullscreen mode, switching to window mode"])
                    | Some xRandMode =>
                        (set_oldVideoMode (crtc_mode crtcInfo)
                                          (output_crtc outputInfo) self,
                         Some this,
                         tr ++ [XRRSetCrtcConfig (output_crtc outputInfo)
                                  (crtc_x crtcInfo) (crtc_y crtcInfo)
                                  xRandMode (crtc_rotation crtcInfo)
                                  [output]])
                    end
                end
          end
      end.

End WithVideoMode.


(** [resetVideoMode]: [fullscreenWindow] afterwards and the effects (no
    member of the window is written). *)
Definition resetVideoMode (this : Ptr) (x : XRandR) (self : WindowImplX11)
    (fullscreenWindow : option Ptr) : option Ptr * list Effect :=
  match fullscreenWindow with
  | Some p =>
      if Nat.eqb p this then
        let '(present, tr) := checkXRandR x in
        if present then
          match XRRGetScreenResources x with
          | None =>
              (fullscreenWindow,
               tr ++ [err "Failed to get the current screen resources to reset the video mode"])
          | Some res =>
              match XRRGetCrtcInfo x (m_oldRRCrtc self) with
              | None =>
                  (fullscreenWindow,
                   tr ++ [err "Failed to get crtc info to reset the video mode"])
              | Some crtcInfo =>
                  let output := getOutputPrimary x res in
                  (None,
                   tr ++ [XRRSetCrtcConfig (m_oldRRCrtc self)
                            (crtc_x crtcInfo) (crtc_y crtcInfo)
                            (m_oldVideoMode self) (crtc_rotation crtcInfo)
                            [output]])
              end
          end
        else (None, tr)
      else (fullscreenWindow, [])
  | None => (fullscreenWindow, [])
  end.

Definition setMouseCursorVisible (visible : bool) (self : WindowImplX11)
    : list Effect :=
  [XDefineCursor (m_window self)
     (if visible then m_lastCursor self else m_hiddenCursor self);
   XFlush].

(** [cleanup], which the destructor and [DestroyNotify] run. *)
Definition cleanup (this : Ptr) (x : XRandR) (self : WindowImplX11)
    (fullscreenWindow : option Ptr) : option Ptr * list Effect :=
  let '(fullscreenWindow', tr) := resetVideoMode this x self fullscreenWindow in
  (fullscreenWindow', tr ++ setMouseCursorVisible true self).

Definition isSetCrtcConfig (e : Effect) : bool :=
  match e with XRRSetCrtcConfig _ _ _ _ _ _ => true | _ => false end.

(** The display mode changes only by an [XRRSetCrtcConfig]. *)
Definition changesVideoMode (tr : list Effect) : bool :=
  existsb isSetCrtcConfig tr.

(** The mode sizes the loop compares with the requested size. *)
Definition rotated (rotation : Z) : bool :=
  (rotation =? RR_Rotate_90) || (rotation =? RR_Rotate_270).

Definition modeMatches (rotation : Z) (size : Z * Z) (m : XRRModeInfo)
    : bool :=
  if rotated rotation
  then (mode_height m =? fst size) && (mode_width m =? snd size)
  else (mode_width m =? fst size) && (mode_height m =? snd size).

(** The mode has the requested width and height. *)
Definition sameSize (size : Z * Z) (m : XRRModeInfo) : bool :=
  (mode_width m =? fst size) && (mode_height m =? snd size).

Definition isErr (e : Effect) : bool :=
  match e with err _ => true | _ => false end.

Section SwitchConditions.

Variable VideoMode_eq : VideoMode -> VideoMode -> bool.
Variable getDesktopMode : VideoMode.

(** What [setVideoMode] needs to switch: the request differs from the
    desktop mode, XRandR is present, the screen resources, the info of an
    output that is not disconnected and the info of its crtc are obtained,
    and a mode matches the requested size, its width and height exchanged
    when the crtc is rotated by 90 or 270 degrees. *)
Definition canSwitch (x : XRandR) (mode : VideoMode) : Prop :=
  VideoMode_eq mode getDesktopMode = false
  /\ XQueryExtension_RANDR x = true
  /\ exists res outputInfo crtcInfo,
       XRRGetScreenResources x = Some res
       /\ XRRGetOutputInfo x (getOutputPrimary x res) = Some outputInfo
       /\ output_connection outputInfo <> RR_Disconnected
       /\ XRRGetCrtcInfo x (output_crtc outputInfo) = Some crtcInfo
       /\ existsb (modeMatches (crtc_rotation crtcInfo)
                               (size_x mode, size_y mode))
                  (res_modes res) = true.

End SwitchConditions.

End VideoModeSwitch.

(** ** The X server as the window code queries it *)

Module Server.

(** The data of a property reply: a null pointer, items of format 32 (as
    [long]s) or bytes of format 8. *)
Inductive PropData :=
| NoData
| Longs (items : list Z)
| Bytes (text : string).

(** What [XGetWindowProperty] hands back. *)
Record PropertyReply := {
  result : Z;
  actualType : Atom;
  actualFormat : Z;
  numItems : Z;
  bytesAfter : Z;
  data : PropData
}.

(** [getAtom name onlyIfExists] is [sf::priv::getAtom] (an [XInternAtom]);
    [XGetWindowProperty w property offset length reqType];
    [XQueryTree_parent w] is the parent that [XQueryTree] reports;
    [XTranslateCoordinates src dest] gives where (0, 0) of [src] lies in
    [dest]; [XGetGeometry w] gives [x] and [y] of [w];
    [XGetWindowAttributes w] gives the [map_state], or [None] when the call
    returns 0; [XGetWMHints w] gives the [flags] of the hints, or [None]
    for a null pointer; [XSendEvent_status] is what [XSendEvent] returns. *)
Record XServer := {
  getAtom : string -> bool -> Atom;
  DefaultRootWindow : Window;
  XGetWindowProperty : Window -> Atom -> Z -> Z -> Atom -> PropertyReply;
  XQueryTree_parent : Window -> Window;
  XTranslateCoordinates : Window -> Window -> Z * Z;
  XGetGeometry : Window -> Z * Z;
  XGetInputFocus : Window;
  XGetWindowAttributes : Window -> option Z;
  XGetWMHints : Window -> option Z;
  XSendEvent_status : Z
}.

(** [*reinterpret_cast<long*>(data)] and [extents[i]]. *)
Definition item (i : nat) (r : PropertyReply) : Z :=
  match data r with
  | Longs l => nth i l 0
  | _ => 0
  end.

Definition text (r : PropertyReply) : string :=
  match data r with
  | Bytes s => s
  | _ => EmptyString
  end.

End Server.

Import Server.

(** ** [ewmhSupported] and [WindowImplX11::getPosition] *)

Module EWMH.

(** The statics of [ewmhSupported] and the global [windowManagerName]. *)
Record Statics := {
  checked : bool;
  ewmhSupported_static : bool;
  windowManagerName : string
}.

(** The values at process start. *)
Definition initialStatics : Statics :=
  {| checked := false; ewmhSupported_static := false;
     windowManagerName := EmptyString |}.

Definition set_checked (st : Statics) : Statics :=
  {| checked := true; ewmhSupported_static := ewmhSupported_static st;
     windowManagerName := windowManagerName st |}.

Definition set_supported (st : Statics) : Statics :=
  {| checked := checked st; ewmhSupported_static := true;
     windowManagerName := windowManagerName st |}.

Definition set_name (name : string) (st : Statics) : Statics :=
  {| checked := checked st; ewmhSupported_static := ewmhSupported_static st;
     windowManagerName := name |}.

(** The test after each of the two [_NET_SUPPORTING_WM_CHECK] queries. *)
Definition badWindowReply (r : PropertyReply) : bool :=
  negb (result r =? Success) || negb (actualType r =? XA_WINDOW)
  || negb (numItems r =? 1).

Definition ewmhSupported (x : XServer) (st : Statics) : bool * Statics :=
  if checked st then (ewmhSupported_static st, st)
  else
    let st := set_checked st in
    let netSupportingWmCheck := getAtom x "_NET_SUPPORTING_WM_CHECK" true in
    let netSupported := getAtom x "_NET_SUPPORTED" true in
    if (netSupportingWmCheck =? 0) || (netSupported =? 0) then (false, st)
    else
      let r := XGetWindowProperty x (DefaultRootWindow x)
                 netSupportingWmCheck 0 1 XA_WINDOW in
      if badWindowReply r then (false, st)
      else
        let rootWindow := item 0 r in
        if rootWindow =? 0 then (false, st)
        else
          let r := XGetWindowProperty x rootWindow netSupportingWmCheck
                     0 1 XA_WINDOW in
          if badWindowReply r then (false, st)
          else
            let childWindow := item 0 r in
            if childWindow =? 0 then (false, st)
            else if negb (rootWindow =? childWindow) then (false, st)
            else
              let st := set_supported st in
              let netWmName := getAtom x "_NET_WM_NAME" true in
              if netWmName =? 0 then (true, st)
              else
                let utf8StringType := getAtom x "UTF8_STRING" false in
                let utf8StringType :=
                  if utf8StringType =? 0 then XA_STRING
                  else utf8StringType in
                let r := XGetWindowProperty x rootWindow netWmName
                           0 0x7fffffff utf8StringType in
                if negb (actualType r =? 0) && negb (numItems r =? 0)
                then (true, set_name (text r) st)
                else (true, st).

(** A later call of [ewmhSupported], one per server state in [later]. *)
Fixpoint laterCalls (later : list XServer) (st : Statics) : list bool :=
  match later with
  | [] => []
  | x :: rest =>
      let '(b, st') := ewmhSupported x st in b :: laterCalls rest st'
  end.

(** The property [property] of [w] names the window [named]. *)
Definition namesWindow (x : XServer) (w : Window) (property : Atom)
    (named : Window) : Prop :=
  let r := XGetWindowProperty x w property 0 1 XA_WINDOW in
  result r = Success /\ actualType r = XA_WINDOW /\ numItems r = 1
  /\ item 0 r = named /\ named <> 0.

(** The two atoms exist and the root window names a window that names
    itself. *)
Definition wmCheckHolds (x : XServer) : Prop :=
  let wmCheck := getAtom x "_NET_SUPPORTING_WM_CHECK" true in
  wmCheck <> 0
  /\ getAtom x "_NET_SUPPORTED" true <> 0
  /\ exists wm, namesWindow x (DefaultRootWindow x) wmCheck wm
                /\ namesWindow x wm wmCheck wm.

(** Statics as a run of the program can have them: the static answer is
    [true] only after a check. *)
Definition reachable (st : Statics) : Prop :=
  checked st = false -> ewmhSupported_static st = false.

Definition getParentWindow (x : XServer) (win : Window) : Window :=
  XQueryTree_parent x win.

(** [getEWMHFrameExtents]: the result and the two reference parameters. *)
Definition getEWMHFrameExtents (x : XServer) (st : Statics) (win : Window)
    (xFrameExtent yFrameExtent : Z) : bool * Z * Z * Statics :=
  let '(ewmh, st) := ewmhSupported x st in
  if negb ewmh then (false, xFrameExtent, yFrameExtent, st)
  else
    let frameExtents := getAtom x "_NET_FRAME_EXTENTS" true in
    if frameExtents =? X.None then (false, xFrameExtent, yFrameExtent, st)
    else
      let r := XGetWindowProperty x win frameExtents 0 4 XA_CARDINAL in
      if (result r =? Success) && (actualType r =? XA_CARDINAL)
         && (actualFormat r =? 32) && (numItems r =? 4)
         && (bytesAfter r =? 0)
         && match data r with NoData => false | _ => true end
      then (true, item 0 r, item 2 r, st)
      else (false, xFrameExtent, yFrameExtent, st).

Definition wmAbsPosGood : list string := ["Enlightenment"; "FVWM"; "i3"].

Definition isWMAbsolutePositionGood (x : XServer) (st : Statics)
    : bool * Statics :=
  let '(ewmh, st) := ewmhSupported x st in
  if negb ewmh then (false, st)
  else
    (existsb (fun name => String.eqb name (windowManagerName st))
             wmAbsPosGood, st).

(** The loop of CASE 3, which climbs to the ancestor whose parent is the
    root.  [fuel] bounds the iterations. *)
Fixpoint climb (fuel : nat) (x : XServer) (root ancestor : Window)
    : option Window :=
  if negb (getParentWindow x ancestor =? root) then
    match fuel with
    | O => None
    | S fuel' => climb fuel' x root (getParentWindow x ancestor)
    end
  else Some ancestor.

(** [int - int]: exact when the difference fits an [int]; the model wraps
    it otherwise (C++ leaves that case undefined). *)
Definition int_sub (a b : Z) : Z := to_int (a - b).

Definition getPosition (fuel : nat) (x : XServer) (st : Statics)
    (self : WindowImplX11) : option (Z * Z) * Statics :=
  let '(xAbsRelToRoot, yAbsRelToRoot) :=
    XTranslateCoordinates x (m_window self) (DefaultRootWindow x) in
  let '(good, st) := isWMAbsolutePositionGood x st in
  if good then (Some (xAbsRelToRoot, yAbsRelToRoot), st)
  else
    let '(got, xFrameExtent, yFrameExtent, st) :=
      getEWMHFrameExtents x st (m_window self) 0 0 in
    if got then
      (Some (int_sub xAbsRelToRoot (to_int xFrameExtent),
             int_sub yAbsRelToRoot (to_int yFrameExtent)), st)
    else
      let root := DefaultRootWindow x in
      match climb fuel x root (m_window self) with
      | None => (None, st)
      | Some ancestor => (Some (XGetGeometry x ancestor), st)
      end.

(** [ancestor] is reached from [w] by [n] steps to the parent, it is the
    first window on the way whose parent is the root: the furthest
    ancestor below the root. *)
Inductive furthestAncestor (x : XServer) (root : Window)
    : Window -> Window -> nat -> Prop :=
| fa_here w :
    getParentWindow x w = root -> furthestAncestor x root w w 0
| fa_up w a n :
    getParentWindow x w <> root ->
    furthestAncestor x root (getParentWindow x w) a n ->
    furthestAncestor x root w a (S n).

(** The [_NET_FRAME_EXTENTS] property of [w] is available and gives
    [left] and [top]. *)
Definition frameExtentsAvailable (x : XServer) (w : Window)
    (left top : Z) : Prop :=
  let atom := getAtom x "_NET_FRAME_EXTENTS" true in
  let r := XGetWindowProperty x w atom 0 4 XA_CARDINAL in
  atom <> X.None /\ result r = Success /\ actualType r = XA_CARDINAL
  /\ actualFormat r = 32 /\ numItems r = 4 /\ bytesAfter r = 0
  /\ data r <> NoData /\ item 0 r = left /\ item 2 r = top.

Definition fitsInt (z : Z) : Prop := - 2 ^ 31 <= z < 2 ^ 31.

End EWMH.

(** ** [WindowImplX11::requestFocus] and [grabFocus] *)

Module Focus.

Import EWMH.

Definition hasFocus (x : XServer) (w : WindowImplX11) : bool :=
  m_window w =? XGetInputFocus x.

(** The [_NET_ACTIVE_WINDOW] message of [grabFocus]; the event starts
    zeroed. *)
Definition activeWindowMessage (netActiveWindow : Atom)
    (self : WindowImplX11) : XClientMessageEvent :=
  {| xclient_window := m_window self;
     xclient_message_type := netActiveWindow;
     xclient_format := 32;
     xclient_l0 := 1;
     xclient_l1 := m_lastInputTime self;
     xclient_l2 := 0;
     xclient_l3 := 0;
     xclient_l4 := 0 |}.

(** [grabFocus].  When [XGetWindowAttributes] fails the code reads an
    [attr] that was never written; the model takes [IsUnmapped] there. *)
Definition grabFocus (x : XServer) (st : Statics) (self : WindowImplX11)
    : list Effect * Statics :=
  let '(ewmh, st) := ewmhSupported x st in
  let netActiveWindow :=
    if ewmh then getAtom x "_NET_ACTIVE_WINDOW" false else X.None in
  let map_state :=
    match XGetWindowAttributes x (m_window self) with
    | Some s => s
    | None => IsUnmapped
    end in
  if map_state =? IsUnmapped then ([], st)
  else if negb (netActiveWindow =? 0) then
    ([XSendEvent (DefaultRootWindow x) false
        (Z.lor SubstructureNotifyMask SubstructureRedirectMask)
        (activeWindowMessage netActiveWindow self);
      XFlush]
     ++ (if XSendEvent_status x =? 0
         then [err (quoting "Setting fullscreen failed, could not send "
                           "_NET_ACTIVE_WINDOW" " event")]
         else []),
     st)
  else
    ([XRaiseWindow (m_window self);
      XSetInputFocus (m_window self) RevertToPointerRoot CurrentTime;
      XFlush], st).

(** [requestFocus]; [allWindows] is the global list of the SFML windows.
    [XAllocWMHints] gives zeroed hints. *)
Definition requestFocus (x : XServer) (st : Statics)
    (allWindows : list WindowImplX11) (self : WindowImplX11)
    : list Effect * Statics :=
  let sfmlWindowFocused := existsb (hasFocus x) allWindows in
  match XGetWindowAttributes x (m_window self) with
  | None =>
      ([err "Failed to check if window is viewable while requesting focus"],
       st)
  | Some map_state =>
      let windowViewable := map_state =? IsViewable in
      if sfmlWindowFocused && windowViewable then grabFocus x st self
      else
        let flags :=
          match XGetWMHints x (m_window self) with
          | Some flags => flags
          | None => 0
          end in
        ([XSetWMHints (m_window self) (Z.lor flags XUrgencyHint)], st)
  end.

(** The requests that take the focus: raising the window and giving it the
    input focus, or the [_NET_ACTIVE_WINDOW] message that asks the window
    manager for it. *)
Definition changesFocus (e : Effect) : bool :=
  match e with
  | XRaiseWindow _ => true
  | XSetInputFocus _ _ _ => true
  | XSendEvent _ _ _ _ => true
  | _ => false
  end.

Definition setsUrgency (w : Window) (e : Effect) : bool :=
  match e with
  | XSetWMHints w' flags => (w' =? w) && Z.testbit flags 8
  | _ => false
  end.

End Focus.

(** ** [WindowImplX11::processEvent]: client messages and Xdnd *)

Module Dnd.

(** [canAcceptFileType]: the array holds one atom. *)
Definition canAcceptFileType (x : XServer) (fileType : Atom) : bool :=
  existsb (fun atom => atom =? fileType) [getAtom x "text/uri-list" false].

(** The two loops of [XdndEnter]: the first acceptable type of the list,
    else the value [m_acceptedFileType] has.  The casts of [data.l[i]] to
    [Window] and to [Atom] are [wrap_ulong]. *)
Fixpoint firstAccepted (x : XServer) (types : list Atom) (current : Atom)
    : Atom :=
  match types with
  | [] => current
  | t :: rest =>
      if canAcceptFileType x t then t else firstAccepted x rest current
  end.

(** Members that are never written ([message.xclient.data.l[3]] and [[4]]
    of the [XdndFinished] message) hold [indeterminate]. *)
Section ClientMessage.

Variable x : XServer.
Variable filtered : bool.       (* what XFilterEvent returns *)
Variable netWmPing : Atom.      (* the static of that name *)
Variable indeterminate : Z.

Definition atom (name : string) : Atom := getAtom x name false.

Definition wmProtocolsBlock (windowEvent : XClientMessageEvent)
    : list Effect :=
  if negb filtered then
    if xclient_message_type windowEvent =? atom "WM_PROTOCOLS" then
      if (xclient_format windowEvent =? 32)
         && (xclient_l0 windowEvent =? atom "WM_DELETE_WINDOW")
      then [pushEvent "Closed"]
      else if negb (netWmPing =? 0) && (xclient_format windowEvent =? 32)
              && (xclient_l0 windowEvent =? netWmPing)
      then
        [XSendEvent (DefaultRootWindow x) false
           (Z.lor SubstructureNotifyMask SubstructureRedirectMask)
           {| xclient_window := DefaultRootWindow x;
              xclient_message_type := xclient_message_type windowEvent;
              xclient_format := xclient_format windowEvent;
              xclient_l0 := xclient_l0 windowEvent;
              xclient_l1 := xclient_l1 windowEvent;
              xclient_l2 := xclient_l2 windowEvent;
              xclient_l3 := xclient_l3 windowEvent;
              xclient_l4 := xclient_l4 windowEvent |}]
      else []
    else []
  else [].

Definition xdndPositionBlock (self : WindowImplX11)
    (windowEvent : XClientMessageEvent) : list Effect :=
  if xclient_message_type windowEvent =? atom "XdndPosition" then
    [XSendEvent (m_dropSource self) false 0
       {| xclient_window := m_dropSource self;
          xclient_message_type := atom "XdndStatus";
          xclient_format := 32;
          xclient_l0 := m_window self;
          xclient_l1 :=
            if negb (m_acceptedFileType self =? X.None) then 1 else 0;
          xclient_l2 := 0;
          xclient_l3 := 0;
          xclient_l4 := atom "XdndActionCopy" |}]
  else [].

Definition xdndEnterBlock (self : WindowImplX11)
    (windowEvent : XClientMessageEvent) : WindowImplX11 :=
  if xclient_message_type windowEvent =? atom "XdndEnter" then
    let dropSource := wrap_ulong (xclient_l0 windowEvent) in
    if Z.testbit (xclient_l1 windowEvent) 0 then
      let r := XGetWindowProperty x dropSource (atom "XdndTypeList")
                 0 1024 AnyPropertyType in
      if (result r =? Success) && negb (actualType r =? X.None) then
        let supportedAtoms :=
          match data r with Longs l => l | _ => [] end in
        set_drop dropSource
          (firstAccepted x
             (firstn (Z.to_nat (to_int (numItems r))) supportedAtoms)
             X.None) self
      else set_drop dropSource X.None self
    else
      set_drop dropSource
        (firstAccepted x
           [wrap_ulong (xclient_l2 windowEvent);
            wrap_ulong (xclient_l3 windowEvent);
            wrap_ulong (xclient_l4 windowEvent)] X.None) self
  else self.

Definition xdndFinished (self : WindowImplX11) : XClientMessageEvent :=
  {| xclient_window := m_dropSource self;
     xclient_message_type := atom "XdndFinished";
     xclient_format := 32;
     xclient_l0 := m_window self;
     xclient_l1 := if negb (m_acceptedFileType self =? X.None) then 1 else 0;
     xclient_l2 :=
       if negb (m_acceptedFileType self =? X.None)
       then atom "XdndActionCopy" else X.None;
     xclient_l3 := indeterminate;
     xclient_l4 := indeterminate |}.

Definition xdndDropBlock (self : WindowImplX11)
    (windowEvent : XClientMessageEvent) : WindowImplX11 * list Effect :=
  if xclient_message_type windowEvent =? atom "XdndDrop" then
    ((set_drop 0 X.None self),
     (if negb (m_acceptedFileType self =? X.None) then
        [XConvertSelection (atom "XdndSelection") (m_acceptedFileType self)
           (atom "XDND_DATA") (m_window self)
           (wrap_ulong (xclient_l2 windowEvent))]
      else [])
     ++ [XSendEvent (m_dropSource self) false NoEventMask
           (xdndFinished self)])
  else (self, []).

Definition xdndLeaveBlock (self : WindowImplX11)
    (windowEvent : XClientMessageEvent) : WindowImplX11 :=
  if xclient_message_type windowEvent =? atom "XdndLeave" then
    set_drop 0 X.None self
  else self.

(** The [case ClientMessage] of [processEvent]. *)
Definition processClientMessage (self : WindowImplX11)
    (windowEvent : XClientMessageEvent) : WindowImplX11 * list Effect :=
  let tr1 := wmProtocolsBlock windowEvent in
  let tr2 := xdndPositionBlock self windowEvent in
  let self := xdndEnterBlock self windowEvent in
  let '(self, tr3) := xdndDropBlock self windowEvent in
  let self := xdndLeaveBlock self windowEvent in
  (self, tr1 ++ tr2 ++ tr3).

(** The names whose atoms the case compares. *)
Definition messageNames : list string :=
  ["WM_PROTOCOLS"; "XdndPosition"; "XdndEnter"; "XdndDrop"; "XdndLeave";
   "XdndFinished"; "XdndStatus"].

Fixpoint distinct (l : list Z) : bool :=
  match l with
  | [] => true
  | a :: rest => negb (existsb (Z.eqb a) rest) && distinct rest
  end.

(** Interned atoms of different names differ, and none is [None]. *)
Definition atomsWellFormed : bool :=
  distinct (map atom messageNames)
  && negb (atom "text/uri-list" =? X.None).

Definition isFinished (e : Effect) : bool :=
  match e with
  | XSendEvent _ _ _ ev => xclient_message_type ev =? atom "XdndFinished"
  | _ => false
  end.

(** The types the source of a drag offers with its [XdndEnter] message. *)
Definition offeredTypes (enter : XClientMessageEvent) : list Atom :=
  if Z.testbit (xclient_l1 enter) 0 then
    let r := XGetWindowProperty x (wrap_ulong (xclient_l0 enter))
               (atom "XdndTypeList") 0 1024 AnyPropertyType in
    if (result r =? Success) && negb (actualType r =? X.None) then
      firstn (Z.to_nat (to_int (numItems r)))
             match data r with Longs l => l | _ => [] end
    else []
  else [wrap_ulong (xclient_l2 enter); wrap_ulong (xclient_l3 enter);
        wrap_ulong (xclient_l4 enter)].

(** The window after a run of client messages. *)
Fixpoint afterMessages (self : WindowImplX11)
    (events : list XClientMessageEvent) : WindowImplX11 :=
  match events with
  | [] => self
  | e :: rest => afterMessages (fst (processClientMessage self e)) rest
  end.

End ClientMessage.

End Dnd.

(** ** [Music::onGetData] *)

Module Music.

(** The sound file behind [m_file], as [Music] uses it: [read f maxCount]
    gives the samples it read and the file afterwards. *)
Class SoundFile (F : Type) := {
  read : F -> Z -> list Z * F;
  getSampleOffset : F -> Z;
  getSampleCount : F -> Z;
  getSampleRate : F -> Z;
  getChannelCount : F -> Z
}.

(** [SoundStream::Chunk]: [samples] points into a buffer, the model holds
    the content of that buffer. *)
Record Chunk := {
  samples : list Z;
  sampleCount : Z
}.

Section WithFile.

Context {F : Type} `{SoundFile F}.

Record Music := {
  m_file : F;
  m_samples : list Z
}.

(** [std::vector::resize]: new elements are zero. *)
Definition resize (n : nat) (v : list Z) : list Z :=
  firstn n v ++ repeat 0 (n - length v).

(** [read] writes what it read at the start of the buffer. *)
Definition store (read_ buffer : list Z) : list Z :=
  read_ ++ skipn (length read_) buffer.

(** [initialize]: the product is an [unsigned int]. *)
Definition initialize (m : Music) : Music :=
  {| m_file := m_file m;
     m_samples :=
       resize (Z.to_nat (wrap_uint (getSampleRate (m_file m)
                                    * getChannelCount (m_file m))))
              (m_samples m) |}.

Definition onGetData (m : Music) : bool * Chunk * Music :=
  let '(got, file) := read (m_file m) (Z.of_nat (length (m_samples m))) in
  let buffer := store got (m_samples m) in
  let data := {| samples := buffer;
                 sampleCount := Z.of_nat (length got) |} in
  (negb (sampleCount data =? 0)
   && (getSampleOffset file <? getSampleCount file),
   data,
   {| m_file := file; m_samples := buffer |}).

End WithFile.

Arguments Music F : clear implicits.

(** A sound file held in memory, to run the code on. *)
Record MemoryFile := {
  mf_samples : list Z;
  mf_offset : nat;
  mf_rate : Z;
  mf_channels : Z
}.

#[export] Instance MemoryFile_SoundFile : SoundFile MemoryFile := {
  read f maxCount :=
    let got := firstn (Z.to_nat maxCount) (skipn (mf_offset f) (mf_samples f)) in
    (got,
     {| mf_samples := mf_samples f;
        mf_offset := (mf_offset f + length got)%nat;
        mf_rate := mf_rate f; mf_channels := mf_channels f |});
  getSampleOffset f := Z.of_nat (mf_offset f);
  getSampleCount f := Z.of_nat (length (mf_samples f));
  getSampleRate f := mf_rate f;
  getChannelCount f := mf_channels f
}.

End Music.

(** ** Concrete inputs, to run the definitions on *)

Module Samples.

Definition sampleWindow : WindowImplX11 :=
  {| m_window := 7; m_fullscreen := false; m_cursorGrabbed := false;
     m_keyRepeat := true; m_lastInputTime := 1000;
     m_oldVideoMode := 0; m_oldRRCrtc := 0;
     m_dropSource := 0; m_acceptedFileType := 0;
     m_lastCursor := 0; m_hiddenCursor := 0 |}.

(** The first two grabs fail (with [AlreadyGrabbed]), the third succeeds. *)
Definition thirdGrabSucceeds (trial : nat) : Z :=
  if (trial <? 2)%nat then 1 else GrabSuccess.

Import EventQueue.

Definition wmProtocolsAtom : Atom := 300.

Definition keyEvent (type : Z) (window : Window) (keycode : Z) (time : Time)
    : XEvent :=
  {| ev_type := type; ev_window := window; ev_keycode := keycode;
     ev_time := time; ev_message_type := 0 |}.

(** A clipboard that takes the events of its own window, 99, out of the
    queue. *)
Definition sampleClipboard (queue : list XEvent) : list XEvent :=
  filter (fun e => negb (ev_window e =? 99)) queue.

(** A release and a press of key 38 at the same millisecond, for window 7,
    and an [Expose] (type 12) of window 9. *)
Definition sampleRelease : XEvent := keyEvent KeyRelease 7 38 5000.
Definition samplePress : XEvent := keyEvent KeyPress 7 38 5000.
Definition sampleExpose : XEvent := keyEvent 12 9 0 0.
Definition sampleLastRelease : XEvent := keyEvent KeyRelease 7 38 5040.

Import VideoModeSwitch.

Definition sampleVideoMode_eq (a b : VideoMode) : bool :=
  (size_x a =? size_x b) && (size_y a =? size_y b)
  && (bitsPerPixel a =? bitsPerPixel b).

Definition desktop1920 : VideoMode :=
  {| size_x := 1920; size_y := 1080; bitsPerPixel := 32 |}.
Definition mode800 : VideoMode :=
  {| size_x := 800; size_y := 600; bitsPerPixel := 32 |}.
Definition mode1080x1920 : VideoMode :=
  {| size_x := 1080; size_y := 1920; bitsPerPixel := 32 |}.

Definition sampleResources : XRRScreenResources :=
  {| res_modes := [ {| mode_id := 71; mode_width := 1920;
                       mode_height := 1080 |};
                    {| mode_id := 72; mode_width := 800;
                       mode_height := 600 |} ];
     res_outputs := [66] |}.

(** A server with XRandR, one output (66) on crtc 63, which shows mode 71
    with the given rotation; [status] is its answer to a mode switch. *)
Definition sampleXRandR_status (connection rotation status : Z) : XRandR :=
  {| XQueryExtension_RANDR := true;
     XRRGetScreenResources := Some sampleResources;
     XRRGetOutputPrimary := 66;
     XRRGetOutputInfo := fun _ =>
       Some {| output_crtc := 63; output_connection := connection |};
     XRRGetCrtcInfo := fun _ =>
       Some {| crtc_x := 0; crtc_y := 0; crtc_mode := 71;
               crtc_rotation := rotation |};
     XRRSetCrtcConfig_status := status |}.

Definition sampleXRandR (connection rotation : Z) : XRandR :=
  sampleXRandR_status connection rotation RRSetConfigSuccess.

(** The same server at a moment when it cannot give its screen
    resources. *)
Definition sampleXRandR_noResources : XRandR :=
  {| XQueryExtension_RANDR := true;
     XRRGetScreenResources := None;
     XRRGetOutputPrimary := 66;
     XRRGetOutputInfo := fun _ =>
       Some {| output_crtc := 63; output_connection := RR_Connected |};
     XRRGetCrtcInfo := fun _ =>
       Some {| crtc_x := 0; crtc_y := 0; crtc_mode := 72;
               crtc_rotation := RR_Rotate_0 |};
     XRRSetCrtcConfig_status := RRSetConfigSuccess |}.

(** Window 7 after it has switched from mode 71 to mode 72 on crtc 63. *)
Definition fullscreenSample : WindowImplX11 :=
  set_oldVideoMode 71 63 sampleWindow.

(** Atoms of the sample server; a name it does not know has no atom. *)
Definition sampleAtoms : list (string * Atom) :=
  [("_NET_SUPPORTING_WM_CHECK", 401); ("_NET_SUPPORTED", 402);
   ("_NET_WM_NAME", 403); ("UTF8_STRING", 404);
   ("_NET_FRAME_EXTENTS", 405); ("_NET_ACTIVE_WINDOW", 406);
   ("WM_PROTOCOLS", 300); ("WM_DELETE_WINDOW", 301);
   ("XdndPosition", 501); ("XdndEnter", 502); ("XdndDrop", 503);
   ("XdndLeave", 504); ("XdndFinished", 505); ("XdndStatus", 506);
   ("XdndActionCopy", 507); ("XdndSelection", 508); ("XDND_DATA", 509);
   ("XdndTypeList", 510); ("text/uri-list", 511); ("text/plain", 512)].

Fixpoint lookupAtom (table : list (string * Atom)) (name : string) : Atom :=
  match table with
  | [] => X.None
  | (n, a) :: rest => if String.eqb n name then a else lookupAtom rest name
  end.

Definition reply (type format : Z) (items : list Z) : PropertyReply :=
  {| result := Success; actualType := type; actualFormat := format;
     numItems := Z.of_nat (length items); bytesAfter := 0;
     data := Longs items |}.

Definition noProperty : PropertyReply :=
  {| result := Success; actualType := X.None; actualFormat := 0;
     numItems := 0; bytesAfter := 0; data := NoData |}.

(** A server whose window manager is window 50 and has the name [wmName].
    The root is window 1; window 7 lies in the frame 20, a child of the
    root.  The frame extents of every window are 4, 4, 24, 4 when
    [withExtents] holds.  Window 8 has the input focus.  Window 90, the
    source of a drag, offers the types of [typeList]. *)
Definition sampleServer (wmName : string) (withExtents : bool)
    (typeList : list Atom) : XServer :=
  {| getAtom := fun name _ =>
       if negb withExtents && String.eqb name "_NET_FRAME_EXTENTS"
       then X.None else lookupAtom sampleAtoms name;
     DefaultRootWindow := 1;
     XGetWindowProperty := fun w property _ _ _ =>
       if property =? 401 then
         if (w =? 1) || (w =? 50) then reply XA_WINDOW 32 [50]
         else noProperty
       else if property =? 403 then
         {| result := Success; actualType := 404; actualFormat := 8;
            numItems := Z.of_nat (String.length wmName); bytesAfter := 0;
            data := Bytes wmName |}
       else if property =? 405 then reply XA_CARDINAL 32 [4; 4; 24; 4]
       else if property =? 510 then reply 4 32 typeList
       else noProperty;
     XQueryTree_parent := fun w =>
       if w =? 7 then 20 else if w =? 20 then 1 else 0;
     XTranslateCoordinates := fun _ _ => (104, 224);
     XGetGeometry := fun w => if w =? 20 then (99, 199) else (0, 0);
     XGetInputFocus := 8;
     XGetWindowAttributes := fun w =>
       if w =? 7 then Some IsViewable
       else if w =? 8 then Some IsUnviewable else None;
     XGetWMHints := fun _ => Some 1;
     XSendEvent_status := 1 |}.

(** A server without a window manager: it knows no atom and no window. *)
Definition bareServer : XServer :=
  {| getAtom := fun _ _ => X.None;
     DefaultRootWindow := 1;
     XGetWindowProperty := fun _ _ _ _ _ => noProperty;
     XQueryTree_parent := fun _ => 0;
     XTranslateCoordinates := fun _ _ => (0, 0);
     XGetGeometry := fun _ => (0, 0);
     XGetInputFocus := 0;
     XGetWindowAttributes := fun _ => None;
     XGetWMHints := fun _ => None;
     XSendEvent_status := 0 |}.

Definition window8 : WindowImplX11 :=
  {| m_window := 8; m_fullscreen := false; m_cursorGrabbed := false;
     m_keyRepeat := true; m_lastInputTime := 1000;
     m_oldVideoMode := 0; m_oldRRCrtc := 0;
     m_dropSource := 0; m_acceptedFileType := 0;
     m_lastCursor := 0; m_hiddenCursor := 0 |}.

Definition clientMessage (type : Atom) (l0 l1 l2 l3 l4 : Z)
    : XClientMessageEvent :=
  {| xclient_window := 7; xclient_message_type := type;
     xclient_format := 32; xclient_l0 := l0; xclient_l1 := l1;
     xclient_l2 := l2; xclient_l3 := l3; xclient_l4 := l4 |}.

(** A drag from window 90 that offers plain text and a list of URIs, a
    move of the pointer, and the drop. *)
Definition sampleEnter : XClientMessageEvent :=
  clientMessage 502 90 (Z.shiftl 5 24) 512 511 0.
Definition sampleMove : XClientMessageEvent :=
  clientMessage 501 90 0 0 0 507.
Definition sampleDrop : XClientMessageEvent :=
  clientMessage 503 90 0 123456 0 0.

(** Five samples of a mono file at 4 samples per second, one already
    read. *)
Definition sampleFile : Music.MemoryFile :=
  {| Music.mf_samples := [11; 12; 13; 14; 15]; Music.mf_offset := 1;
     Music.mf_rate := 4; Music.mf_channels := 1 |}.

Definition sampleMusic : Music.Music Music.MemoryFile :=
  {| Music.m_file := sampleFile; Music.m_samples := [] |}.

End Samples.

(** ** Key repeat as a user sees it *)

Module KeyRepeat.

Import EventQueue.

(** [l1] is [l2] with some elements left out. *)
Inductive subsequence {A : Type} : list A -> list A -> Prop :=
| sub_nil : subsequence [] []
| sub_keep a l1 l2 : subsequence l1 l2 -> subsequence (a :: l1) (a :: l2)
| sub_skip a l1 l2 : subsequence l1 l2 -> subsequence l1 (a :: l2).

Definition keyEventOf (w : Window) (keycode type : Z) (time : Time)
    : XEvent :=
  {| ev_type := type; ev_window := w; ev_keycode := keycode;
     ev_time := time; ev_message_type := 0 |}.

(** What the server queues for a key that is pressed at [start], held so
    that it repeats at each time of [repeats], and released at [stop]:
    every repeat is a release and a press with the same timestamp. *)
Definition heldKey (w : Window) (keycode : Z) (start : Time)
    (repeats : list Time) (stop : Time) : list XEvent :=
  keyEventOf w keycode KeyPress start
  :: flat_map (fun t => [keyEventOf w keycode KeyRelease t;
                         keyEventOf w keycode KeyPress t]) repeats
  ++ [keyEventOf w keycode KeyRelease stop].

End KeyRepeat.

(** ** [WindowImplX11::getPrimaryMonitorPosition] *)

Module Monitor.

Import VideoModeSwitch.

(** The position starts as (0, 0), the value it has on every failure. *)
Definition getPrimaryMonitorPosition (x : XRandR) : (Z * Z) * list Effect :=
  match XRRGetScreenResources x with
  | None =>
      ((0, 0),
       [err "Failed to get the current screen resources for primary monitor position"])
  | Some res =>
      let output := getOutputPrimary x res in
      match XRRGetOutputInfo x output with
      | None =>
          ((0, 0),
           [err "Failed to get output info for primary monitor position"])
      | Some outputInfo =>
          if output_connection outputInfo =? RR_Disconnected then
            ((0, 0),
             [err "Failed to get output info for primary monitor position"])
          else
            match XRRGetCrtcInfo x (output_crtc outputInfo) with
            | None =>
                ((0, 0),
                 [err "Failed to get crtc info for primary monitor position"])
            | Some crtcInfo => ((crtc_x crtcInfo, crtc_y crtcInfo), [])
            end
      end
  end.

End Monitor.

(** ** More requests of the window backend *)

Module Requests.

(* X.h, Xutil.h, Xatom.h *)
Definition Button1 : Z := 1.
Definition Button2 : Z := 2.
Definition Button3 : Z := 3.
Definition Button4 : Z := 4.
Definition Button5 : Z := 5.
Definition PropModeReplace : Z := 0.
Definition XA_ATOM : Atom := 4.
Definition PMinSize : Z := Z.shiftl 1 4.
Definition PMaxSize : Z := Z.shiftl 1 5.

Inductive MouseButton := Left | Right | Middle | Extra1 | Extra2.

Inductive MouseWheel := Vertical | Horizontal.

(** The [sf::Event]s that the modelled cases push. *)
Inductive Event :=
| Closed
| Resized (size : Z * Z)
| FocusLost
| FocusGained
| MouseButtonPressed (button : MouseButton) (position : Z * Z)
| MouseButtonReleased (button : MouseButton) (position : Z * Z)
| MouseWheelScrolled (wheel : MouseWheel) (delta : Z) (position : Z * Z).

(** [XSizeHints]: the members the code writes; the others are zero. *)
Record XSizeHints := {
  hint_flags : Z;
  min_width : Z;
  min_height : Z;
  max_width : Z;
  max_height : Z
}.

(** What these functions issue: an [Effect] of the functions above, an
    event given to [pushEvent], or one of the further Xlib calls.
    [XChangeProperty w property type format mode data] carries the items
    it writes. *)
Inductive Output :=
| effect (e : Effect)
| push (e : Event)
| XChangeProperty (w : Window) (property type : Atom) (format mode : Z)
                  (data : list Z)
| XSetWMNormalHints (w : Window) (hints : XSizeHints)
| XResizeWindow (w : Window) (width height : Z)
| XSetICFocus
| XUnsetICFocus.

(** The further members of [WindowImplX11] these functions use, beside the
    ones of [impl]. *)
Record Members := {
  impl : WindowImplX11;
  m_previousSize : Z * Z;
  m_windowMapped : bool;
  m_useSizeHints : bool;
  m_inputContext : bool
}.

Definition with_impl (w : WindowImplX11) (m : Members) : Members :=
  {| impl := w; m_previousSize := m_previousSize m;
     m_windowMapped := m_windowMapped m;
     m_useSizeHints := m_useSizeHints m;
     m_inputContext := m_inputContext m |}.

Definition with_previousSize (size : Z * Z) (m : Members) : Members :=
  {| impl := impl m; m_previousSize := size;
     m_windowMapped := m_windowMapped m;
     m_useSizeHints := m_useSizeHints m;
     m_inputContext := m_inputContext m |}.

Definition set_lastInputTime (time : Time) (w : WindowImplX11)
    : WindowImplX11 :=
  {| m_window := m_window w; m_fullscreen := m_fullscreen w;
     m_cursorGrabbed := m_cursorGrabbed w; m_keyRepeat := m_keyRepeat w;
     m_lastInputTime := time;
     m_oldVideoMode := m_oldVideoMode w; m_oldRRCrtc := m_oldRRCrtc w;
     m_dropSource := m_dropSource w;
     m_acceptedFileType := m_acceptedFileType w;
     m_lastCursor := m_lastCursor w; m_hiddenCursor := m_hiddenCursor w |}.

(** [updateLastInputTime] *)
Definition updateLastInputTime (x : XServer) (time : Time)
    (w : WindowImplX11) : WindowImplX11 * list Output :=
  if negb (time =? 0) && negb (time =? m_lastInputTime w) then
    let netWmUserTime := getAtom x "_NET_WM_USER_TIME" true in
    (set_lastInputTime time w,
     if negb (netWmUserTime =? 0) then
       [XChangeProperty (m_window w) netWmUserTime XA_CARDINAL 32
          PropModeReplace [time]]
     else [])
  else (w, []).

(** [case PropertyNotify] of [processEvent] *)
Definition propertyNotify (time : Time) (w : WindowImplX11)
    : WindowImplX11 :=
  if m_lastInputTime w =? 0 then set_lastInputTime time w else w.

(** [case FocusIn]: the grab loop is the loop of [setMouseCursorGrabbed]. *)
Definition focusIn (x : XServer) (grabPointer : nat -> Z) (m : Members)
    : Members * list Output :=
  let w := impl m in
  let tr1 := if m_inputContext m then [XSetICFocus] else [] in
  let '(w', tr2) :=
    if m_cursorGrabbed w then
      let '(w', tr) :=
        CursorGrab.grabTrials grabPointer CursorGrab.maxTrialsCount 0 w in
      if negb (m_cursorGrabbed w')
      then (w', tr ++ [err "Failed to grab mouse cursor"])
      else (w', tr)
    else (w, []) in
  let tr3 := [push FocusGained] in
  let tr4 :=
    match XGetWMHints x (m_window w) with
    | Some flags =>
        [effect (XSetWMHints (m_window w)
                   (Z.land flags (Z.lnot XUrgencyHint)))]
    | None => []
    end in
  (with_impl w' m, tr1 ++ map effect tr2 ++ tr3 ++ tr4).

(** [case FocusOut] *)
Definition focusOut (m : Members) : list Output :=
  (if m_inputContext m then [XUnsetICFocus] else [])
  ++ (if m_cursorGrabbed (impl m) then [effect XUngrabPointer] else [])
  ++ [push FocusLost].

(** [case ConfigureNotify]: [xconfigure.width] and [height] are [int]s,
    the event carries them as [unsigned int]s. *)
Definition configureNotify (width height : Z) (m : Members)
    : Members * list Output :=
  if negb (width =? fst (m_previousSize m))
     || negb (height =? snd (m_previousSize m))
  then (with_previousSize (width, height) m,
        [push (Resized (wrap_uint width, wrap_uint height))])
  else (m, []).

(** The two [switch]es over [button]. *)
Definition mouseButton (button : Z) : option MouseButton :=
  if button =? Button1 then Some Left
  else if button =? Button2 then Some Middle
  else if button =? Button3 then Some Right
  else if button =? 8 then Some Extra1
  else if button =? 9 then Some Extra2
  else None.

(** [case ButtonPress] *)
Definition buttonPress (x : XServer) (button : Z) (position : Z * Z)
    (time : Time) (w : WindowImplX11) : WindowImplX11 * list Output :=
  let tr :=
    if (button =? Button1) || (button =? Button2) || (button =? Button3)
       || (button =? 8) || (button =? 9)
    then match mouseButton button with
         | Some b => [push (MouseButtonPressed b position)]
         | None => []
         end
    else [] in
  let '(w', tr') := updateLastInputTime x time w in
  (w', tr ++ tr').

(** The events that touch [m_lastInputTime], among the cases above, and
    [processEvent] on a list of them. *)
Inductive TimedEvent :=
| PropertyNotifyEvent (time : Time)
| ButtonPressEvent (button : Z) (position : Z * Z) (time : Time).

Definition processTimed (x : XServer) (e : TimedEvent) (w : WindowImplX11)
    : WindowImplX11 * list Output :=
  match e with
  | PropertyNotifyEvent time => (propertyNotify time w, [])
  | ButtonPressEvent button position time =>
      buttonPress x button position time w
  end.

Fixpoint processAll (x : XServer) (events : list TimedEvent)
    (w : WindowImplX11) : WindowImplX11 * list Output :=
  match events with
  | [] => (w, [])
  | e :: rest =>
      let '(w', tr) := processTimed x e w in
      let '(w'', tr') := processAll x rest w' in
      (w'', tr ++ tr')
  end.

Definition isButtonPress (e : TimedEvent) : bool :=
  match e with
  | ButtonPressEvent _ _ _ => true
  | PropertyNotifyEvent _ => false
  end.

(** [case ButtonRelease] *)
Definition buttonRelease (button : Z) (position : Z * Z) : list Output :=
  if (button =? Button1) || (button =? Button2) || (button =? Button3)
     || (button =? 8) || (button =? 9)
  then match mouseButton button with
       | Some b => [push (MouseButtonReleased b position)]
       | None => []
       end
  else if (button =? Button4) || (button =? Button5) then
    [push (MouseWheelScrolled Vertical
             (if button =? Button4 then 1 else -1) position)]
  else if (button =? 6) || (button =? 7) then
    [push (MouseWheelScrolled Horizontal
             (if button =? 6 then 1 else -1) position)]
  else [].

(** [setSize]: [size] is a [Vector2u]. *)
Definition setSize (size : Z * Z) (m : Members) : list Output :=
  (if m_useSizeHints m then
     [XSetWMNormalHints (m_window (impl m))
        {| hint_flags := Z.lor PMinSize PMaxSize;
           min_width := to_int (fst size); min_height := to_int (snd size);
           max_width := to_int (fst size);
           max_height := to_int (snd size) |}]
   else [])
  ++ [XResizeWindow (m_window (impl m)) (fst size) (snd size);
      effect XFlush].

(** [setWindowSizeConstraints]; [minimumSize] and [maximumSize] are what
    [getMinimumSize()] and [getMaximumSize()] of the base class return. *)
Definition setWindowSizeConstraints (minimumSize maximumSize : option (Z * Z))
    (m : Members) : list Output :=
  if m_useSizeHints m then []
  else
    let h0 := {| hint_flags := 0; min_width := 0; min_height := 0;
                 max_width := 0; max_height := 0 |} in
    let h1 :=
      match minimumSize with
      | Some s =>
          {| hint_flags := Z.lor (hint_flags h0) PMinSize;
             min_width := to_int (fst s); min_height := to_int (snd s);
             max_width := max_width h0; max_height := max_height h0 |}
      | None => h0
      end in
    let h2 :=
      match maximumSize with
      | Some s =>
          {| hint_flags := Z.lor (hint_flags h1) PMaxSize;
             min_width := min_width h1; min_height := min_height h1;
             max_width := to_int (fst s); max_height := to_int (snd s) |}
      | None => h1
      end in
    [XSetWMNormalHints (m_window (impl m)) h2].

Import EWMH.

(** [setProtocols]; [pid] is what [getpid()] returns. *)
Definition setProtocols (x : XServer) (st : Statics) (pid : Z)
    (w : WindowImplX11) : list Output * Statics :=
  let wmProtocols := getAtom x "WM_PROTOCOLS" false in
  let wmDeleteWindow := getAtom x "WM_DELETE_WINDOW" false in
  if wmProtocols =? 0 then
    ([effect (err "Failed to request WM_PROTOCOLS atom.")], st)
  else
    let '(atoms, tr1) :=
      if negb (wmDeleteWindow =? 0) then ([wmDeleteWindow], [])
      else ([], [effect (err "Failed to request WM_DELETE_WINDOW atom.")]) in
    let '(ewmh, st) := ewmhSupported x st in
    let netWmPing := if ewmh then getAtom x "_NET_WM_PING" true else X.None in
    let netWmPid := if ewmh then getAtom x "_NET_WM_PID" true else X.None in
    let '(atoms, tr2) :=
      if negb (netWmPing =? 0) && negb (netWmPid =? 0) then
        (atoms ++ [netWmPing],
         [XChangeProperty (m_window w) netWmPid XA_CARDINAL 32
            PropModeReplace [pid]])
      else (atoms, []) in
    let tr3 :=
      match atoms with
      | _ :: _ =>
          [XChangeProperty (m_window w) wmProtocols XA_ATOM 32
             PropModeReplace atoms]
      | [] => [effect (err "Didn't set any window protocols")]
      end in
    (tr1 ++ tr2 ++ tr3, st).

(** The [_NET_WM_STATE] message of [switchToFullscreen]; the event starts
    zeroed. *)
Definition fullscreenMessage (netWmState netWmStateFullscreen : Atom)
    (w : WindowImplX11) : XClientMessageEvent :=
  {| xclient_window := m_window w;
     xclient_message_type := netWmState;
     xclient_format := 32;
     xclient_l0 := 1;
     xclient_l1 := netWmStateFullscreen;
     xclient_l2 := 0;
     xclient_l3 := 1;
     xclient_l4 := 0 |}.

(** [switchToFullscreen] *)
Definition switchToFullscreen (x : XServer) (st : Statics)
    (w : WindowImplX11) : list Output * Statics :=
  let '(tr0, st) := Focus.grabFocus x st w in
  let '(ewmh, st) := ewmhSupported x st in
  if ewmh then
    let netWmBypassCompositor :=
      getAtom x "_NET_WM_BYPASS_COMPOSITOR" false in
    let tr1 :=
      if negb (netWmBypassCompositor =? 0) then
        [XChangeProperty (m_window w) netWmBypassCompositor XA_CARDINAL 32
           PropModeReplace [1]]
      else [] in
    let netWmState := getAtom x "_NET_WM_STATE" true in
    let netWmStateFullscreen := getAtom x "_NET_WM_STATE_FULLSCREEN" true in
    if (netWmState =? 0) || (netWmStateFullscreen =? 0) then
      (map effect tr0 ++ tr1
       ++ [effect (err "Setting fullscreen failed. Could not get required atoms")],
       st)
    else
      (map effect tr0 ++ tr1
       ++ [effect (XSendEvent (DefaultRootWindow x) false
                     (Z.lor SubstructureNotifyMask SubstructureRedirectMask)
                     (fullscreenMessage netWmState netWmStateFullscreen w))]
       ++ (if XSendEvent_status x =? 0
           then [effect (err (quoting "Setting fullscreen failed, could not send "
                                    "_NET_WM_STATE" " event"))]
           else []),
       st)
  else (map effect tr0, st).

Definition isStateMessage (x : XServer) (o : Output) : bool :=
  match o with
  | effect (XSendEvent _ _ _ ev) =>
      xclient_message_type ev =? getAtom x "_NET_WM_STATE" true
  | _ => false
  end.

Definition isChangeProperty (o : Output) : bool :=
  match o with XChangeProperty _ _ _ _ _ _ => true | _ => false end.

Definition isPush (o : Output) : bool :=
  match o with push _ => true | _ => false end.

Definition isGrabOutput (o : Output) : bool :=
  match o with effect (XGrabPointer _) => true | _ => false end.

Definition isErrOutput (o : Output) : bool :=
  match o with effect (err _) => true | _ => false end.

End Requests.

(** ** [WindowImplX11::setIcon]: the three pixel buffers *)

Module Icon.

(** [v[i] = value]; writing past the end is not modelled, the vector is
    left as it is then. *)
Definition upd (i : nat) (value : Z) (v : list Z) : list Z :=
  match skipn i v with
  | [] => v
  | _ :: rest => firstn i v ++ value :: rest
  end.

Definition wrap_uchar (z : Z) : Z := z mod 2 ^ 8.

(** The first loop: [iconPixels] gets the pixels as BGRA.  [count] is what
    is left of [size.x * size.y], [i] the loop variable. *)
Fixpoint swapLoop (count i : nat) (pixels iconPixels : list Z) : list Z :=
  match count with
  | O => iconPixels
  | S count' =>
      let iconPixels := upd (i * 4 + 0) (nth (i * 4 + 2) pixels 0) iconPixels in
      let iconPixels := upd (i * 4 + 1) (nth (i * 4 + 1) pixels 0) iconPixels in
      let iconPixels := upd (i * 4 + 2) (nth (i * 4 + 0) pixels 0) iconPixels in
      let iconPixels := upd (i * 4 + 3) (nth (i * 4 + 3) pixels 0) iconPixels in
      swapLoop count' (S i) pixels iconPixels
  end.

(** [allocated] is the memory that [malloc] gives, [size.x * size.y * 4]
    bytes of any content. *)
Definition iconPixels (size : nat * nat) (pixels allocated : list Z)
    : list Z :=
  swapLoop (fst size * snd size) 0 pixels allocated.

(** [pitch = (size.x + 7) / 8], in [unsigned int] arithmetic. *)
Definition pitch (size : nat * nat) : nat :=
  Z.to_nat (wrap_uint (Z.of_nat (fst size) + 7) / 8).

(** The loop over [k], for the byte [i] of the row [j]. *)
Fixpoint maskBits (count k : nat) (size : nat * nat) (pixels : list Z)
    (i j : nat) (maskPixels : list Z) : list Z :=
  match count with
  | O => maskPixels
  | S count' =>
      let maskPixels :=
        if (i * 8 + k <? fst size)%nat then
          let opacity :=
            if 0 <? nth ((i * 8 + k + j * fst size) * 4 + 3) pixels 0
            then 1 else 0 in
          upd (i + j * pitch size)
              (Z.lor (nth (i + j * pitch size) maskPixels 0)
                     (wrap_uchar (Z.shiftl opacity (Z.of_nat k))))
              maskPixels
        else maskPixels in
      maskBits count' (S k) size pixels i j maskPixels
  end.

(** The loop over [i], for the row [j]. *)
Fixpoint maskRow (count i : nat) (size : nat * nat) (pixels : list Z)
    (j : nat) (maskPixels : list Z) : list Z :=
  match count with
  | O => maskPixels
  | S count' =>
      maskRow count' (S i) size pixels j
              (maskBits 8 0 size pixels i j maskPixels)
  end.

(** The loop over [j]. *)
Fixpoint maskRows (count j : nat) (size : nat * nat) (pixels : list Z)
    (maskPixels : list Z) : list Z :=
  match count with
  | O => maskPixels
  | S count' =>
      maskRows count' (S j) size pixels
               (maskRow (pitch size) 0 size pixels j maskPixels)
  end.

Definition maskPixels (size : nat * nat) (pixels : list Z) : list Z :=
  maskRows (snd size) 0 size pixels (repeat 0 (pitch size * snd size)).

(** One pixel of the [_NET_WM_ICON] property: the shifts and the ors are
    done on [int]s, the result is converted to [unsigned long]. *)
Definition icccmPixel (pixels : list Z) (i : nat) : Z :=
  wrap_ulong
    (Z.lor (Z.lor (Z.lor (to_int (Z.shiftl (nth (i * 4 + 2) pixels 0) 0))
                         (to_int (Z.shiftl (nth (i * 4 + 1) pixels 0) 8)))
                  (to_int (Z.shiftl (nth (i * 4 + 0) pixels 0) 16)))
           (to_int (Z.shiftl (nth (i * 4 + 3) pixels 0) 24))).

(** The loop that fills the property through [ptr]. *)
Fixpoint icccmLoop (count i ptr : nat) (pixels icccmIconPixels : list Z)
    : list Z :=
  match count with
  | O => icccmIconPixels
  | S count' =>
      icccmLoop count' (S i) (S ptr) pixels
                (upd ptr (icccmPixel pixels i) icccmIconPixels)
  end.

(** The vector has [2 + size.x * size.y] elements, computed on
    [unsigned int]s. *)
Definition icccmIconPixels (size : nat * nat) (pixels : list Z) : list Z :=
  let v :=
    repeat 0 (Z.to_nat (wrap_uint (2 + Z.of_nat (fst size)
                                       * Z.of_nat (snd size)))) in
  let v := upd 0 (Z.of_nat (fst size)) v in
  let v := upd 1 (Z.of_nat (snd size)) v in
  icccmLoop (fst size * snd size) 0 2 pixels v.

(** The pixel ([px], [py]) is not fully transparent. *)
Definition opaque (size : nat * nat) (pixels : list Z) (px py : nat) : bool :=
  0 <? nth ((px + py * fst size) * 4 + 3) pixels 0.

Definition isByte (z : Z) : Prop := 0 <= z < 256.

End Icon.

(** ** [NetworkAudioStream]: a sound stream fed from the network *)

Module NetworkAudioStream.

Definition serverAudioData : Z := 1.
Definition serverEndOfStream : Z := 2.

(** An [sf::Int16] as [std::memcpy] sees it: its two bytes, in the order
    they have in memory. *)
Definition Int16 : Type := (Z * Z)%type.

Definition sizeofInt16 : Z := 2.

(** A packet: the bytes of [getData()]. *)
Definition Packet : Type := list Z.

(** What [m_client.receive(packet)] gives: a packet with the status
    [sf::Socket::Done], or another status. *)
Inductive Received :=
| Done (packet : Packet)
| NotDone.

Record Stream := {
  m_samples : list Int16;
  m_tempBuffer : list Int16;
  m_offset : Z;
  m_hasFinished : bool
}.

(** The constructor. *)
Definition create : Stream :=
  {| m_samples := []; m_tempBuffer := []; m_offset := 0;
     m_hasFinished := false |}.

Definition with_samples (samples : list Int16) (s : Stream) : Stream :=
  {| m_samples := samples; m_tempBuffer := m_tempBuffer s;
     m_offset := m_offset s; m_hasFinished := m_hasFinished s |}.

Definition with_offset (offset : Z) (s : Stream) : Stream :=
  {| m_samples := m_samples s; m_tempBuffer := m_tempBuffer s;
     m_offset := offset; m_hasFinished := m_hasFinished s |}.

Definition finish (s : Stream) : Stream :=
  {| m_samples := m_samples s; m_tempBuffer := m_tempBuffer s;
     m_offset := m_offset s; m_hasFinished := true |}.

(** [std::vector::resize]: new samples are zero. *)
Definition resize (n : nat) (v : list Int16) : list Int16 :=
  firstn n v ++ repeat (0, 0) (n - length v).

(** [count] samples taken from [bytes]. *)
Fixpoint fromBytes (count : nat) (bytes : list Z) : list Int16 :=
  match count, bytes with
  | S count', low :: high :: rest => (low, high) :: fromBytes count' rest
  | _, _ => []
  end.

(** [std::memcpy(&v[position], bytes, byteCount)], for a [byteCount] that
    is a multiple of [sizeof(sf::Int16)]. *)
Definition memcpy (position : nat) (bytes : list Z) (byteCount : Z)
    (v : list Int16) : list Int16 :=
  let count := Z.to_nat (byteCount / sizeofInt16) in
  firstn position v ++ fromBytes count bytes ++ skipn (position + count) v.

(** The body of the loop of [receiveLoop] after a packet has been
    received: the stream and what is printed.  Taking the id out of an
    empty packet leaves [id] without a value: that case has no result. *)
Definition receivePacket (packet : Packet) (s : Stream)
    : option (Stream * list string) :=
  match packet with
  | [] => None
  | id :: payload =>
      if id =? serverAudioData then
        let sampleCount :=
          wrap_ulong (Z.of_nat (length packet) - 1) / sizeofInt16 in
        let oldSize := Z.of_nat (length (m_samples s)) in
        let resized :=
          resize (Z.to_nat (wrap_ulong (oldSize + sampleCount)))
                 (m_samples s) in
        Some (with_samples
                (memcpy (Z.to_nat oldSize) payload
                        (wrap_ulong (sampleCount * sizeofInt16)) resized) s,
              [])
      else if id =? serverEndOfStream then
        Some (finish s, ["Audio data has been 100% received!"])
      else
        Some (finish s, ["Invalid packet received..."])
  end.

(** [receiveLoop], over what the successive calls of [receive] give; the
    result holds what was not consumed.  When [network] is empty the loop
    is blocked in [receive]. *)
Fixpoint receiveLoop (network : list Received) (s : Stream)
    : option (Stream * list string * list Received) :=
  if m_hasFinished s then Some (s, [], network)
  else
    match network with
    | [] => Some (s, [], [])
    | NotDone :: rest => Some (s, [], rest)
    | Done packet :: rest =>
        match receivePacket packet s with
        | None => None
        | Some (s', out) =>
            match receiveLoop rest s' with
            | None => None
            | Some (s'', out', rest') => Some (s'', out ++ out', rest')
            end
        end
    end.

(** What the audio thread gets from [onGetData]: [false], [true] with the
    data, or nothing yet, when it sleeps in the loop that waits for new
    data. *)
Inductive Result :=
| Stopped
| Sleeping
| Playing (data : list Int16).

(** The end of [onGetData]: the copy to [m_tempBuffer] and the update of
    [m_offset].  [m_samples.begin() + m_offset] has no meaning past the end
    of the vector. *)
Definition copy (s : Stream) : option (Result * Stream) :=
  if m_offset s <=? Z.of_nat (length (m_samples s)) then
    let tempBuffer := skipn (Z.to_nat (m_offset s)) (m_samples s) in
    Some (Playing tempBuffer,
          {| m_samples := m_samples s;
             m_tempBuffer := tempBuffer;
             m_offset :=
               wrap_ulong (m_offset s + Z.of_nat (length tempBuffer));
             m_hasFinished := m_hasFinished s |})
  else None.

(** [onGetData], run until it returns or sleeps.  [inLoop] tells that the
    thread comes back from a sleep of the waiting loop, and so tests the
    condition of that loop, not the first test of the function. *)
Definition onGetData (inLoop : bool) (s : Stream) : option (Result * Stream) :=
  let atEnd := Z.of_nat (length (m_samples s)) <=? m_offset s in
  if negb inLoop && (atEnd && m_hasFinished s) then Some (Stopped, s)
  else if atEnd && negb (m_hasFinished s) then Some (Sleeping, s)
  else copy s.

(** [onSeek]; [timeOffset] is [timeOffset.asMilliseconds()], an [Int32],
    [sampleRate] and [channelCount] are what [getSampleRate()] and
    [getChannelCount()] give. *)
Definition onSeek (sampleRate channelCount timeOffset : Z) (s : Stream)
    : Stream :=
  with_offset
    (wrap_ulong (wrap_ulong (wrap_ulong timeOffset * sampleRate)
                 * channelCount) / 1000) s.

(** The two threads.  The receiving thread is in [receiveLoop] until the
    loop ends; the audio thread calls [onGetData] again and again.  A
    step of a thread is taken as a whole: the mutex makes it so for the
    append and the copy, the tests of the two loops are taken to be so. *)
Record Threads := {
  stream : Stream;
  receiving : bool;
  inLoop : bool;
  played : list (list Int16);
  stopped : bool
}.

Definition started : Threads :=
  {| stream := create; receiving := true; inLoop := false; played := [];
     stopped := false |}.

(** One step of a thread: the receiving thread gets the next answer of
    [receive] and runs the body of its loop, or the audio thread runs
    [onGetData] up to its next sleep or return. *)
Inductive Action :=
| Receive (r : Received)
| GetData.

Definition step (a : Action) (t : Threads) : option Threads :=
  match a with
  | Receive r =>
      if receiving t && negb (m_hasFinished (stream t)) then
        match r with
        | NotDone =>
            Some {| stream := stream t; receiving := false;
                    inLoop := inLoop t; played := played t;
                    stopped := stopped t |}
        | Done packet =>
            match receivePacket packet (stream t) with
            | None => None
            | Some (s', _) =>
                Some {| stream := s'; receiving := true;
                        inLoop := inLoop t; played := played t;
                        stopped := stopped t |}
            end
        end
      else Some t
  | GetData =>
      match onGetData (inLoop t) (stream t) with
      | None => None
      | Some (Stopped, s') =>
          Some {| stream := s'; receiving := receiving t; inLoop := false;
                  played := played t; stopped := true |}
      | Some (Sleeping, s') =>
          Some {| stream := s'; receiving := receiving t; inLoop := true;
                  played := played t; stopped := stopped t |}
      | Some (Playing data, s') =>
          Some {| stream := s'; receiving := receiving t; inLoop := false;
                  played := played t ++ [data]; stopped := stopped t |}
      end
  end.

Fixpoint run (schedule : list Action) (t : Threads) : option Threads :=
  match schedule with
  | [] => Some t
  | a :: rest =>
      match step a t with
      | None => None
      | Some t' => run rest t'
      end
  end.

(** The answers of [receive] in a schedule. *)
Fixpoint receives (schedule : list Action) : list Received :=
  match schedule with
  | [] => []
  | Receive r :: rest => r :: receives rest
  | GetData :: rest => receives rest
  end.

(** The samples that a packet of audio data carries. *)
Definition isAudio (packet : Packet) : bool :=
  match packet with
  | id :: _ => id =? serverAudioData
  | [] => false
  end.

Definition samplesOf (packet : Packet) : list Int16 :=
  fromBytes (Nat.div (length packet - 1) 2) (tl packet).

Fixpoint toBytes (samples : list Int16) : list Z :=
  match samples with
  | [] => []
  | (low, high) :: rest => low :: high :: toBytes rest
  end.

Definition notEmpty (r : Received) : Prop :=
  match r with
  | Done packet => packet <> []
  | NotDone => True
  end.

Fixpoint byteCount (network : list Received) : Z :=
  match network with
  | [] => 0
  | Done packet :: rest => Z.of_nat (length packet) + byteCount rest
  | NotDone :: rest => byteCount rest
  end.

(** Two streams that the receiving thread cannot tell apart: it reads
    only the samples and the flag. *)
Definition sameData (s1 s2 : Stream) : Prop :=
  m_samples s1 = m_samples s2 /\ m_hasFinished s1 = m_hasFinished s2.

(** What holds between two steps of the threads: the offset lies in the
    samples, what was played is what lies before it, and after the end of
    the playback nothing is left. *)
Definition consistent (t : Threads) : Prop :=
  0 <= m_offset (stream t) <= Z.of_nat (length (m_samples (stream t)))
  /\ concat (played t)
     = firstn (Z.to_nat (m_offset (stream t))) (m_samples (stream t))
  /\ (stopped t = true ->
      m_hasFinished (stream t) = true
      /\ inLoop t = false
      /\ m_offset (stream t) = Z.of_nat (length (m_samples (stream t)))).

End NetworkAudioStream.

(** ** [ComplexText]: the lines and the glyph of a character *)

Module ComplexText.

(** [' '] or ['\t'] *)
Definition isBlank (c : Z) : bool := (c =? 32) || (c =? 9).

(** ['\n'] or ['\v'] *)
Definition isLineBreak (c : Z) : bool := (c =? 10) || (c =? 11).

(** [m_string[i]], and [m_string.getData()[i]]: the data end with a null
    character. *)
Definition at_ (m_string : list Z) (i : nat) : Z := nth i m_string 0.

(** [hb_glyph_position_t] *)
Record GlyphPosition := {
  x_advance : Z;
  y_advance : Z;
  x_offset : Z;
  y_offset : Z
}.

(** The first loop of [findCharacterPos]; [count] is what is left of
    [index], [i] the loop variable. *)
Fixpoint scan (count : nat) (i : Z) (m_string : list Z)
    (lastLineStart skippedGlyphs : Z) : Z * Z :=
  match count with
  | O => (lastLineStart, skippedGlyphs)
  | S count' =>
      let curChar := at_ m_string (Z.to_nat i) in
      if isBlank curChar then
        scan count' (wrap_ulong (i + 1)) m_string lastLineStart
             (wrap_ulong (skippedGlyphs + 1))
      else if isLineBreak curChar then
        scan count' (wrap_ulong (i + 1)) m_string (wrap_ulong (i + 1)) 0
      else
        scan count' (wrap_ulong (i + 1)) m_string lastLineStart
             skippedGlyphs
  end.

(** What [findCharacterPos] computes before it reads the glyphs: the start
    and the length of the text it gives to harfbuzz (the length is
    converted to [int]), and the index of the glyph. *)
Record Query := {
  lineStart : Z;
  lineLength : Z;
  glyphIndex : Z
}.

Definition query (m_string : list Z) (index : Z) : Query :=
  let size := Z.of_nat (length m_string) in
  let index := if size <? index then size else index in
  let '(lastLineStart, skippedGlyphs) :=
    scan (Z.to_nat index) 0 m_string 0 0 in
  {| lineStart := lastLineStart;
     lineLength := to_int (wrap_ulong (index - lastLineStart));
     glyphIndex :=
       wrap_ulong (wrap_ulong (index - lastLineStart) - skippedGlyphs) |}.

(** The text between two positions. *)
Definition segment (m_string : list Z) (start length : nat) : list Z :=
  firstn length (skipn start m_string).

(** [glyph_pos[i]]: nothing outside the [glyph_count] elements. *)
Definition glyphAt (glyph_pos : list GlyphPosition) (i : Z)
    : option GlyphPosition :=
  if (0 <=? i) && (i <? Z.of_nat (length glyph_pos))
  then nth_error glyph_pos (Z.to_nat i) else None.

(** The second loop of [findCharacterPos]: the glyphs whose advances are
    added to the position. *)
Fixpoint advances (count : nat) (i : Z) (glyph_pos : list GlyphPosition)
    : option (list GlyphPosition) :=
  match count with
  | O => Some []
  | S count' =>
      match glyphAt glyph_pos i with
      | None => None
      | Some curGlyphPos =>
          match advances count' (wrap_ulong (i + 1)) glyph_pos with
          | None => None
          | Some rest => Some (curGlyphPos :: rest)
          end
      end
  end.

(** [findCharacterPos], for a text with a font.  [shape] is harfbuzz: it
    gives the glyph positions of a text.  The position that the function
    returns is the sum of the advances of [added], each shifted right by
    6, and of the offsets of [last], transformed to global coordinates;
    the model gives the glyphs that enter it, and nothing when the
    function reads outside the glyphs. *)
Record Glyphs := {
  added : list GlyphPosition;
  last : GlyphPosition
}.

Definition findCharacterPos (shape : list Z -> list GlyphPosition)
    (m_string : list Z) (index : Z) : option Glyphs :=
  let q := query m_string index in
  let glyph_pos :=
    shape (segment m_string (Z.to_nat (lineStart q))
                   (Z.to_nat (lineLength q))) in
  let glyph_count := Z.of_nat (length glyph_pos) in
  let glyphIndex :=
    if glyph_count <? glyphIndex q then glyphIndex q else glyphIndex q in
  match advances (Z.to_nat glyphIndex) 0 glyph_pos with
  | None => None
  | Some added_ =>
      match glyphAt glyph_pos (wrap_ulong (glyphIndex - 1)) with
      | None => None
      | Some curGlyphPos => Some {| added := added_; last := curGlyphPos |}
      end
  end.

(** A line of [updateGeometry]: the text given to harfbuzz, from
    [line_start] to [line_end], and the character at [line_end]. *)
Record Line := {
  line_start : nat;
  line_end : nat;
  terminator : Z
}.

(** The loop that finds the end of the line. *)
Fixpoint findLineEnd (fuel : nat) (data : list Z) (line_end : nat)
    : option nat :=
  match fuel with
  | O => None
  | S fuel' =>
      let c := at_ data line_end in
      if negb (c =? 10) && negb (c =? 11) && negb (c =? 0)
      then findLineEnd fuel' data (S line_end)
      else Some line_end
  end.

(** The loop over the lines. *)
Fixpoint lineLoop (bound fuel : nat) (data : list Z) (line_start : nat)
    : option (list Line) :=
  match fuel with
  | O => None
  | S fuel' =>
      match findLineEnd bound data line_start with
      | None => None
      | Some line_end =>
          let line := {| line_start := line_start; line_end := line_end;
                         terminator := at_ data line_end |} in
          if at_ data line_end =? 0 then Some [line]
          else
            match lineLoop bound fuel' data (S line_end) with
            | None => None
            | Some rest => Some (line :: rest)
            end
      end
  end.

(** The lines that [updateGeometry] shapes, for a text with a font; an
    empty string has none. *)
Definition updateGeometry (fuel : nat) (m_string : list Z)
    : option (list Line) :=
  match m_string with
  | [] => Some []
  | _ :: _ => lineLoop fuel fuel m_string 0
  end.

Definition text (m_string : list Z) (line : Line) : list Z :=
  segment m_string (line_start line) (line_end line - line_start line).

(** The characters before the first null character. *)
Fixpoint beforeNull (data : list Z) : list Z :=
  match data with
  | [] => []
  | c :: rest => if c =? 0 then [] else c :: beforeNull rest
  end.

Definition endsLine (c : Z) : bool := (c =? 10) || (c =? 11) || (c =? 0).

(** Lines that follow one another from [start]: each starts after the
    line break that ends the one before, and the last one ends at a null
    character. *)
Fixpoint chained (start : nat) (lines : list Line) : Prop :=
  match lines with
  | [] => False
  | line :: rest =>
      line_start line = start
      /\ match rest with
         | [] => terminator line = 0
         | _ :: _ =>
             isLineBreak (terminator line) = true
             /\ chained (S (line_end line)) rest
         end
  end.

(** What the first loop of [findCharacterPos] keeps, when [i] is [n]. *)
Definition scanned (s : list Z) (n lastLineStart skippedGlyphs : nat)
    : Prop :=
  (lastLineStart <= n)%nat
  /\ skippedGlyphs
     = length (filter isBlank (segment s lastLineStart (n - lastLineStart)))
  /\ existsb isLineBreak (segment s lastLineStart (n - lastLineStart)) = false
  /\ (lastLineStart = 0%nat
      \/ isLineBreak (at_ s (lastLineStart - 1)) = true).

End ComplexText.

(** ** [findExecutableName] *)

Module ExecutableName.

(** The name that is used when the command line cannot be read. *)
Definition sfml : list Z := [115; 102; 109; 108].

(** [read(file, &buffer[position], 256)] that stores [chunk]. *)
Definition store (position : nat) (chunk buffer : list Z) : list Z :=
  firstn position buffer ++ chunk
  ++ skipn (position + length chunk) buffer.

(** [std::vector::resize(n, 0)] *)
Definition resize (n : nat) (v : list Z) : list Z :=
  firstn n v ++ repeat 0 (n - length v).

(** The loop that reads the file.  [reads] holds what the successive calls
    of [read] store; an empty element is a result that is not positive,
    and so is the end of the list.  A call whose 256 bytes do not lie in
    the buffer has no result. *)
Fixpoint readLoop (reads : list (list Z)) (offset : Z) (buffer : list Z)
    : option (Z * list Z) :=
  match reads with
  | [] => Some (offset, buffer)
  | [] :: _ => Some (offset, buffer)
  | chunk :: rest =>
      if offset + 256 <=? Z.of_nat (length buffer) then
        let result := Z.of_nat (length chunk) in
        let buffer := store (Z.to_nat offset) chunk buffer in
        let buffer :=
          resize (Z.to_nat (wrap_ulong (Z.of_nat (length buffer) + result)))
                 buffer in
        readLoop rest (wrap_ulong (offset + result)) buffer
      else None
  end.

(** The string that a [char*] points to. *)
Fixpoint cString (data : list Z) : list Z :=
  match data with
  | [] => []
  | c :: rest => if c =? 0 then [] else c :: cString rest
  end.

(** [findExecutableName]; [file] is what [/proc/self/cmdline] gives when
    it can be opened, [basename] the function of the C library. *)
Definition findExecutableName (basename : list Z -> list Z)
    (file : option (list (list Z))) : option (list Z) :=
  match file with
  | None => Some sfml
  | Some reads =>
      match readLoop reads 0 (repeat 0 256) with
      | None => None
      | Some (offset, buffer) =>
          if negb (offset =? 0) then
            if offset <? Z.of_nat (length buffer) then
              Some (basename
                      (cString (Icon.upd (Z.to_nat offset) 0 buffer)))
            else None
          else Some sfml
      end
  end.

(** What the file holds up to the first result that is not positive. *)
Fixpoint content (reads : list (list Z)) : list Z :=
  match reads with
  | [] => []
  | [] :: _ => []
  | chunk :: rest => chunk ++ content rest
  end.

End ExecutableName.

(** ** Further sample inputs *)

Module MoreSamples.

Import EventQueue VideoModeSwitch EWMH Requests Samples.

(** The close request of window 9. *)
Definition otherClose : XEvent :=
  {| ev_type := ClientMessage; ev_window := 9; ev_keycode := 0;
     ev_time := 0; ev_message_type := wmProtocolsAtom |}.

(** The sample server after the switch to mode 72, with its crtc at the
    right of a first monitor. *)
Definition switchedXRandR : XRandR :=
  {| XQueryExtension_RANDR := true;
     XRRGetScreenResources := Some sampleResources;
     XRRGetOutputPrimary := 66;
     XRRGetOutputInfo := fun _ =>
       Some {| output_crtc := 63; output_connection := RR_Connected |};
     XRRGetCrtcInfo := fun _ =>
       Some {| crtc_x := 1920; crtc_y := 0; crtc_mode := 72;
               crtc_rotation := RR_Rotate_0 |};
     XRRSetCrtcConfig_status := RRSetConfigSuccess |}.

Definition moreAtoms : list (string * Atom) :=
  sampleAtoms
  ++ [("_NET_WM_PING", 601); ("_NET_WM_PID", 602); ("_NET_WM_STATE", 603);
      ("_NET_WM_STATE_FULLSCREEN", 604); ("_NET_WM_USER_TIME", 605)].

(** The sample server with the atoms of the EWMH protocols; the hints of
    every window have the flags [hints]. *)
Definition ewmhServer (hints : Z) : XServer :=
  let s := sampleServer "i3" true [] in
  {| getAtom := fun name _ => lookupAtom moreAtoms name;
     DefaultRootWindow := DefaultRootWindow s;
     XGetWindowProperty := XGetWindowProperty s;
     XQueryTree_parent := XQueryTree_parent s;
     XTranslateCoordinates := XTranslateCoordinates s;
     XGetGeometry := XGetGeometry s;
     XGetInputFocus := XGetInputFocus s;
     XGetWindowAttributes := XGetWindowAttributes s;
     XGetWMHints := fun _ => Some hints;
     XSendEvent_status := XSendEvent_status s |}.

Definition sampleMembers : Members :=
  {| impl := sampleWindow; m_previousSize := (640, 480);
     m_windowMapped := true; m_useSizeHints := false;
     m_inputContext := true |}.

Definition grabbedMembers : Members :=
  with_impl (set_cursorGrabbed true sampleWindow) sampleMembers.

Definition fixedMembers : Members :=
  {| impl := sampleWindow; m_previousSize := (640, 480);
     m_windowMapped := true; m_useSizeHints := true;
     m_inputContext := true |}.

(** An icon of 2 x 1 pixels: opaque red, transparent blue. *)
Definition samplePixels : list Z := [255; 0; 0; 255; 0; 0; 255; 0].

(** What a client sends: two samples, the end of the stream, and a packet
    that comes too late. *)
Definition sampleNetwork : list NetworkAudioStream.Received :=
  [NetworkAudioStream.Done [1; 10; 20; 30; 40; 50];
   NetworkAudioStream.Done [2];
   NetworkAudioStream.Done [1; 1; 1]].

(** The audio thread asks for data before and after each packet. *)
Definition sampleSchedule : list NetworkAudioStream.Action :=
  [NetworkAudioStream.GetData;
   NetworkAudioStream.Receive (NetworkAudioStream.Done [1; 10; 20; 30; 40]);
   NetworkAudioStream.GetData;
   NetworkAudioStream.Receive (NetworkAudioStream.Done [2]);
   NetworkAudioStream.GetData].

(** A stream of three samples that has been played to its end. *)
Definition playedStream : NetworkAudioStream.Stream :=
  {| NetworkAudioStream.m_samples := [(1, 0); (2, 0); (3, 0)];
     NetworkAudioStream.m_tempBuffer := [];
     NetworkAudioStream.m_offset := 3;
     NetworkAudioStream.m_hasFinished := true |}.

(** The text of two lines [ab] and [c d]. *)
Definition sampleText : list Z := [97; 98; 10; 99; 32; 100].

Definition sampleLines : list ComplexText.Line :=
  [{| ComplexText.line_start := 0; ComplexText.line_end := 2;
      ComplexText.terminator := 10 |};
   {| ComplexText.line_start := 3; ComplexText.line_end := 6;
      ComplexText.terminator := 0 |}].

(** A shaper that gives one glyph of 10 pixels for every character that
    is not a space or a tab. *)
Definition sampleShape (line : list Z) : list ComplexText.GlyphPosition :=
  map (fun _ => {| ComplexText.x_advance := 640; ComplexText.y_advance := 0;
                   ComplexText.x_offset := 0; ComplexText.y_offset := 0 |})
      (filter (fun c => negb (ComplexText.isBlank c)) line).

(** The command line [/usr/bin/a -v], read in three pieces. *)
Definition sampleReads : list (list Z) :=
  [[47; 117; 115; 114]; [47; 98; 105; 110; 47; 97; 0]; [45; 118; 0]].

(** What follows the last [/] of a path. *)
Fixpoint afterSlash (path : list Z) : list Z :=
  match path with
  | [] => []
  | c :: rest =>
      if existsb (Z.eqb 47) rest then afterSlash rest
      else if c =? 47 then rest else path
  end.

End MoreSamples.

(** * Properties *)

(** ** Integer conversions *)

Lemma to_int_id z : - 2 ^ 31 <= z < 2 ^ 31 -> to_int z = z.
Proof.
  intros Hz. unfold to_int. rewrite Z.mod_small; lia.
Qed.

Lemma wrap_uint_le z : 0 <= z -> 0 <= wrap_uint z <= z.
Proof.
  intros Hz. unfold wrap_uint. split.
  - apply Z.mod_pos_bound. lia.
  - apply Z.mod_le; lia.
Qed.

Lemma wrap_ulong_small z : 0 <= z < 2 ^ 64 -> wrap_ulong z = z.
Proof.
  intros Hz. unfold wrap_ulong. apply Z.mod_small. exact Hz.
Qed.

(** ** The UIKit monitor *)

Section MonitorUIKitFacts.

Import MonitorUIKit.

(** C9: [getFullscreenModes] returns exactly two modes, the desktop mode
    first and then the mode with the width and the height of the desktop
    mode exchanged, at the same bits per pixel. *)
Theorem getFullscreenModes_desktop_then_transposed (desktop : VideoMode) :
  length (getFullscreenModes desktop) = 2%nat
  /\ nth_error (getFullscreenModes desktop) 0 = Some desktop
  /\ nth_error (getFullscreenModes desktop) 1
     = Some {| size_x := size_y desktop; size_y := size_x desktop;
               bitsPerPixel := bitsPerPixel desktop |}.
Proof.
  unfold getFullscreenModes. repeat split.
Qed.

End MonitorUIKitFacts.

(** ** Grabbing the mouse cursor *)

Section CursorGrabFacts.

Import CursorGrab.

Variable grabPointer : nat -> Z.

Lemma grabCount_cons_grab win tr :
  grabCount (XGrabPointer win :: sleep 50 :: tr) = S (grabCount tr).
Proof. reflexivity. Qed.

Lemma grabCount_app_err tr msg : grabCount (tr ++ [err msg]) = grabCount tr.
Proof.
  unfold grabCount. rewrite filter_app. simpl. rewrite app_nil_r. reflexivity.
Qed.

(** Every trial fails: nothing is written, [remaining] grabs are tried. *)
Lemma grabTrials_all_fail remaining : forall trial w,
  (forall k, (k < remaining)%nat -> grabPointer (trial + k) <> GrabSuccess) ->
  exists tr, grabTrials grabPointer remaining trial w = (w, tr)
             /\ grabCount tr = remaining.
Proof.
  induction remaining as [|n IH]; intros trial w Hfail; simpl.
  - exists []. split; reflexivity.
  - assert (H0 : grabPointer trial <> GrabSuccess).
    { specialize (Hfail 0%nat). rewrite Nat.add_0_r in Hfail.
      apply Hfail. lia. }
    apply Z.eqb_neq in H0. rewrite H0.
    destruct (IH (S trial) w) as [tr [E C]].
    { intros k Hk. replace (S trial + k)%nat with (trial + S k)%nat by lia.
      apply Hfail. lia. }
    rewrite E. eexists. split; [reflexivity|].
    rewrite grabCount_cons_grab. congruence.
Qed.

(** The first success is at trial [k]: the flag is set, [k + 1] grabs are
    tried. *)
Lemma grabTrials_first_success remaining : forall trial w k,
  (k < remaining)%nat ->
  grabPointer (trial + k) = GrabSuccess ->
  (forall j, (j < k)%nat -> grabPointer (trial + j) <> GrabSuccess) ->
  exists tr, grabTrials grabPointer remaining trial w
             = (set_cursorGrabbed true w, tr)
             /\ grabCount tr = S k.
Proof.
  induction remaining as [|n IH]; intros trial w k Hk Hok Hbefore.
  - lia.
  - simpl. destruct k as [|k].
    + rewrite Nat.add_0_r in Hok. rewrite Hok. simpl.
      eexists. split; reflexivity.
    + assert (H0 : grabPointer trial <> GrabSuccess).
      { specialize (Hbefore 0%nat). rewrite Nat.add_0_r in Hbefore.
        apply Hbefore. lia. }
      apply Z.eqb_neq in H0. rewrite H0.
      destruct (IH (S trial) w k) as [tr [E C]].
      * lia.
      * replace (S trial + k)%nat with (trial + S k)%nat by lia. exact Hok.
      * intros j Hj.
        replace (S trial + j)%nat with (trial + S j)%nat by lia.
        apply Hbefore. lia.
      * rewrite E. eexists. split; [reflexivity|].
        rewrite grabCount_cons_grab. congruence.
Qed.

Lemma grabTrials_count remaining : forall trial w,
  (grabCount (snd (grabTrials grabPointer remaining trial w))
   <= remaining)%nat.
Proof.
  induction remaining as [|n IH]; intros trial w; simpl.
  - apply Nat.le_refl.
  - destruct (grabPointer trial =? GrabSuccess).
    + simpl. unfold grabCount. simpl. lia.
    + specialize (IH (S trial) w).
      destruct (grabTrials grabPointer n (S trial) w) as [w' tr].
      simpl in *. rewrite grabCount_cons_grab. lia.
Qed.

Lemma grabTrials_no_ungrab remaining : forall trial w,
  filter isUngrab (snd (grabTrials grabPointer remaining trial w)) = [].
Proof.
  induction remaining as [|n IH]; intros trial w; simpl; [reflexivity|].
  destruct (grabPointer trial =? GrabSuccess); [reflexivity|].
  specialize (IH (S trial) w).
  destruct (grabTrials grabPointer n (S trial) w). simpl in *. exact IH.
Qed.

Lemma setMouseCursorGrabbed_grab w :
  m_fullscreen w = false -> m_cursorGrabbed w = false ->
  setMouseCursorGrabbed grabPointer true w
  = let '(w', tr) := grabTrials grabPointer maxTrialsCount 0 w in
    if negb (m_cursorGrabbed w')
    then (w', tr ++ [err "Failed to grab mouse cursor"]) else (w', tr).
Proof.
  intros Hf Hg. unfold setMouseCursorGrabbed. rewrite Hf, Hg. reflexivity.
Qed.

(** C10: [setMouseCursorGrabbed] changes nothing in fullscreen mode or
    when the requested state is the current one; when grabbing it tries
    [XGrabPointer] at most 5 times, sets the flag at the first success and
    leaves it false when the 5 trials fail; when releasing it ungrabs the
    pointer and clears the flag. *)
Theorem setMouseCursorGrabbed_cases (grabbed : bool) (w w' : WindowImplX11)
    (tr : list Effect) :
  setMouseCursorGrabbed grabPointer grabbed w = (w', tr) ->
  (m_fullscreen w = true \/ m_cursorGrabbed w = grabbed ->
     w' = w /\ tr = [])
  /\ (m_fullscreen w = false -> m_cursorGrabbed w = false ->
      grabbed = true ->
        (grabCount tr <= maxTrialsCount)%nat
        /\ filter isUngrab tr = []
        /\ (forall k, (k < maxTrialsCount)%nat ->
              grabPointer k = GrabSuccess ->
              (forall j, (j < k)%nat -> grabPointer j <> GrabSuccess) ->
              w' = set_cursorGrabbed true w /\ grabCount tr = S k
              /\ m_cursorGrabbed w' = true
              /\ otherMembers w' = otherMembers w)
        /\ ((forall k, (k < maxTrialsCount)%nat ->
               grabPointer k <> GrabSuccess) ->
            w' = w /\ grabCount tr = maxTrialsCount
            /\ m_cursorGrabbed w' = false))
  /\ (m_fullscreen w = false -> m_cursorGrabbed w = true ->
      grabbed = false ->
        w' = set_cursorGrabbed false w /\ tr = [XUngrabPointer]
        /\ m_cursorGrabbed w' = false
        /\ otherMembers w' = otherMembers w).
Proof.
  intros Hrun. split; [|split].
  - intros Hsame. unfold setMouseCursorGrabbed in Hrun.
    assert (Hguard : m_fullscreen w || Bool.eqb (m_cursorGrabbed w) grabbed
                     = true).
    { destruct Hsame as [Hf | Hg].
      - rewrite Hf. reflexivity.
      - rewrite Hg, Bool.eqb_reflx. apply orb_true_r. }
    rewrite Hguard in Hrun. inversion Hrun. split; reflexivity.
  - intros Hf Hg Hb. subst grabbed.
    rewrite (setMouseCursorGrabbed_grab w Hf Hg) in Hrun.
    pose proof (grabTrials_count maxTrialsCount 0 w) as Hcount.
    pose proof (grabTrials_no_ungrab maxTrialsCount 0 w) as Hung.
    split; [|split; [|split]].
    + destruct (grabTrials grabPointer maxTrialsCount 0 w) as [w1 tr1].
      cbn [snd] in Hcount.
      destruct (negb (m_cursorGrabbed w1)); inversion Hrun; subst;
        rewrite ?grabCount_app_err; exact Hcount.
    + destruct (grabTrials grabPointer maxTrialsCount 0 w) as [w1 tr1].
      cbn [snd] in Hung.
      destruct (negb (m_cursorGrabbed w1)); inversion Hrun; subst;
        rewrite ?filter_app, ?Hung; reflexivity.
    + intros k Hk Hok Hbefore.
      destruct (grabTrials_first_success maxTrialsCount 0 w k Hk Hok Hbefore)
        as [tr1 [E C]].
      rewrite E in Hrun. cbn in Hrun. inversion Hrun; subst.
      split; [reflexivity|]. split; [exact C|]. split; reflexivity.
    + intros Hfail.
      destruct (grabTrials_all_fail maxTrialsCount 0 w Hfail) as [tr1 [E C]].
      rewrite E, Hg in Hrun. cbn in Hrun. inversion Hrun; subst.
      split; [reflexivity|]. rewrite grabCount_app_err.
      split; [exact C | exact Hg].
  - intros Hf Hg Hb. subst grabbed. unfold setMouseCursorGrabbed in Hrun.
    rewrite Hf, Hg in Hrun. cbn in Hrun. inversion Hrun.
    repeat split; reflexivity.
Qed.

End CursorGrabFacts.

(** ** The event queue and key repeat *)

Section EventQueueFacts.

Import EventQueue.

Variable predicate : XEvent -> bool.

Let rejected (e : XEvent) : bool := negb (predicate e).

Lemma XCheckIfEvent_none queue :
  XCheckIfEvent predicate queue = None ->
  filter predicate queue = [] /\ filter rejected queue = queue.
Proof.
  induction queue as [|e rest IH]; simpl; intros Hnone.
  - split; reflexivity.
  - unfold rejected at 1. destruct (predicate e); [discriminate|].
    destruct (XCheckIfEvent predicate rest) as [[found rest']|];
      [discriminate|].
    destruct (IH eq_refl) as [IH1 IH2]. simpl. split; congruence.
Qed.

Lemma XCheckIfEvent_some queue : forall found queue',
  XCheckIfEvent predicate queue = Some (found, queue') ->
  filter predicate queue = found :: filter predicate queue'
  /\ filter rejected queue' = filter rejected queue
  /\ length queue = S (length queue').
Proof.
  induction queue as [|e rest IH]; simpl; intros found queue' Hsome.
  - discriminate.
  - unfold rejected at 2. destruct (predicate e) eqn:He.
    + inversion Hsome; subst. simpl. repeat split; reflexivity.
    + destruct (XCheckIfEvent predicate rest) as [[f r]|]; [|discriminate].
      inversion Hsome; subst.
      destruct (IH found r eq_refl) as [IH1 [IH2 IH3]].
      simpl. unfold rejected at 1. rewrite He. simpl.
      repeat split; congruence.
Qed.

Lemma XCheckIfEvent_Forall (P : XEvent -> Prop) queue : forall found queue',
  Forall P queue ->
  XCheckIfEvent predicate queue = Some (found, queue') ->
  P found /\ Forall P queue'.
Proof.
  induction queue as [|e rest IH]; simpl; intros found queue' Hall Hsome.
  - discriminate.
  - inversion Hall as [|? ? He Hrest]; subst.
    destruct (predicate e).
    + inversion Hsome; subst. split; assumption.
    + destruct (XCheckIfEvent predicate rest) as [[f r]|]; [|discriminate].
      inversion Hsome; subst.
      destruct (IH found r Hrest eq_refl) as [Hf Hr].
      split; [assumption | constructor; assumption].
Qed.

(** The test of the loop is the pair of the statement on X timestamps. *)
Lemma isRepeat_pair event nextEvent :
  validTime event ->
  ev_type event = KeyRelease ->
  isRepeat event nextEvent = isKeyRepeatPair event nextEvent.
Proof.
  unfold validTime, isRepeat, isKeyRepeatPair. intros Ht Hty.
  rewrite Hty, Z.eqb_refl, wrap_ulong_small by lia. reflexivity.
Qed.

Lemma isKeyRepeatPair_not_release release press :
  ev_type release <> KeyRelease -> isKeyRepeatPair release press = false.
Proof.
  intros Hty. unfold isKeyRepeatPair. apply Z.eqb_neq in Hty.
  rewrite Hty. reflexivity.
Qed.

(** The second event of a pair is a [KeyPress], so it starts no pair. *)
Lemma isKeyRepeatPair_press_first release press next :
  isKeyRepeatPair release press = true -> isKeyRepeatPair press next = false.
Proof.
  unfold isKeyRepeatPair. intros Hpair.
  repeat (apply andb_prop in Hpair; destruct Hpair as [Hpair ?]).
  apply isKeyRepeatPair_not_release.
  match goal with H : (ev_type press =? KeyPress) = true |- _ =>
    apply Z.eqb_eq in H; rewrite H end.
  discriminate.
Qed.

Lemma dropRepeats_not_release keyRepeat e rest :
  ev_type e <> KeyRelease ->
  dropRepeats keyRepeat (e :: rest) = e :: dropRepeats keyRepeat rest.
Proof.
  intros Hty. destruct rest as [|next rest']; [reflexivity|].
  cbn [dropRepeats]. rewrite isKeyRepeatPair_not_release by exact Hty.
  reflexivity.
Qed.

Variable keyRepeat : bool.

(** The inner loop: what it has forwarded, with the event it hands back
    when [processThisEvent] holds, is the removal of pairs up to there. *)
Lemma repeatLoop_spec fuel : forall event queue forwarded,
  (length queue <= fuel)%nat ->
  validTime event -> Forall validTime queue ->
  exists event' processThisEvent queue' forwarded',
    repeatLoop fuel predicate keyRepeat event queue forwarded
    = Some (event', processThisEvent, queue', forwarded')
    /\ filter rejected queue' = filter rejected queue
    /\ (length queue' <= length queue)%nat
    /\ Forall validTime queue'
    /\ (if processThisEvent then forwarded' ++ [event'] else forwarded')
       ++ dropRepeats keyRepeat (filter predicate queue')
       = forwarded
         ++ dropRepeats keyRepeat (event :: filter predicate queue).
Proof.
  induction fuel as [|fuel IH]; intros event queue forwarded Hlen Ht Hall.
  - destruct queue as [|e q]; [|simpl in Hlen; lia].
    exists event, true, [], forwarded. simpl.
    destruct (ev_type event =? KeyRelease);
      repeat split; auto; rewrite <- app_assoc; reflexivity.
  - cbn [repeatLoop].
    destruct (ev_type event =? KeyRelease) eqn:Hty.
    + apply Z.eqb_eq in Hty.
      destruct (XCheckIfEvent predicate queue) as [[nextEvent queue']|] eqn:Hq.
      * destruct (XCheckIfEvent_some _ _ _ Hq) as [Hf [Hr Hl]].
        destruct (XCheckIfEvent_Forall validTime _ _ _ Hall Hq) as [Htn Hall'].
        rewrite (isRepeat_pair _ _ Ht Hty), Hf.
        cbn [dropRepeats].
        destruct (isKeyRepeatPair event nextEvent) eqn:Hpair.
        -- destruct keyRepeat.
           ++ exists nextEvent, true, queue', forwarded.
              repeat split; auto; try lia.
              rewrite <- app_assoc. reflexivity.
           ++ exists event, false, queue', forwarded.
              repeat split; auto; lia.
        -- destruct (IH nextEvent queue' (forwarded ++ [event]))
             as [ev' [b [q'' [fwd' [E [Hr' [Hl' [Hall'' Heq]]]]]]]];
             [lia | assumption | assumption |].
           exists ev', b, q'', fwd'. rewrite E.
           repeat split; auto; try congruence; try lia.
           rewrite Heq, <- app_assoc. reflexivity.
      * destruct (XCheckIfEvent_none _ Hq) as [Hf Hr].
        exists event, true, queue, forwarded. rewrite Hf.
        repeat split; auto. rewrite <- app_assoc. reflexivity.
    + apply Z.eqb_neq in Hty.
      exists event, true, queue, forwarded.
      rewrite dropRepeats_not_release by exact Hty.
      repeat split; auto. rewrite <- app_assoc. reflexivity.
Qed.

(** The outer loop leaves the events the predicate rejects, in order, and
    forwards the accepted ones with the pairs removed. *)
Lemma processLoop_spec fuel : forall queue forwarded,
  (length queue <= fuel)%nat ->
  Forall validTime queue ->
  processLoop fuel predicate keyRepeat queue forwarded
  = Some (filter rejected queue,
          forwarded ++ dropRepeats keyRepeat (filter predicate queue)).
Proof.
  induction fuel as [|fuel IH]; intros queue forwarded Hlen Hall.
  - destruct queue as [|e q]; [|simpl in Hlen; lia].
    simpl. rewrite app_nil_r. reflexivity.
  - cbn [processLoop].
    destruct (XCheckIfEvent predicate queue) as [[event queue']|] eqn:Hq.
    + destruct (XCheckIfEvent_some _ _ _ Hq) as [Hf [Hr Hl]].
      destruct (XCheckIfEvent_Forall validTime _ _ _ Hall Hq) as [Ht Hall'].
      destruct (repeatLoop_spec fuel event queue' forwarded)
        as [ev' [b [q'' [fwd' [E [Hr' [Hl' [Hall'' Heq]]]]]]]];
        [lia | assumption | assumption |].
      rewrite E, IH by (assumption || lia).
      rewrite Heq, Hf, Hr', Hr. reflexivity.
    + destruct (XCheckIfEvent_none _ Hq) as [Hf Hr].
      rewrite Hf, Hr. simpl. rewrite app_nil_r. reflexivity.
Qed.

Lemma withoutRepeatPairs_cons prev e rest :
  withoutRepeatPairs keyRepeat prev (e :: rest)
  = if match rest with
       | next :: _ => isKeyRepeatPair e next
       | [] => false
       end
       || (negb keyRepeat
           && match prev with
              | Some p => isKeyRepeatPair p e
              | None => false
              end)
    then withoutRepeatPairs keyRepeat (Some e) rest
    else e :: withoutRepeatPairs keyRepeat (Some e) rest.
Proof. reflexivity. Qed.

Lemma dropRepeats_cons e next rest :
  dropRepeats keyRepeat (e :: next :: rest)
  = if isKeyRepeatPair e next
    then (if keyRepeat then [next] else []) ++ dropRepeats keyRepeat rest
    else e :: dropRepeats keyRepeat (next :: rest).
Proof. reflexivity. Qed.

(** Removing the pairs from left to right drops exactly the events the
    statement names. *)
Lemma withoutRepeatPairs_dropRepeats n : forall events prev,
  (length events <= n)%nat ->
  match prev, events with
  | Some p, e :: _ => isKeyRepeatPair p e = false
  | _, _ => True
  end ->
  withoutRepeatPairs keyRepeat prev events = dropRepeats keyRepeat events.
Proof.
  induction n as [|n IH]; intros events prev Hlen Hprev.
  - destruct events; [reflexivity | simpl in Hlen; lia].
  - destruct events as [|e [|next rest]]; [reflexivity | |].
    + cbn. destruct prev as [p|]; [rewrite Hprev|];
        rewrite ?andb_false_r; reflexivity.
    + assert (Hpress : match prev with
                       | Some p => isKeyRepeatPair p e
                       | None => false
                       end = false) by (destruct prev; auto).
      rewrite withoutRepeatPairs_cons, dropRepeats_cons.
      rewrite Hpress, andb_false_r, orb_false_r.
      simpl in Hlen.
      destruct (isKeyRepeatPair e next) eqn:Hpair.
      * assert (Hnext : match rest with
                        | n0 :: _ => isKeyRepeatPair next n0
                        | [] => false
                        end = false).
        { destruct rest; [reflexivity|].
          eapply isKeyRepeatPair_press_first. exact Hpair. }
        rewrite withoutRepeatPairs_cons, Hnext, Hpair, andb_true_r.
        rewrite (IH rest (Some next)).
        -- destruct keyRepeat; reflexivity.
        -- lia.
        -- destruct rest; [exact I|]. exact Hnext.
      * f_equal. apply IH; [simpl; lia | exact Hpair].
Qed.

End EventQueueFacts.

Section ProcessEventsFacts.

Import EventQueue.

(** C1 (amended): among the queued events that [checkEvent] selects for
    the window, taken in queue order, [processEvents] drops every
    [KeyRelease] that is followed at once by a [KeyPress] of the same
    keycode at most 1 ms later, drops that [KeyPress] too when key repeat
    is disabled, and gives every other selected event to [processEvent] in
    queue order, whatever the clipboard does at the end. *)
Theorem processEvents_drops_repeat_pairs
    (ClipboardImpl_processEvents : list XEvent -> list XEvent)
    (wmProtocols : Atom) (enabled : bool) (w : WindowImplX11)
    (queue : list XEvent) :
  Forall validTime queue ->
  option_map snd
    (processEvents ClipboardImpl_processEvents wmProtocols
       (setKeyRepeatEnabled enabled w) queue)
  = Some (withoutRepeatPairs enabled None
            (filter (fun e => checkEvent wmProtocols e (m_window w)) queue)).
Proof.
  intros Hall. unfold processEvents. cbn [setKeyRepeatEnabled set_keyRepeat
    m_window m_keyRepeat].
  rewrite processLoop_spec by (assumption || apply Nat.le_refl).
  cbn [app option_map snd]. f_equal. symmetry.
  apply (withoutRepeatPairs_dropRepeats enabled (length queue)).
  - apply filter_length_le.
  - exact I.
Qed.

End ProcessEventsFacts.

Section ProcessEventsExamples.

Import EventQueue Samples.

Lemma processEvents_drops_repeat_pairs_witness :
  option_map snd
    (processEvents sampleClipboard wmProtocolsAtom
       (setKeyRepeatEnabled false sampleWindow)
       [sampleExpose; sampleRelease; samplePress; sampleLastRelease])
  = Some [sampleLastRelease].
Proof.
  rewrite processEvents_drops_repeat_pairs.
  - reflexivity.
  - repeat constructor; unfold validTime; simpl; lia.
Defined.

(** C1 as stated fails: the release and the press of a pair are separated
    in the native queue by an event of another window, and the release is
    not forwarded. *)
Lemma processEvents_native_queue_counterexample :
  let queue := [sampleRelease; sampleExpose; samplePress] in
  let selected := fun e => checkEvent wmProtocolsAtom e (m_window sampleWindow) in
  selected sampleRelease = true
  /\ isKeyRepeatPair sampleRelease sampleExpose = false
  /\ forwardedPerNativeQueue selected true queue
     = [sampleRelease; samplePress]
  /\ option_map snd
       (processEvents sampleClipboard wmProtocolsAtom
          (setKeyRepeatEnabled true sampleWindow) queue)
     = Some [samplePress]
  /\ option_map snd
       (processEvents sampleClipboard wmProtocolsAtom
          (setKeyRepeatEnabled true sampleWindow) queue)
     <> Some (forwardedPerNativeQueue selected true queue).
Proof.
  repeat split; try reflexivity.
  vm_compute. discriminate.
Qed.

End ProcessEventsExamples.

Section CursorGrabExamples.

Import CursorGrab Samples.

Lemma setMouseCursorGrabbed_cases_witness :
  fst (setMouseCursorGrabbed thirdGrabSucceeds true sampleWindow)
  = set_cursorGrabbed true sampleWindow
  /\ grabCount (snd (setMouseCursorGrabbed thirdGrabSucceeds true
                       sampleWindow)) = 3%nat
  /\ m_cursorGrabbed
       (fst (setMouseCursorGrabbed thirdGrabSucceeds true sampleWindow))
     = true
  /\ otherMembers
       (fst (setMouseCursorGrabbed thirdGrabSucceeds true sampleWindow))
     = otherMembers sampleWindow.
Proof.
  destruct (setMouseCursorGrabbed_cases thirdGrabSucceeds true sampleWindow
              _ _ eq_refl) as [_ [Hgrab _]].
  destruct (Hgrab eq_refl eq_refl eq_refl) as [_ [_ [Hfirst _]]].
  apply (Hfirst 2%nat).
  - unfold maxTrialsCount. lia.
  - reflexivity.
  - intros j Hj. destruct j as [|[|j]]; [discriminate | discriminate | lia].
Defined.

End CursorGrabExamples.

(** ** Switching the video mode *)

Section VideoModeFacts.

Import VideoModeSwitch.

Lemma findMode_matches rotation size modes :
  findMode rotation size modes = None
  <-> existsb (modeMatches rotation size) modes = false.
Proof.
  induction modes as [|m rest IH]; simpl.
  - split; reflexivity.
  - unfold modeMatches at 1. unfold rotated.
    destruct ((rotation =? RR_Rotate_90) || (rotation =? RR_Rotate_270));
      simpl;
      match goal with |- context [if ?c then _ else _] =>
        destruct c; simpl end;
      (split; [discriminate|discriminate]) || exact IH.
Qed.

Lemma changesVideoMode_app_err tr msg :
  changesVideoMode (tr ++ [err msg]) = changesVideoMode tr.
Proof.
  unfold changesVideoMode. rewrite existsb_app. simpl.
  rewrite orb_false_r. reflexivity.
Qed.

Lemma checkXRandR_effects x :
  changesVideoMode (snd (checkXRandR x)) = false
  /\ forallb isErr (snd (checkXRandR x)) = true
  /\ fst (checkXRandR x) = XQueryExtension_RANDR x.
Proof.
  unfold checkXRandR. destruct (XQueryExtension_RANDR x); repeat split.
Qed.

Lemma forallb_app_err tr msg :
  forallb isErr (tr ++ [err msg]) = forallb isErr tr.
Proof.
  rewrite forallb_app. simpl. apply andb_true_r.
Qed.

(** When [resetVideoMode] touches the display, this window was the
    recorded fullscreen window and the record is cleared; when this window
    is not the recorded one nothing happens. *)
Lemma resetVideoMode_only_recorded this x self fullscreenWindow :
  (changesVideoMode (snd (resetVideoMode this x self fullscreenWindow)) = true
   -> fullscreenWindow = Some this
      /\ fst (resetVideoMode this x self fullscreenWindow) = None)
  /\ (fullscreenWindow <> Some this ->
      resetVideoMode this x self fullscreenWindow = (fullscreenWindow, [])).
Proof.
  unfold resetVideoMode. destruct fullscreenWindow as [p|].
  - destruct (Nat.eqb p this) eqn:Hp.
    + apply Nat.eqb_eq in Hp. subst p.
      pose proof (checkXRandR_effects x) as [Hc _].
      destruct (checkXRandR x) as [present tr]. cbn [snd] in Hc.
      split; [|congruence].
      destruct present.
      * destruct (XRRGetScreenResources x);
          [destruct (XRRGetCrtcInfo x (m_oldRRCrtc self))|];
          cbn [fst snd]; rewrite ?changesVideoMode_app_err, ?Hc;
          intros; try discriminate; split; reflexivity.
      * cbn [fst snd]. rewrite Hc. discriminate.
    + split; [discriminate | reflexivity].
  - split; [discriminate | reflexivity].
Qed.

(** Once the record is cleared, a further call does nothing. *)
Lemma resetVideoMode_after_clear this x self :
  resetVideoMode this x self None = (None, []).
Proof. reflexivity. Qed.

Variable VideoMode_eq : VideoMode -> VideoMode -> bool.
Variable desktopMode : VideoMode.

(** C2 (amended): [setVideoMode] changes the video mode only when the
    requested mode differs from the desktop mode, XRandR is present, the
    screen resources, the info of an output that is not reported
    disconnected and the info of its crtc can be obtained, and a mode
    exists whose width and height, exchanged when the crtc is rotated by 90
    or 270 degrees, equal the requested size.  In every failure case the
    window, [fullscreenWindow] and the display are unchanged, only error
    messages are written; once the switch is requested, and only then, this
    window is set as the fullscreen window. *)
Theorem setVideoMode_switches_iff (this : Ptr) (x : XRandR)
    (mode : VideoMode) (self self' : WindowImplX11)
    (fullscreenWindow fullscreenWindow' : option Ptr) (tr : list Effect) :
  setVideoMode VideoMode_eq desktopMode this x mode self fullscreenWindow
  = (self', fullscreenWindow', tr) ->
  (changesVideoMode tr = true <-> canSwitch VideoMode_eq desktopMode x mode)
  /\ (changesVideoMode tr = false ->
      self' = self /\ fullscreenWindow' = fullscreenWindow
      /\ forallb isErr tr = true)
  /\ (changesVideoMode tr = true -> fullscreenWindow' = Some this)
  /\ (fullscreenWindow' <> fullscreenWindow -> changesVideoMode tr = true).
Proof.
  unfold setVideoMode, canSwitch. intros Hrun.
  destruct (VideoMode_eq mode desktopMode) eqn:Heq.
  { inversion Hrun; subst. cbn.
    split; [split; [discriminate|] | repeat split; congruence].
    intros [Hno _]. discriminate. }
  pose proof (checkXRandR_effects x) as [Hc [He Hp]].
  destruct (checkXRandR x) as [present tr0]. cbn [fst snd] in Hc, He, Hp.
  subst present.
  destruct (XQueryExtension_RANDR x) eqn:Hext; cbn [negb] in Hrun.
  2:{ inversion Hrun; subst; clear Hrun.
      rewrite changesVideoMode_app_err, forallb_app_err, Hc, He.
      split; [split; [discriminate|] | repeat split; congruence].
      intros [_ [Hno _]]. discriminate. }
  destruct (XRRGetScreenResources x) as [res|] eqn:Hres.
  2:{ inversion Hrun; subst; clear Hrun.
      rewrite changesVideoMode_app_err, forallb_app_err, Hc, He.
      split; [split; [discriminate|] | repeat split; congruence].
      intros [_ [_ [r [o [c [Hno _]]]]]]. discriminate. }
  destruct (XRRGetOutputInfo x (getOutputPrimary x res))
    as [outputInfo|] eqn:Hout.
  2:{ inversion Hrun; subst; clear Hrun.
      rewrite changesVideoMode_app_err, forallb_app_err, Hc, He.
      split; [split; [discriminate|] | repeat split; congruence].
      intros [_ [_ [r [o [c [Hr [Hno _]]]]]]].
      inversion Hr; subst. congruence. }
  destruct (output_connection outputInfo =? RR_Disconnected) eqn:Hconn.
  { inversion Hrun; subst; clear Hrun.
    rewrite changesVideoMode_app_err, forallb_app_err, Hc, He.
    split; [split; [discriminate|] | repeat split; congruence].
    intros [_ [_ [r [o [c [Hr [Ho [Hno _]]]]]]]].
    inversion Hr; subst. rewrite Hout in Ho. inversion Ho; subst.
    apply Z.eqb_eq in Hconn. contradiction. }
  apply Z.eqb_neq in Hconn.
  destruct (XRRGetCrtcInfo x (output_crtc outputInfo)) as [crtcInfo|] eqn:Hcrtc.
  2:{ inversion Hrun; subst; clear Hrun.
      rewrite changesVideoMode_app_err, forallb_app_err, Hc, He.
      split; [split; [discriminate|] | repeat split; congruence].
      intros [_ [_ [r [o [c [Hr [Ho [_ [Hno _]]]]]]]]].
      inversion Hr; subst. rewrite Hout in Ho. inversion Ho; subst.
      congruence. }
  destruct (findMode (crtc_rotation crtcInfo) (size_x mode, size_y mode)
                     (res_modes res)) as [xRandMode|] eqn:Hfind.
  2:{ inversion Hrun; subst; clear Hrun.
      rewrite changesVideoMode_app_err, forallb_app_err, Hc, He.
      split; [split; [discriminate|] | repeat split; congruence].
      intros [_ [_ [r [o [c [Hr [Ho [_ [Hci Hno]]]]]]]]].
      inversion Hr; subst. rewrite Hout in Ho. inversion Ho; subst.
      rewrite Hcrtc in Hci. inversion Hci; subst.
      apply findMode_matches in Hfind. congruence. }
  inversion Hrun; subst; clear Hrun.
  assert (Hchg : changesVideoMode
                   (tr0 ++ [XRRSetCrtcConfig (output_crtc outputInfo)
                              (crtc_x crtcInfo) (crtc_y crtcInfo) xRandMode
                              (crtc_rotation crtcInfo)
                              [getOutputPrimary x res]]) = true).
  { unfold changesVideoMode. rewrite existsb_app. simpl.
    apply orb_true_r. }
  rewrite Hchg.
  split; [split; [intros _ | reflexivity] | repeat split; congruence].
  split; [reflexivity | split; [reflexivity|]].
  exists res, outputInfo, crtcInfo. repeat split; auto.
  destruct (existsb (modeMatches (crtc_rotation crtcInfo)
                       (size_x mode, size_y mode)) (res_modes res)) eqn:Hex;
    [reflexivity|].
  apply findMode_matches in Hex. congruence.
Qed.

End VideoModeFacts.

Section VideoModeExamples.

Import VideoModeSwitch Samples.

Lemma setVideoMode_switches_iff_witness :
  canSwitch sampleVideoMode_eq desktop1920
            (sampleXRandR RR_Connected RR_Rotate_0) mode800
  /\ snd (fst (setVideoMode sampleVideoMode_eq desktop1920 1%nat
                 (sampleXRandR RR_Connected RR_Rotate_0) mode800
                 sampleWindow None)) = Some 1%nat.
Proof.
  destruct (setVideoMode_switches_iff sampleVideoMode_eq desktop1920 1%nat
              (sampleXRandR RR_Connected RR_Rotate_0) mode800 sampleWindow
              _ None _ _ eq_refl) as [[Hiff _] [_ [Honly _]]].
  split.
  - apply Hiff. reflexivity.
  - apply Honly. reflexivity.
Defined.

(** C2 as stated fails.  With the crtc rotated by 90 degrees a request of
    1080 x 1920 switches to the mode of 1920 x 1080, and no mode has the
    requested width and height; an output whose connection is unknown, not
    connected, is switched too; and the window is recorded as the
    fullscreen window when the server answers the switch with a failure. *)
Lemma setVideoMode_as_stated_counterexample :
  (changesVideoMode
     (snd (setVideoMode sampleVideoMode_eq desktop1920 1%nat
             (sampleXRandR RR_Connected RR_Rotate_90) mode1080x1920
             sampleWindow None)) = true
   /\ existsb (sameSize (size_x mode1080x1920, size_y mode1080x1920))
              (res_modes sampleResources) = false)
  /\ (changesVideoMode
        (snd (setVideoMode sampleVideoMode_eq desktop1920 1%nat
                (sampleXRandR RR_UnknownConnection RR_Rotate_0) mode800
                sampleWindow None)) = true
      /\ RR_UnknownConnection <> RR_Connected)
  /\ (snd (fst (setVideoMode sampleVideoMode_eq desktop1920 1%nat
                  (sampleXRandR_status RR_Connected RR_Rotate_0
                     RRSetConfigFailed) mode800 sampleWindow None))
      = Some 1%nat
      /\ XRRSetCrtcConfig_status
           (sampleXRandR_status RR_Connected RR_Rotate_0 RRSetConfigFailed)
         <> RRSetConfigSuccess).
Proof.
  repeat split; discriminate.
Qed.

(** C6 at a failing input: window 1 is the recorded fullscreen window and
    the server cannot give its screen resources.  [resetVideoMode] (and
    [cleanup]) returns with the record still set, and the next call, which
    the server answers, changes the video mode and the record. *)
Theorem resetVideoMode_keeps_record_when_query_fails :
  resetVideoMode 1%nat sampleXRandR_noResources fullscreenSample (Some 1%nat)
  = (Some 1%nat,
     [err "Failed to get the current screen resources to reset the video mode"])
  /\ fst (cleanup 1%nat sampleXRandR_noResources fullscreenSample (Some 1%nat))
     = Some 1%nat
  /\ resetVideoMode 1%nat (sampleXRandR RR_Connected RR_Rotate_0)
       fullscreenSample (Some 1%nat)
     = (None, [XRRSetCrtcConfig 63 0 0 71 RR_Rotate_0 [66]]).
Proof.
  repeat split.
Qed.

End VideoModeExamples.

(** ** EWMH support *)

Ltac zbool :=
  repeat match goal with
  | H : (_ =? _) = true |- _ => apply Z.eqb_eq in H
  | H : (_ =? _) = false |- _ => apply Z.eqb_neq in H
  | H : negb _ = true |- _ => apply negb_true_iff in H
  | H : negb _ = false |- _ => apply negb_false_iff in H
  | H : _ || _ = false |- _ => apply orb_false_iff in H; destruct H
  | H : _ && _ = true |- _ => apply andb_true_iff in H; destruct H
  end.

Section EwmhFacts.

Import EWMH.

Lemma badWindowReply_false r :
  badWindowReply r = false
  <-> result r = Success /\ actualType r = XA_WINDOW /\ numItems r = 1.
Proof.
  unfold badWindowReply. split.
  - intros Hb. zbool. auto.
  - intros [Hr [Ht Hn]]. rewrite Hr, Ht, Hn. reflexivity.
Qed.

(** A call that finds [checked] set returns the static and writes
    nothing. *)
Lemma ewmhSupported_cached x st :
  checked st = true -> ewmhSupported x st = (ewmhSupported_static st, st).
Proof.
  intros Hc. unfold ewmhSupported. rewrite Hc. reflexivity.
Qed.

(** The first call sets [checked] and leaves its answer in the static. *)
Lemma ewmhSupported_first x st :
  checked st = false -> ewmhSupported_static st = false ->
  checked (snd (ewmhSupported x st)) = true
  /\ ewmhSupported_static (snd (ewmhSupported x st))
     = fst (ewmhSupported x st).
Proof.
  intros Hc Hs. unfold ewmhSupported. rewrite Hc.
  repeat match goal with
         | |- context [if ?c then _ else _] => destruct c
         end; cbn; auto.
Qed.

Lemma ewmhSupported_checked x st :
  checked (snd (ewmhSupported x st)) = true.
Proof.
  destruct (checked st) eqn:Hc.
  - rewrite ewmhSupported_cached by exact Hc. exact Hc.
  - unfold ewmhSupported. rewrite Hc.
    repeat match goal with
           | |- context [if ?c then _ else _] => destruct c
           end; cbn; auto.
Qed.

Lemma laterCalls_cached later : forall st,
  checked st = true ->
  laterCalls later st = repeat (ewmhSupported_static st) (length later).
Proof.
  induction later as [|x rest IH]; intros st Hc; simpl.
  - reflexivity.
  - rewrite ewmhSupported_cached by exact Hc. rewrite IH by exact Hc.
    reflexivity.
Qed.

(** The first call answers [true] exactly when the check holds. *)
Lemma ewmhSupported_first_answer x st :
  checked st = false ->
  fst (ewmhSupported x st) = true <-> wmCheckHolds x.
Proof.
  intros Hc. unfold ewmhSupported, wmCheckHolds, namesWindow. rewrite Hc.
  set (wmCheck := getAtom x "_NET_SUPPORTING_WM_CHECK" true).
  set (r1 := XGetWindowProperty x (DefaultRootWindow x) wmCheck 0 1 XA_WINDOW).
  destruct ((wmCheck =? 0) || (getAtom x "_NET_SUPPORTED" true =? 0)) eqn:Ha.
  { cbn. split; [discriminate|]. intros [H1 [H2 _]].
    apply Z.eqb_neq in H1, H2. rewrite H1, H2 in Ha. discriminate. }
  zbool.
  destruct (badWindowReply r1) eqn:Hb1.
  { cbn. split; [discriminate|].
    intros [_ [_ [wm [[Hr [Ht [Hn _]]] _]]]].
    assert (badWindowReply r1 = false)
      by (apply badWindowReply_false; auto).
    congruence. }
  apply badWindowReply_false in Hb1.
  destruct (item 0 r1 =? 0) eqn:Hroot.
  { cbn. split; [discriminate|].
    intros [_ [_ [wm [[_ [_ [_ [Hi Hnz]]]] _]]]]. zbool. congruence. }
  set (r2 := XGetWindowProperty x (item 0 r1) wmCheck 0 1 XA_WINDOW).
  destruct (badWindowReply r2) eqn:Hb2.
  { cbn. split; [discriminate|].
    intros [_ [_ [wm [[_ [_ [_ [Hi _]]]] [Hr [Ht [Hn _]]]]]]].
    subst wm.
    assert (badWindowReply r2 = false)
      by (apply badWindowReply_false; auto).
    congruence. }
  apply badWindowReply_false in Hb2.
  destruct (item 0 r2 =? 0) eqn:Hchild.
  { cbn. split; [discriminate|].
    intros [_ [_ [wm [[_ [_ [_ [Hi _]]]] [_ [_ [_ [Hi2 Hnz]]]]]]]].
    subst wm. fold r2 in Hi2. zbool. congruence. }
  destruct (negb (item 0 r1 =? item 0 r2)) eqn:Hsame.
  { cbn. split; [discriminate|].
    intros [_ [_ [wm [[_ [_ [_ [Hi _]]]] [_ [_ [_ [Hi2 _]]]]]]]].
    subst wm. fold r2 in Hi2. zbool. congruence. }
  zbool.
  assert (Htrue : forall b : bool * Statics, fst b = true ->
            (fst b = true <->
             wmCheck <> 0 /\ getAtom x "_NET_SUPPORTED" true <> 0
             /\ exists wm,
                  (result r1 = Success /\ actualType r1 = XA_WINDOW
                   /\ numItems r1 = 1 /\ item 0 r1 = wm /\ wm <> 0)
                  /\ (result (XGetWindowProperty x wm wmCheck 0 1 XA_WINDOW)
                      = Success
                      /\ actualType
                           (XGetWindowProperty x wm wmCheck 0 1 XA_WINDOW)
                         = XA_WINDOW
                      /\ numItems
                           (XGetWindowProperty x wm wmCheck 0 1 XA_WINDOW)
                         = 1
                      /\ item 0 (XGetWindowProperty x wm wmCheck 0 1 XA_WINDOW)
                         = wm
                      /\ wm <> 0))).
  { intros b Hb. split; [intros _ | auto].
    split; [assumption | split; [assumption|]].
    exists (item 0 r1). fold r2.
    destruct Hb1 as [? [? ?]]. destruct Hb2 as [? [? ?]].
    repeat split; auto. }
  repeat match goal with
         | |- context [if ?c then _ else _] => destruct c
         end; apply Htrue; reflexivity.
Qed.

(** C7: the first call of [ewmhSupported] in a process answers [true] only
    when (and exactly when) the atoms [_NET_SUPPORTING_WM_CHECK] and
    [_NET_SUPPORTED] exist and the [_NET_SUPPORTING_WM_CHECK] property of
    the root window names a window whose own property names that same
    window; every later call, whatever the server then says, returns the
    answer of the first call and leaves the statics as they are. *)
Theorem ewmhSupported_computed_once (x : XServer) (later : list XServer)
    (answer : bool) (st : Statics) :
  ewmhSupported x initialStatics = (answer, st) ->
  (answer = true <-> wmCheckHolds x)
  /\ laterCalls later st = repeat answer (length later)
  /\ (forall x', ewmhSupported x' st = (answer, st)).
Proof.
  intros Hrun.
  pose proof (ewmhSupported_first_answer x initialStatics eq_refl) as Hans.
  pose proof (ewmhSupported_first x initialStatics eq_refl eq_refl)
    as [Hchecked Hstatic].
  rewrite Hrun in Hans, Hchecked, Hstatic. cbn [fst snd] in *.
  split; [exact Hans|]. split.
  - rewrite laterCalls_cached by exact Hchecked. rewrite Hstatic.
    reflexivity.
  - intros x'. rewrite ewmhSupported_cached by exact Hchecked.
    rewrite Hstatic. reflexivity.
Qed.

(** After any call the answer is fixed. *)
Lemma ewmhSupported_stable x st answer st1 :
  reachable st ->
  ewmhSupported x st = (answer, st1) ->
  forall x', ewmhSupported x' st1 = (answer, st1).
Proof.
  intros Hreach Hrun x'.
  destruct (checked st) eqn:Hc.
  - rewrite ewmhSupported_cached in Hrun by exact Hc.
    inversion Hrun; subst. apply ewmhSupported_cached. exact Hc.
  - pose proof (ewmhSupported_first x st Hc (Hreach Hc)) as [Hc1 Hs1].
    rewrite Hrun in Hc1, Hs1. cbn [fst snd] in Hc1, Hs1.
    rewrite ewmhSupported_cached by exact Hc1. rewrite Hs1. reflexivity.
Qed.

Lemma getEWMHFrameExtents_available x st st1 win left top xf yf :
  (forall x', ewmhSupported x' st = (true, st1)) ->
  frameExtentsAvailable x win left top ->
  getEWMHFrameExtents x st win xf yf = (true, left, top, st1).
Proof.
  unfold frameExtentsAvailable, getEWMHFrameExtents.
  intros Hrun [Ha [Hr [Ht [Hf [Hn [Hb [Hd [Hl Htop]]]]]]]].
  rewrite Hrun. cbn [negb].
  apply Z.eqb_neq in Ha. rewrite Ha, Hr, Ht, Hf, Hn, Hb. cbn.
  destruct (data _); [contradiction | |]; congruence.
Qed.

Lemma getEWMHFrameExtents_unavailable x st st1 ewmh win xf yf :
  (forall x', ewmhSupported x' st = (ewmh, st1)) ->
  ~ (ewmh = true /\ exists left top, frameExtentsAvailable x win left top) ->
  getEWMHFrameExtents x st win xf yf = (false, xf, yf, st1).
Proof.
  unfold frameExtentsAvailable, getEWMHFrameExtents.
  intros Hrun Hno. rewrite Hrun.
  destruct ewmh; [|reflexivity]. cbn [negb].
  destruct (getAtom x "_NET_FRAME_EXTENTS" true =? X.None) eqn:Ha;
    [reflexivity|].
  match goal with |- context [if ?c then _ else _] =>
    destruct c eqn:Hcond end; [|reflexivity].
  exfalso. apply Hno. split; [reflexivity|].
  zbool.
  eexists _, _. repeat split; try eassumption.
  intros Hd. rewrite Hd in *. discriminate.
Qed.

Lemma climb_furthestAncestor x root w a n :
  furthestAncestor x root w a n ->
  forall fuel, (n <= fuel)%nat -> climb fuel x root w = Some a.
Proof.
  induction 1 as [w Hp | w a n Hp Hup IH]; intros fuel Hfuel.
  - destruct fuel; simpl; rewrite Hp, Z.eqb_refl; reflexivity.
  - destruct fuel as [|fuel]; [lia|]. simpl.
    apply Z.eqb_neq in Hp. rewrite Hp. cbn [negb].
    apply IH. lia.
Qed.

Lemma int_sub_exact a b :
  fitsInt b -> fitsInt (a - b) -> int_sub a (to_int b) = a - b.
Proof.
  unfold fitsInt, int_sub. intros Hb Hab.
  rewrite (to_int_id b) by exact Hb. apply to_int_id. exact Hab.
Qed.

(** C3: [getPosition] uses exactly one of three strategies, in this order:
    (1) when EWMH is supported and the name of the window manager is
    Enlightenment, FVWM or i3, the coordinates of the window relative to
    the root, unchanged; (2) otherwise, when the [_NET_FRAME_EXTENTS]
    property is available, those coordinates minus the left and the top
    frame extents (in [int] arithmetic, exact when the values fit an
    [int]); (3) otherwise the position, relative to the root, of the
    furthest ancestor of the window below the root. *)
Theorem getPosition_three_strategies (fuel : nat) (x : XServer)
    (st st1 : Statics) (self : WindowImplX11) (ewmh : bool)
    (xAbs yAbs : Z) :
  reachable st ->
  ewmhSupported x st = (ewmh, st1) ->
  XTranslateCoordinates x (m_window self) (DefaultRootWindow x)
  = (xAbs, yAbs) ->
  let absoluteGood :=
    ewmh = true /\ In (windowManagerName st1) wmAbsPosGood in
  let extents left top :=
    ewmh = true /\ frameExtentsAvailable x (m_window self) left top in
  (absoluteGood ->
     getPosition fuel x st self = (Some (xAbs, yAbs), st1))
  /\ (forall left top,
        ~ absoluteGood -> extents left top ->
        getPosition fuel x st self
        = (Some (int_sub xAbs (to_int left), int_sub yAbs (to_int top)),
           st1)
        /\ (fitsInt left -> fitsInt top ->
            fitsInt (xAbs - left) -> fitsInt (yAbs - top) ->
            getPosition fuel x st self
            = (Some (xAbs - left, yAbs - top), st1)))
  /\ (forall ancestor n,
        ~ absoluteGood -> ~ (exists left top, extents left top) ->
        furthestAncestor x (DefaultRootWindow x) (m_window self) ancestor n ->
        (n <= fuel)%nat ->
        getPosition fuel x st self
        = (Some (XGetGeometry x ancestor), st1)).
Proof.
  intros Hreach Hrun Habs absoluteGood extents.
  pose proof (ewmhSupported_stable x st ewmh st1 Hreach Hrun) as Hstable.
  assert (Hgood : isWMAbsolutePositionGood x st
                  = (ewmh && existsb (fun name =>
                               String.eqb name (windowManagerName st1))
                               wmAbsPosGood, st1)).
  { unfold isWMAbsolutePositionGood. rewrite Hrun.
    destruct ewmh; reflexivity. }
  assert (Hiff : ewmh && existsb (fun name =>
                           String.eqb name (windowManagerName st1))
                           wmAbsPosGood = true <-> absoluteGood).
  { unfold absoluteGood. rewrite andb_true_iff, existsb_exists.
    split.
    - intros [He [name [Hin Heq]]]. apply String.eqb_eq in Heq.
      subst. auto.
    - intros [He Hin]. split; [exact He|].
      exists (windowManagerName st1). split; [exact Hin|].
      apply String.eqb_refl. }
  unfold getPosition. rewrite Habs, Hgood.
  split; [|split].
  - intros Hg. apply Hiff in Hg. rewrite Hg. reflexivity.
  - intros left top Hng [He Hav].
    destruct (ewmh && _) eqn:Hb; [exfalso; apply Hng, Hiff; reflexivity|].
    subst ewmh.
    rewrite (getEWMHFrameExtents_available x st1 st1 _ left top)
      by assumption.
    split; [reflexivity|]. intros Hl Ht Hxl Hyt.
    rewrite !int_sub_exact by assumption. reflexivity.
  - intros ancestor n Hng Hnx Hfa Hfuel.
    destruct (ewmh && _) eqn:Hb; [exfalso; apply Hng, Hiff; reflexivity|].
    rewrite (getEWMHFrameExtents_unavailable x st1 st1 ewmh).
    + rewrite (climb_furthestAncestor _ _ _ _ _ Hfa) by exact Hfuel.
      reflexivity.
    + exact Hstable.
    + intros [He [left [top Hav]]]. apply Hnx.
      exists left, top. split; assumption.
Qed.

End EwmhFacts.

(** ** Requesting the focus *)

Section FocusFacts.

Import EWMH Focus.

Lemma urgency_bit flags :
  Z.testbit (Z.lor flags XUrgencyHint) 8 = true
  /\ forall i, i <> 8 ->
       Z.testbit (Z.lor flags XUrgencyHint) i = Z.testbit flags i.
Proof.
  split.
  - rewrite Z.lor_spec. apply orb_true_r.
  - intros i Hi. rewrite Z.lor_spec. unfold XUrgencyHint.
    destruct (Z.ltb_spec i 0) as [Hneg|Hpos].
    + rewrite !Z.testbit_neg_r by exact Hneg. reflexivity.
    + rewrite Z.shiftl_spec by exact Hpos.
      replace (Z.testbit 1 (i - 8)) with false; [apply orb_false_r|].
      destruct (Z.ltb_spec (i - 8) 0) as [Hn|Hp].
      * symmetry. apply Z.testbit_neg_r. exact Hn.
      * symmetry. change 1 with (2 ^ 0). apply Z.pow2_bits_false. lia.
Qed.

(** On a window that is not unmapped [grabFocus] takes the focus: by the
    [_NET_ACTIVE_WINDOW] message, or by raising the window and setting the
    input focus. *)
Lemma grabFocus_mapped x st self map_state :
  XGetWindowAttributes x (m_window self) = Some map_state ->
  map_state <> IsUnmapped ->
  existsb changesFocus (fst (grabFocus x st self)) = true
  /\ existsb (setsUrgency (m_window self)) (fst (grabFocus x st self))
     = false.
Proof.
  intros Hattr Hmapped. unfold grabFocus.
  destruct (ewmhSupported x st) as [ewmh st1]. rewrite Hattr.
  apply Z.eqb_neq in Hmapped. rewrite Hmapped.
  destruct (negb _); cbn [fst].
  - destruct (XSendEvent_status x =? 0); split; reflexivity.
  - split; reflexivity.
Qed.

(** C4: [requestFocus] takes the focus only when a window of the global
    list has the input focus and this window is viewable, and then it does;
    in every other case it issues no request that changes the focus: when
    the attributes cannot be read it only logs an error, and when they can
    it sets the [XUrgencyHint] flag in the WM hints of the window, the
    other flags as they were. *)
Theorem requestFocus_grabs_or_marks_urgent (x : XServer) (st st' : Statics)
    (allWindows : list WindowImplX11) (self : WindowImplX11)
    (tr : list Effect) :
  requestFocus x st allWindows self = (tr, st') ->
  let sfmlWindowFocused :=
    exists w, In w allWindows /\ m_window w = XGetInputFocus x in
  let viewable := XGetWindowAttributes x (m_window self) = Some IsViewable in
  (existsb changesFocus tr = true <-> sfmlWindowFocused /\ viewable)
  /\ (XGetWindowAttributes x (m_window self) = None ->
      tr = [err "Failed to check if window is viewable while requesting focus"])
  /\ (forall map_state,
        XGetWindowAttributes x (m_window self) = Some map_state ->
        ~ (sfmlWindowFocused /\ viewable) ->
        exists flags,
          tr = [XSetWMHints (m_window self) flags]
          /\ Z.testbit flags 8 = true
          /\ forall old i,
               XGetWMHints x (m_window self) = Some old -> i <> 8 ->
               Z.testbit flags i = Z.testbit old i).
Proof.
  intros Hrun sfmlWindowFocused viewable.
  assert (Hfocused : existsb (hasFocus x) allWindows = true
                     <-> sfmlWindowFocused).
  { unfold sfmlWindowFocused. rewrite existsb_exists.
    split; intros [w [Hin Hw]]; exists w; (split; [exact Hin|]);
      unfold hasFocus in *; [apply Z.eqb_eq | apply Z.eqb_eq]; exact Hw. }
  unfold requestFocus in Hrun. unfold viewable.
  destruct (XGetWindowAttributes x (m_window self)) as [map_state|] eqn:Hattr.
  - destruct (existsb (hasFocus x) allWindows && (map_state =? IsViewable))
      eqn:Hcond.
    + apply andb_true_iff in Hcond. destruct Hcond as [Hf Hv].
      apply Z.eqb_eq in Hv. subst map_state.
      destruct (grabFocus_mapped x st self IsViewable Hattr) as [Hg _];
        [discriminate|].
      rewrite Hrun in Hg. cbn [fst] in Hg.
      split; [|split].
      * split; [intros _ | intros _; exact Hg].
        split; [apply Hfocused; exact Hf | reflexivity].
      * discriminate.
      * intros ms Hms Hno. exfalso. apply Hno.
        split; [apply Hfocused; exact Hf | reflexivity].
    + inversion Hrun; subst; clear Hrun.
      assert (Hno : ~ (sfmlWindowFocused /\ Some map_state = Some IsViewable)).
      { intros [Hf Hv]. apply Hfocused in Hf. inversion Hv; subst.
        rewrite Hf in Hcond. discriminate. }
      split; [|split].
      * cbn. split; [discriminate | intros H; contradiction].
      * discriminate.
      * intros ms Hms _. eexists. split; [reflexivity|].
        destruct (urgency_bit
                    match XGetWMHints x (m_window self) with
                    | Some flags => flags
                    | None => 0
                    end) as [Hbit Hother].
        split; [exact Hbit|].
        intros old i Hold Hi. rewrite Hold in Hother |- *.
        apply Hother. exact Hi.
  - inversion Hrun; subst; clear Hrun. split; [|split].
    + cbn. split; [discriminate | intros [_ H]; discriminate].
    + reflexivity.
    + discriminate.
Qed.

End FocusFacts.

(** ** Drag and drop *)

Section DndFacts.

Import Dnd.

Variable x : XServer.
Variable filtered : bool.
Variable netWmPing : Atom.
Variable indeterminate : Z.

Hypothesis wellFormed : atomsWellFormed x = true.

Ltac split_bools H :=
  repeat match type of H with
  | _ && _ = true =>
      let H1 := fresh "Hd" in
      apply andb_true_iff in H; destruct H as [H1 H]; split_bools H1
  | negb _ = true => apply negb_true_iff in H
  | _ || _ = false =>
      let H1 := fresh "Hd" in
      apply orb_false_iff in H; destruct H as [H1 H]
  end.

Lemma atoms_differ :
  (atom x "XdndDrop" =? atom x "WM_PROTOCOLS") = false
  /\ (atom x "XdndDrop" =? atom x "XdndPosition") = false
  /\ (atom x "XdndDrop" =? atom x "XdndEnter") = false
  /\ (atom x "XdndDrop" =? atom x "XdndLeave") = false
  /\ (atom x "XdndEnter" =? atom x "XdndPosition") = false
  /\ (atom x "XdndEnter" =? atom x "XdndDrop") = false
  /\ (atom x "XdndEnter" =? atom x "XdndLeave") = false
  /\ (atom x "XdndPosition" =? atom x "XdndEnter") = false
  /\ (atom x "XdndPosition" =? atom x "XdndDrop") = false
  /\ (atom x "XdndPosition" =? atom x "XdndLeave") = false
  /\ (atom x "XdndFinished" =? atom x "WM_PROTOCOLS") = false
  /\ (atom x "text/uri-list" =? X.None) = false.
Proof.
  pose proof wellFormed as H.
  unfold atomsWellFormed, messageNames in H.
  cbn [map distinct existsb] in H.
  split_bools H.
  repeat match goal with
         | Hx : _ || _ = false |- _ => split_bools Hx
         end.
  repeat split; (assumption || (rewrite Z.eqb_sym; assumption)).
Qed.

Lemma firstAccepted_uri types :
  firstAccepted x types X.None <> X.None
  <-> In (atom x "text/uri-list") types.
Proof.
  destruct atoms_differ as (_ & _ & _ & _ & _ & _ & _ & _ & _ & _ & _ & Huri).
  apply Z.eqb_neq in Huri.
  induction types as [|t rest IH]; simpl.
  - split; [intros H; contradiction H; reflexivity | intros []].
  - unfold canAcceptFileType. simpl. rewrite orb_false_r.
    fold (atom x "text/uri-list").
    destruct (atom x "text/uri-list" =? t) eqn:Ht.
    + apply Z.eqb_eq in Ht. subst t. split; auto.
    + apply Z.eqb_neq in Ht. rewrite IH. split; [auto|].
      intros [Heq | Hin]; [congruence | exact Hin].
Qed.

Lemma firstAccepted_is_uri types :
  firstAccepted x types X.None <> X.None ->
  firstAccepted x types X.None = atom x "text/uri-list".
Proof.
  induction types as [|t rest IH]; simpl.
  - intros H. contradiction H. reflexivity.
  - unfold canAcceptFileType. simpl. rewrite orb_false_r.
    fold (atom x "text/uri-list").
    destruct (atom x "text/uri-list" =? t) eqn:Ht.
    + apply Z.eqb_eq in Ht. auto.
    + exact IH.
Qed.

Let process := processClientMessage x filtered netWmPing indeterminate.

(** An [XdndEnter] message stores the source and negotiates the type. *)
Lemma process_enter self enter :
  xclient_message_type enter = atom x "XdndEnter" ->
  fst (process self enter)
  = set_drop (wrap_ulong (xclient_l0 enter))
             (firstAccepted x (offeredTypes x enter) X.None) self.
Proof.
  destruct atoms_differ as (_ & _ & _ & _ & Hep & Hed & Hel & _).
  intros Hty. unfold process, processClientMessage, xdndEnterBlock,
    xdndDropBlock, xdndLeaveBlock, offeredTypes.
  rewrite Hty, Z.eqb_refl, Hed, Hel. cbn [fst].
  destruct (Z.testbit (xclient_l1 enter) 0); [|reflexivity].
  destruct (_ && _); reflexivity.
Qed.

(** An [XdndPosition] message leaves the window as it is. *)
Lemma process_position self move :
  xclient_message_type move = atom x "XdndPosition" ->
  fst (process self move) = self.
Proof.
  destruct atoms_differ as (_ & _ & _ & _ & _ & _ & _ & Hpe & Hpd & Hpl & _).
  intros Hty. unfold process, processClientMessage, xdndEnterBlock,
    xdndDropBlock, xdndLeaveBlock.
  rewrite Hty, Hpe, Hpd, Hpl. reflexivity.
Qed.

Lemma afterMessages_positions moves : forall self,
  Forall (fun e => xclient_message_type e = atom x "XdndPosition") moves ->
  afterMessages x filtered netWmPing indeterminate self moves = self.
Proof.
  induction moves as [|m rest IH]; intros self Hall; simpl.
  - reflexivity.
  - inversion Hall; subst. fold process.
    rewrite process_position by assumption.
    apply IH. assumption.
Qed.

(** C5: when [processEvent] handles an [XdndDrop] message it sends exactly
    one [XdndFinished] message, to the drop source, with flag 1 and action
    [XdndActionCopy] when a file type was accepted and with flag 0 and
    action [None] otherwise, and then the drop source and the accepted file
    type are reset.  A file type is accepted exactly when the source offered
    the [text/uri-list] atom with its [XdndEnter] message. *)
Theorem xdndDrop_sends_one_finished (drop : XClientMessageEvent) :
  xclient_message_type drop = atom x "XdndDrop" ->
  (forall self,
     let accepted := negb (m_acceptedFileType self =? X.None) in
     filter (isFinished x) (snd (process self drop))
     = [XSendEvent (m_dropSource self) false NoEventMask
          {| xclient_window := m_dropSource self;
             xclient_message_type := atom x "XdndFinished";
             xclient_format := 32;
             xclient_l0 := m_window self;
             xclient_l1 := if accepted then 1 else 0;
             xclient_l2 :=
               if accepted then atom x "XdndActionCopy" else X.None;
             xclient_l3 := indeterminate;
             xclient_l4 := indeterminate |}]
     /\ last (snd (process self drop)) XFlush
        = XSendEvent (m_dropSource self) false NoEventMask
            (xdndFinished x indeterminate self)
     /\ fst (process self drop) = set_drop 0 X.None self)
  /\ (forall self enter moves,
        xclient_message_type enter = atom x "XdndEnter" ->
        Forall (fun e => xclient_message_type e = atom x "XdndPosition")
               moves ->
        let self1 := afterMessages x filtered netWmPing indeterminate self
                       (enter :: moves) in
        m_dropSource self1 = wrap_ulong (xclient_l0 enter)
        /\ (m_acceptedFileType self1 <> X.None
            <-> In (atom x "text/uri-list") (offeredTypes x enter))
        /\ (m_acceptedFileType self1 <> X.None ->
            m_acceptedFileType self1 = atom x "text/uri-list")).
Proof.
  destruct atoms_differ as (Hdw & Hdp & Hde & Hdl & _).
  intros Hty. split.
  - intros self accepted.
    unfold process, processClientMessage, wmProtocolsBlock,
      xdndPositionBlock, xdndEnterBlock, xdndDropBlock, xdndLeaveBlock.
    rewrite Hty, Hdw, Hdp, Hde, Hdl, Z.eqb_refl.
    replace (if negb filtered then [] else []) with (@nil Effect)
      by (destruct filtered; reflexivity).
    cbn [app fst snd]. unfold accepted, xdndFinished.
    destruct (negb (m_acceptedFileType self =? X.None)); cbn;
      rewrite Z.eqb_refl; repeat split.
  - intros self enter moves He Hmoves self1. unfold self1. simpl.
    rewrite afterMessages_positions by exact Hmoves.
    fold process. rewrite process_enter by exact He. cbn.
    split; [reflexivity|]. split.
    + apply firstAccepted_uri.
    + apply firstAccepted_is_uri.
Qed.

End DndFacts.

(** ** The music stream *)

Section MusicFacts.

Import Music.

Context {F : Type} `{SoundFile F}.

Lemma resize_length n (v : list Z) : length (resize n v) = n.
Proof.
  unfold resize. rewrite length_app, length_firstn, repeat_length. lia.
Qed.

Lemma store_length (got buffer : list Z) :
  (length got <= length buffer)%nat ->
  length (store got buffer) = length buffer.
Proof.
  intros Hle. unfold store. rewrite length_app, length_skipn. lia.
Qed.

Lemma store_firstn (got buffer : list Z) :
  firstn (length got) (store got buffer) = got.
Proof.
  unfold store. rewrite firstn_app, Nat.sub_diag, firstn_all. simpl.
  apply app_nil_r.
Qed.

(** C8: after [initialize] the buffer holds one second of samples (the
    sample rate times the channel count); [onGetData] reads at most that
    many samples from the file into the buffer, makes the chunk point to
    the buffer with the number of samples read as its count, and returns
    [true] exactly when that count is not zero and the sample offset of the
    file is below its sample count. *)
Theorem onGetData_reads_one_chunk (m : Music F) (continue : bool)
    (data : Chunk) (m' : Music F) :
  (forall f maxCount, 0 <= maxCount ->
     Z.of_nat (length (fst (read f maxCount))) <= maxCount) ->
  0 <= getSampleRate (m_file m) * getChannelCount (m_file m) ->
  onGetData (initialize m) = (continue, data, m') ->
  let oneSecond := getSampleRate (m_file m) * getChannelCount (m_file m) in
  let got := fst (read (m_file m) (wrap_uint oneSecond)) in
  m_file m' = snd (read (m_file m) (wrap_uint oneSecond))
  /\ sampleCount data = Z.of_nat (length got)
  /\ 0 <= sampleCount data <= oneSecond
  /\ samples data = m_samples m'
  /\ firstn (length got) (samples data) = got
  /\ Z.of_nat (length (m_samples m')) = wrap_uint oneSecond
  /\ (continue = true
      <-> sampleCount data <> 0
          /\ getSampleOffset (m_file m') < getSampleCount (m_file m')).
Proof.
  intros Hread Hpos Hrun oneSecond got.
  pose proof (wrap_uint_le _ Hpos) as Hwrap.
  unfold onGetData, initialize in Hrun. cbn [m_file m_samples] in Hrun.
  rewrite resize_length, Z2Nat.id in Hrun by lia.
  fold oneSecond in Hrun, Hwrap.
  pose proof (Hread (m_file m) (wrap_uint oneSecond) (proj1 Hwrap)) as Hle.
  destruct (read (m_file m) (wrap_uint oneSecond)) as [got' file] eqn:Hr.
  subst got. cbn [fst snd] in *.
  inversion Hrun; subst; clear Hrun. cbn [m_file m_samples samples sampleCount].
  repeat split; try lia.
  - apply store_firstn.
  - rewrite store_length; rewrite resize_length; lia.
Qed.

End MusicFacts.

(** ** The properties on concrete inputs *)

Section Examples.

Import EWMH Focus Dnd Music Samples.

Lemma ewmhSupported_computed_once_witness :
  wmCheckHolds (sampleServer "i3" true [])
  /\ laterCalls [bareServer; sampleServer "i3" true []; bareServer]
       (snd (ewmhSupported (sampleServer "i3" true []) initialStatics))
     = [true; true; true]
  /\ fst (ewmhSupported bareServer initialStatics) = false.
Proof.
  destruct (ewmhSupported_computed_once (sampleServer "i3" true [])
              [bareServer; sampleServer "i3" true []; bareServer]
              _ _ eq_refl) as [Hiff [Hlater _]].
  split; [apply Hiff; reflexivity|].
  split; [exact Hlater | reflexivity].
Defined.

Lemma reachable_initialStatics : reachable initialStatics.
Proof. intros _. reflexivity. Qed.

Lemma getPosition_three_strategies_witness :
  fst (getPosition 5 (sampleServer "i3" true []) initialStatics sampleWindow)
  = Some (104, 224)
  /\ fst (getPosition 5 (sampleServer "Mutter" true []) initialStatics
            sampleWindow)
     = Some (100, 200)
  /\ fst (getPosition 5 (sampleServer "Mutter" false []) initialStatics
            sampleWindow)
     = Some (99, 199).
Proof.
  split; [|split].
  - destruct (getPosition_three_strategies 5 (sampleServer "i3" true [])
                initialStatics _ sampleWindow _ 104 224
                reachable_initialStatics eq_refl eq_refl) as [Hone _].
    rewrite Hone; [reflexivity|].
    split; [reflexivity | right; right; left; reflexivity].
  - destruct (getPosition_three_strategies 5 (sampleServer "Mutter" true [])
                initialStatics _ sampleWindow _ 104 224
                reachable_initialStatics eq_refl eq_refl) as [_ [Htwo _]].
    destruct (Htwo 4 24) as [_ Hexact].
    + intros [_ Hin]. simpl in Hin. intuition discriminate.
    + split; [reflexivity|]. unfold frameExtentsAvailable. cbn.
      repeat split; discriminate.
    + rewrite Hexact; [reflexivity | | | | ]; unfold fitsInt; lia.
  - destruct (getPosition_three_strategies 5 (sampleServer "Mutter" false [])
                initialStatics _ sampleWindow _ 104 224
                reachable_initialStatics eq_refl eq_refl) as [_ [_ Hthree]].
    rewrite (Hthree 20 1%nat); [reflexivity | | | | lia].
    + intros [_ Hin]. simpl in Hin. intuition discriminate.
    + intros [left [top [_ [Hatom _]]]]. apply Hatom. reflexivity.
    + apply fa_up; [cbn; discriminate | apply fa_here; reflexivity].
Defined.

Lemma requestFocus_grabs_or_marks_urgent_witness :
  existsb changesFocus
    (fst (requestFocus (sampleServer "i3" true []) initialStatics
            [sampleWindow; window8] sampleWindow)) = true
  /\ exists flags,
       fst (requestFocus (sampleServer "i3" true []) initialStatics
              [sampleWindow; window8] window8)
       = [XSetWMHints 8 flags]
       /\ Z.testbit flags 8 = true.
Proof.
  split.
  - destruct (requestFocus_grabs_or_marks_urgent
                (sampleServer "i3" true []) initialStatics _
                [sampleWindow; window8] sampleWindow _ eq_refl)
      as [Hiff _].
    apply Hiff. split; [|reflexivity].
    exists window8. split; [right; left; reflexivity | reflexivity].
  - destruct (requestFocus_grabs_or_marks_urgent
                (sampleServer "i3" true []) initialStatics _
                [sampleWindow; window8] window8 _ eq_refl)
      as [_ [_ Hurgent]].
    destruct (Hurgent IsUnviewable eq_refl) as [flags [Htr [Hbit _]]].
    + intros [_ Hv]. discriminate.
    + exists flags. split; assumption.
Defined.

Lemma xdndDrop_sends_one_finished_witness :
  let x := sampleServer "i3" true [] in
  let w := afterMessages x false 0 0 sampleWindow [sampleEnter; sampleMove] in
  m_acceptedFileType w = 511
  /\ filter (isFinished x) (snd (processClientMessage x false 0 0 w sampleDrop))
     = [XSendEvent 90 false NoEventMask
          {| xclient_window := 90; xclient_message_type := 505;
             xclient_format := 32; xclient_l0 := 7; xclient_l1 := 1;
             xclient_l2 := 507; xclient_l3 := 0; xclient_l4 := 0 |}]
  /\ m_acceptedFileType (fst (processClientMessage x false 0 0 w sampleDrop))
     = X.None.
Proof.
  intros x w.
  destruct (xdndDrop_sends_one_finished x false 0 0 eq_refl sampleDrop
              eq_refl) as [Hdrop Henter].
  destruct (Henter sampleWindow sampleEnter [sampleMove] eq_refl) as
    [_ [Hiff Huri]].
  { repeat constructor. }
  destruct (Hdrop w) as [Hone [_ Hreset]].
  split; [|split].
  - apply Huri, Hiff. right. left. reflexivity.
  - rewrite Hone. reflexivity.
  - rewrite Hreset. reflexivity.
Defined.

Lemma MemoryFile_read_bounded (f : MemoryFile) (maxCount : Z) :
  0 <= maxCount ->
  Z.of_nat (length (fst (read f maxCount))) <= maxCount.
Proof.
  intros Hpos. cbn. rewrite length_firstn. lia.
Qed.

Lemma onGetData_reads_one_chunk_witness :
  let '(continue, data, m') := onGetData (initialize sampleMusic) in
  sampleCount data = 4
  /\ samples data = [12; 13; 14; 15]
  /\ continue = false.
Proof.
  destruct (onGetData (initialize sampleMusic)) as [[continue data] m']
    eqn:Hrun.
  destruct (onGetData_reads_one_chunk sampleMusic continue data m'
              MemoryFile_read_bounded ltac:(cbn; lia) Hrun)
    as [Hfile [Hcount [_ [_ [_ [_ Hiff]]]]]].
  split; [|split].
  - rewrite Hcount. reflexivity.
  - vm_compute in Hrun. inversion Hrun. reflexivity.
  - destruct continue; [|reflexivity].
    destruct Hiff as [Hif _]. destruct (Hif eq_refl) as [_ Hlt].
    rewrite Hfile in Hlt. vm_compute in Hlt. discriminate.
Defined.

End Examples.

(** * Further properties *)

(** ** What [processEvents] forwards and what it leaves *)

Section SubsequenceFacts.

Import KeyRepeat.

Context {A : Type}.

Lemma subsequence_refl (l : list A) : subsequence l l.
Proof. induction l; constructor; assumption. Qed.

Lemma subsequence_trans (l1 l2 l3 : list A) :
  subsequence l1 l2 -> subsequence l2 l3 -> subsequence l1 l3.
Proof.
  intros H12 H23. revert l1 H12.
  induction H23 as [|a l2 l3 H IH|a l2 l3 H IH]; intros l1 H12.
  - exact H12.
  - inversion H12; subst.
    + apply sub_keep. apply IH. assumption.
    + apply sub_skip. apply IH. assumption.
  - apply sub_skip. apply IH. exact H12.
Qed.

Lemma subsequence_app_l (l l1 l2 : list A) :
  subsequence l1 l2 -> subsequence (l ++ l1) (l ++ l2).
Proof. intros H. induction l; simpl; [exact H | constructor; assumption]. Qed.

Lemma subsequence_In (l1 l2 : list A) a :
  subsequence l1 l2 -> In a l1 -> In a l2.
Proof.
  induction 1 as [|b l1 l2 H IH|b l1 l2 H IH]; simpl; intros Hin.
  - exact Hin.
  - destruct Hin; [left; assumption | right; auto].
  - right. auto.
Qed.

Lemma subsequence_filter (f : A -> bool) (l : list A) :
  subsequence (filter f l) l.
Proof.
  induction l as [|a l IH]; simpl; [constructor|].
  destruct (f a); constructor; exact IH.
Qed.

End SubsequenceFacts.

Section ProcessEventsGeneral.

Import EventQueue KeyRepeat.

Variable predicate : XEvent -> bool.
Variable keyRepeat : bool.

Let rejected (e : XEvent) : bool := negb (predicate e).

(** The inner loop, whatever the timestamps are. *)
Lemma repeatLoop_general fuel : forall event queue forwarded,
  (length queue <= fuel)%nat ->
  exists event' processThisEvent queue' forwarded' more,
    repeatLoop fuel predicate keyRepeat event queue forwarded
    = Some (event', processThisEvent, queue', forwarded')
    /\ filter rejected queue' = filter rejected queue
    /\ (length queue' <= length queue)%nat
    /\ (if processThisEvent then forwarded' ++ [event'] else forwarded')
       = forwarded ++ more
    /\ subsequence (more ++ filter predicate queue')
                   (event :: filter predicate queue).
Proof.
  induction fuel as [|fuel IH]; intros event queue forwarded Hlen.
  - destruct queue as [|e q]; [|simpl in Hlen; lia].
    exists event, true, [], forwarded, [event]. simpl.
    destruct (ev_type event =? KeyRelease);
      repeat split; auto; apply subsequence_refl.
  - cbn [repeatLoop].
    destruct (ev_type event =? KeyRelease).
    + destruct (XCheckIfEvent predicate queue) as [[nextEvent queue']|] eqn:Hq.
      * destruct (XCheckIfEvent_some predicate _ _ _ Hq) as [Hf [Hr Hl]].
        fold rejected in Hr. rewrite Hf.
        destruct (isRepeat event nextEvent).
        -- destruct keyRepeat.
           ++ exists nextEvent, true, queue', forwarded, [nextEvent].
              repeat split; auto; try lia.
              apply sub_skip, subsequence_refl.
           ++ exists event, false, queue', forwarded, [].
              repeat split; auto; try lia.
              ** rewrite app_nil_r. reflexivity.
              ** apply sub_skip, sub_skip, subsequence_refl.
        -- destruct (IH nextEvent queue' (forwarded ++ [event]))
             as (ev' & b & q'' & fwd' & more & E & Hr' & Hl' & Hfwd & Hsub);
             [lia|].
           exists ev', b, q'', fwd', (event :: more). rewrite E.
           repeat split; auto; try congruence; try lia.
           ++ rewrite Hfwd, <- app_assoc. reflexivity.
           ++ simpl. apply sub_keep. exact Hsub.
      * destruct (XCheckIfEvent_none predicate _ Hq) as [Hf Hr].
        exists event, true, queue, forwarded, [event].
        repeat split; auto. apply subsequence_refl.
    + exists event, true, queue, forwarded, [event].
      repeat split; auto. apply subsequence_refl.
Qed.

(** The outer loop returns; it leaves the rejected events, in order, and
    what it forwards is a subsequence of the accepted events. *)
Lemma processLoop_general fuel : forall queue forwarded,
  (length queue <= fuel)%nat ->
  exists more,
    processLoop fuel predicate keyRepeat queue forwarded
    = Some (filter rejected queue, forwarded ++ more)
    /\ subsequence more (filter predicate queue).
Proof.
  induction fuel as [|fuel IH]; intros queue forwarded Hlen.
  - destruct queue as [|e q]; [|simpl in Hlen; lia].
    exists []. simpl. rewrite app_nil_r. split; [reflexivity | constructor].
  - cbn [processLoop].
    destruct (XCheckIfEvent predicate queue) as [[event queue']|] eqn:Hq.
    + destruct (XCheckIfEvent_some predicate _ _ _ Hq) as [Hf [Hr Hl]].
      fold rejected in Hr.
      destruct (repeatLoop_general fuel event queue' forwarded)
        as (ev' & b & q'' & fwd' & more1 & E & Hr' & Hl' & Hfwd & Hsub);
        [lia|].
      rewrite E, Hfwd.
      destruct (IH q'' (forwarded ++ more1)) as (more2 & E2 & Hsub2); [lia|].
      exists (more1 ++ more2). rewrite E2, Hr', Hr, Hf, app_assoc.
      split; [reflexivity|].
      eapply subsequence_trans; [|exact Hsub].
      apply subsequence_app_l. exact Hsub2.
    + destruct (XCheckIfEvent_none predicate _ Hq) as [Hf Hr].
      fold rejected in Hr.
      exists []. rewrite Hf, Hr, app_nil_r.
      split; [reflexivity | constructor].
Qed.

End ProcessEventsGeneral.

Section ProcessEventsMore.

Import EventQueue KeyRepeat.

Lemma processEvents_general
    (ClipboardImpl_processEvents : list XEvent -> list XEvent)
    (wmProtocols : Atom) (w : WindowImplX11) (queue : list XEvent) :
  exists forwarded,
    processEvents ClipboardImpl_processEvents wmProtocols w queue
    = Some (ClipboardImpl_processEvents
              (filter (fun e => negb (checkEvent wmProtocols e (m_window w)))
                      queue),
            forwarded)
    /\ subsequence forwarded
         (filter (fun e => checkEvent wmProtocols e (m_window w)) queue).
Proof.
  unfold processEvents.
  destruct (processLoop_general
              (fun e => checkEvent wmProtocols e (m_window w))
              (m_keyRepeat w) (length queue) queue [] (Nat.le_refl _))
    as (more & E & Hsub).
  exists more. rewrite E. split; [reflexivity | exact Hsub].
Qed.

(** X1: [processEvents] always returns, whatever the queued events are
    and whatever the clipboard does.  When its loop ends the queue holds,
    in order, exactly the events that [checkEvent] does not select for
    the window, and that is the queue the clipboard's [processEvents] is
    called on.  The events it gives to [processEvent] are a subsequence
    of the selected ones: no event is forwarded twice or out of order,
    and none that [checkEvent] does not select. *)
Theorem processEvents_forwards_subsequence
    (ClipboardImpl_processEvents : list XEvent -> list XEvent)
    (wmProtocols : Atom) (w : WindowImplX11) (queue : list XEvent) :
  exists forwarded,
    processEvents ClipboardImpl_processEvents wmProtocols w queue
    = Some (ClipboardImpl_processEvents
              (filter (fun e => negb (checkEvent wmProtocols e (m_window w)))
                      queue),
            forwarded)
    /\ subsequence forwarded
         (filter (fun e => checkEvent wmProtocols e (m_window w)) queue)
    /\ subsequence forwarded queue
    /\ Forall (fun e => checkEvent wmProtocols e (m_window w) = true)
              forwarded.
Proof.
  destruct (processEvents_general ClipboardImpl_processEvents wmProtocols w
              queue) as (fwd & E & Hsub).
  exists fwd. split; [exact E|]. split; [exact Hsub|]. split.
  - eapply subsequence_trans; [exact Hsub | apply subsequence_filter].
  - apply Forall_forall. intros e He.
    apply (subsequence_In _ _ _ Hsub) in He.
    apply filter_In in He. apply He.
Qed.

(** X2: a [WM_PROTOCOLS] client message for another window (its close
    request or ping) is never given to [processEvent] by this window's
    [processEvents], and it is still in the queue when the clipboard's
    [processEvents] is called at the end. *)
Theorem processEvents_leaves_other_wm_protocols
    (ClipboardImpl_processEvents : list XEvent -> list XEvent)
    (wmProtocols : Atom) (w : WindowImplX11)
    (queue rest forwarded : list XEvent) (e : XEvent) :
  processEvents ClipboardImpl_processEvents wmProtocols w queue
  = Some (rest, forwarded) ->
  In e queue ->
  ev_type e = ClientMessage ->
  ev_message_type e = wmProtocols ->
  ev_window e <> m_window w ->
  let left :=
    filter (fun e => negb (checkEvent wmProtocols e (m_window w))) queue in
  ~ In e forwarded
  /\ rest = ClipboardImpl_processEvents left
  /\ In e left.
Proof.
  intros Hrun Hin Hty Hmsg Hwin left.
  destruct (processEvents_general ClipboardImpl_processEvents wmProtocols w
              queue) as (fwd & E & Hsub).
  rewrite Hrun in E. inversion E as [[Hrest Hfwd]]. clear E.
  assert (Hsel : checkEvent wmProtocols e (m_window w) = false).
  { unfold checkEvent. apply Z.eqb_neq in Hwin.
    rewrite Hwin, Hty, Hmsg, !Z.eqb_refl. reflexivity. }
  split; [|split].
  - intros Hf. subst fwd.
    apply (subsequence_In _ _ _ Hsub) in Hf.
    apply filter_In in Hf. destruct Hf as [_ Hf]. congruence.
  - reflexivity.
  - apply filter_In. split; [exact Hin|]. rewrite Hsel. reflexivity.
Qed.

End ProcessEventsMore.

Section HeldKey.

Import EventQueue KeyRepeat.

Variable w : Window.
Variable keycode : Z.

Let press := keyEventOf w keycode KeyPress.
Let release := keyEventOf w keycode KeyRelease.

Lemma release_press_pair t : isKeyRepeatPair (release t) (press t) = true.
Proof.
  unfold isKeyRepeatPair, release, press, keyEventOf. cbn.
  rewrite Z.eqb_refl, Z.leb_refl. cbn. apply Z.leb_le. lia.
Qed.

Lemma dropRepeats_repeats keyRepeat stop repeats :
  dropRepeats keyRepeat
    (flat_map (fun t => [release t; press t]) repeats ++ [release stop])
  = (if keyRepeat then map press repeats else []) ++ [release stop].
Proof.
  induction repeats as [|t ts IH].
  - destruct keyRepeat; reflexivity.
  - cbn [flat_map app]. rewrite dropRepeats_cons, release_press_pair, IH.
    destruct keyRepeat; reflexivity.
Qed.

Lemma heldKey_selected wmProtocols start repeats stop :
  filter (fun e => checkEvent wmProtocols e w)
         (heldKey w keycode start repeats stop)
  = heldKey w keycode start repeats stop
  /\ filter (fun e => negb (checkEvent wmProtocols e w))
            (heldKey w keycode start repeats stop) = [].
Proof.
  assert (Hall : Forall (fun e => checkEvent wmProtocols e w = true)
                        (heldKey w keycode start repeats stop)).
  { unfold heldKey. constructor.
    - unfold checkEvent. cbn. rewrite Z.eqb_refl. reflexivity.
    - apply Forall_app. split.
      + apply Forall_flat_map. apply Forall_forall. intros t _.
        repeat constructor; unfold checkEvent; cbn; rewrite Z.eqb_refl;
          reflexivity.
      + repeat constructor. unfold checkEvent. cbn. rewrite Z.eqb_refl.
        reflexivity. }
  induction Hall as [|e l He _ [IH1 IH2]]; [split; reflexivity|].
  simpl. rewrite He. simpl. split; congruence.
Qed.

End HeldKey.

Section HeldKeyTheorem.

Import EventQueue KeyRepeat.

(** X3: a key that is pressed, held through any number of repeats and
    released reaches [processEvent] as one press and one release when key
    repeat is disabled, and as the press, one press per repeat and the
    release when it is enabled; no release of a repeat is ever
    forwarded.  The loop leaves nothing in the queue: the clipboard's
    [processEvents] is called on the empty queue. *)
Theorem processEvents_held_key
    (ClipboardImpl_processEvents : list XEvent -> list XEvent)
    (wmProtocols : Atom) (enabled : bool)
    (w : WindowImplX11) (keycode : Z) (start stop : Time)
    (repeats : list Time) :
  0 <= start < 2 ^ 32 -> 0 <= stop < 2 ^ 32 ->
  Forall (fun t => 0 <= t < 2 ^ 32) repeats ->
  processEvents ClipboardImpl_processEvents wmProtocols
    (setKeyRepeatEnabled enabled w)
    (heldKey (m_window w) keycode start repeats stop)
  = Some (ClipboardImpl_processEvents [],
          keyEventOf (m_window w) keycode KeyPress start
          :: (if enabled
              then map (keyEventOf (m_window w) keycode KeyPress) repeats
              else [])
          ++ [keyEventOf (m_window w) keycode KeyRelease stop]).
Proof.
  intros Hstart Hstop Hrepeats. unfold processEvents.
  cbn [setKeyRepeatEnabled set_keyRepeat m_window m_keyRepeat].
  rewrite processLoop_spec.
  - destruct (heldKey_selected (m_window w) keycode wmProtocols start
                repeats stop) as [Hsel Hrej].
    rewrite Hsel, Hrej. cbn [app]. f_equal. f_equal.
    unfold heldKey. rewrite dropRepeats_not_release by (cbn; discriminate).
    f_equal. apply dropRepeats_repeats.
  - apply Nat.le_refl.
  - unfold heldKey. constructor; [exact Hstart|].
    apply Forall_app. split.
    + apply Forall_flat_map.
      eapply Forall_impl; [|exact Hrepeats].
      intros t Ht.
      constructor; [exact Ht | constructor; [exact Ht | constructor]].
    + constructor; [exact Hstop | constructor].
Qed.

End HeldKeyTheorem.

(** ** The video mode and the monitor *)

Section VideoModeMore.

Import VideoModeSwitch Monitor.

Variable VideoMode_eq : VideoMode -> VideoMode -> bool.
Variable desktopMode : VideoMode.

(** What a switch does, read off [setVideoMode]. *)
Lemma setVideoMode_switch this x mode self fullscreenWindow :
  canSwitch VideoMode_eq desktopMode x mode ->
  exists res outputInfo crtcInfo xRandMode,
    XRRGetScreenResources x = Some res
    /\ XRRGetOutputInfo x (getOutputPrimary x res) = Some outputInfo
    /\ output_connection outputInfo <> RR_Disconnected
    /\ XRRGetCrtcInfo x (output_crtc outputInfo) = Some crtcInfo
    /\ setVideoMode VideoMode_eq desktopMode this x mode self fullscreenWindow
       = (set_oldVideoMode (crtc_mode crtcInfo) (output_crtc outputInfo) self,
          Some this,
          [XRRSetCrtcConfig (output_crtc outputInfo) (crtc_x crtcInfo)
             (crtc_y crtcInfo) xRandMode (crtc_rotation crtcInfo)
             [getOutputPrimary x res]]).
Proof.
  intros (Hneq & Hext & res & oi & ci & Hres & Hoi & Hconn & Hci & Hmode).
  destruct (findMode (crtc_rotation ci) (size_x mode, size_y mode)
                     (res_modes res)) as [xRandMode|] eqn:Hfind.
  2:{ apply findMode_matches in Hfind. congruence. }
  exists res, oi, ci, xRandMode. repeat split; auto.
  unfold setVideoMode, checkXRandR. rewrite Hneq, Hext. cbn [negb].
  rewrite Hres, Hoi. apply Z.eqb_neq in Hconn. rewrite Hconn, Hci, Hfind.
  reflexivity.
Qed.

(** X4: when [setVideoMode] has switched, a [resetVideoMode] that the
    server answers puts back, on the crtc that was switched, the mode that
    crtc showed before the switch, and clears the record of the fullscreen
    window. *)
Theorem resetVideoMode_restores_saved_mode (this : Ptr) (x x' : XRandR)
    (mode : VideoMode) (self self' : WindowImplX11)
    (fullscreenWindow fullscreenWindow' : option Ptr) (tr : list Effect)
    (res : XRRScreenResources) (outputInfo : XRROutputInfo)
    (crtcInfo crtcInfo' : XRRCrtcInfo) (res' : XRRScreenResources) :
  setVideoMode VideoMode_eq desktopMode this x mode self fullscreenWindow
  = (self', fullscreenWindow', tr) ->
  changesVideoMode tr = true ->
  XRRGetScreenResources x = Some res ->
  XRRGetOutputInfo x (getOutputPrimary x res) = Some outputInfo ->
  XRRGetCrtcInfo x (output_crtc outputInfo) = Some crtcInfo ->
  XQueryExtension_RANDR x' = true ->
  XRRGetScreenResources x' = Some res' ->
  XRRGetCrtcInfo x' (output_crtc outputInfo) = Some crtcInfo' ->
  resetVideoMode this x' self' fullscreenWindow'
  = (None,
     [XRRSetCrtcConfig (output_crtc outputInfo) (crtc_x crtcInfo')
        (crtc_y crtcInfo') (crtc_mode crtcInfo) (crtc_rotation crtcInfo')
        [getOutputPrimary x' res']]).
Proof.
  intros Hrun Hchg Hres Hoi Hci Hext' Hres' Hci'.
  unfold setVideoMode, checkXRandR in Hrun.
  destruct (VideoMode_eq mode desktopMode);
    [inversion Hrun; subst; discriminate|].
  destruct (XQueryExtension_RANDR x); cbn [negb] in Hrun;
    [|inversion Hrun; subst; discriminate].
  rewrite Hres, Hoi in Hrun.
  destruct (output_connection outputInfo =? RR_Disconnected);
    [inversion Hrun; subst; discriminate|].
  rewrite Hci in Hrun.
  destruct (findMode _ _ _); [|inversion Hrun; subst; discriminate].
  inversion Hrun; subst; clear Hrun.
  unfold resetVideoMode, checkXRandR. rewrite Nat.eqb_refl, Hext'.
  cbn [negb m_oldRRCrtc m_oldVideoMode set_oldVideoMode].
  rewrite Hres', Hci'. reflexivity.
Qed.

(** X5: [getPrimaryMonitorPosition] gives (0, 0) unless the screen
    resources, the info of an output that is not disconnected and the info
    of its crtc can be read; and whenever [setVideoMode] switches the
    mode, it switches the crtc at exactly that position. *)
Theorem getPrimaryMonitorPosition_is_switched_crtc (this : Ptr) (x : XRandR)
    (mode : VideoMode) (self self' : WindowImplX11)
    (fullscreenWindow fullscreenWindow' : option Ptr) (tr : list Effect) :
  (fst (getPrimaryMonitorPosition x) <> (0, 0) ->
   exists res outputInfo crtcInfo,
     XRRGetScreenResources x = Some res
     /\ XRRGetOutputInfo x (getOutputPrimary x res) = Some outputInfo
     /\ output_connection outputInfo <> RR_Disconnected
     /\ XRRGetCrtcInfo x (output_crtc outputInfo) = Some crtcInfo
     /\ fst (getPrimaryMonitorPosition x) = (crtc_x crtcInfo, crtc_y crtcInfo))
  /\ (setVideoMode VideoMode_eq desktopMode this x mode self fullscreenWindow
      = (self', fullscreenWindow', tr) ->
      changesVideoMode tr = true ->
      exists crtc xRandMode rotation outputs,
        tr = [XRRSetCrtcConfig crtc (fst (fst (getPrimaryMonitorPosition x)))
                (snd (fst (getPrimaryMonitorPosition x))) xRandMode rotation
                outputs]
        /\ snd (getPrimaryMonitorPosition x) = []).
Proof.
  split.
  - unfold getPrimaryMonitorPosition.
    destruct (XRRGetScreenResources x) as [res|];
      [|intros H; contradiction H; reflexivity].
    destruct (XRRGetOutputInfo x (getOutputPrimary x res)) as [oi|] eqn:Hoi;
      [|intros H; contradiction H; reflexivity].
    destruct (output_connection oi =? RR_Disconnected) eqn:Hconn;
      [intros H; contradiction H; reflexivity|].
    destruct (XRRGetCrtcInfo x (output_crtc oi)) as [ci|] eqn:Hci;
      [|intros H; contradiction H; reflexivity].
    intros _. exists res, oi, ci. apply Z.eqb_neq in Hconn.
    repeat split; auto.
  - intros Hrun Hchg.
    unfold setVideoMode, checkXRandR in Hrun.
    destruct (VideoMode_eq mode desktopMode);
      [inversion Hrun; subst; discriminate|].
    destruct (XQueryExtension_RANDR x); cbn [negb] in Hrun;
      [|inversion Hrun; subst; discriminate].
    unfold getPrimaryMonitorPosition.
    destruct (XRRGetScreenResources x) as [res|];
      [|inversion Hrun; subst; discriminate].
    destruct (XRRGetOutputInfo x (getOutputPrimary x res)) as [oi|];
      [|inversion Hrun; subst; discriminate].
    destruct (output_connection oi =? RR_Disconnected);
      [inversion Hrun; subst; discriminate|].
    destruct (XRRGetCrtcInfo x (output_crtc oi)) as [ci|];
      [|inversion Hrun; subst; discriminate].
    destruct (findMode _ _ _) as [m|]; [|inversion Hrun; subst; discriminate].
    inversion Hrun; subst. cbn [fst snd app].
    eexists _, _, _, _. split; reflexivity.
Qed.

End VideoModeMore.

(** ** Client messages: a whole drag, close requests and pings *)

Section DndMore.

Import Dnd.

Variable x : XServer.
Variable filtered : bool.
Variable netWmPing : Atom.
Variable indeterminate : Z.

Hypothesis wellFormed : atomsWellFormed x = true.

Let process := processClientMessage x filtered netWmPing indeterminate.

Lemma distinct_injective (f : string -> Z) (names : list string) :
  distinct (map f names) = true ->
  forall a b, In a names -> In b names -> f a = f b -> a = b.
Proof.
  induction names as [|n rest IH]; simpl; intros Hd a b Ha Hb Hf;
    [contradiction|].
  apply andb_true_iff in Hd. destruct Hd as [Hn Hrest].
  apply negb_true_iff in Hn.
  assert (Hnot : forall c, In c rest -> f n <> f c).
  { intros c Hc Heq.
    assert (existsb (Z.eqb (f n)) (map f rest) = true).
    { apply existsb_exists. exists (f c). split.
      - apply in_map. exact Hc.
      - apply Z.eqb_eq. exact Heq. }
    congruence. }
  destruct Ha as [Ha|Ha], Hb as [Hb|Hb]; subst.
  - reflexivity.
  - exfalso. apply (Hnot b Hb). exact Hf.
  - exfalso. apply (Hnot a Ha). symmetry. exact Hf.
  - apply IH; assumption.
Qed.

Lemma message_atoms_differ a b :
  In a messageNames -> In b messageNames -> a <> b ->
  (atom x a =? atom x b) = false.
Proof.
  intros Ha Hb Hab. apply Z.eqb_neq. intros Heq. apply Hab.
  pose proof wellFormed as Hw. unfold atomsWellFormed in Hw.
  apply andb_true_iff in Hw. destruct Hw as [Hd _].
  exact (distinct_injective (atom x) messageNames Hd a b Ha Hb Heq).
Qed.

Ltac differ :=
  apply message_atoms_differ;
  [ unfold messageNames; simpl; tauto
  | unfold messageNames; simpl; tauto
  | discriminate ].

(** What [XdndPosition] is answered with. *)
Lemma process_position_reply self move :
  xclient_message_type move = atom x "XdndPosition" ->
  process self move
  = (self,
     [XSendEvent (m_dropSource self) false 0
        {| xclient_window := m_dropSource self;
           xclient_message_type := atom x "XdndStatus";
           xclient_format := 32;
           xclient_l0 := m_window self;
           xclient_l1 :=
             if negb (m_acceptedFileType self =? X.None) then 1 else 0;
           xclient_l2 := 0;
           xclient_l3 := 0;
           xclient_l4 := atom x "XdndActionCopy" |}]).
Proof.
  intros Hty. unfold process, processClientMessage, wmProtocolsBlock,
    xdndPositionBlock, xdndEnterBlock, xdndDropBlock, xdndLeaveBlock.
  rewrite Hty, Z.eqb_refl.
  replace (atom x "XdndPosition" =? atom x "WM_PROTOCOLS") with false
    by (symmetry; differ).
  replace (atom x "XdndPosition" =? atom x "XdndEnter") with false
    by (symmetry; differ).
  replace (atom x "XdndPosition" =? atom x "XdndDrop") with false
    by (symmetry; differ).
  replace (atom x "XdndPosition" =? atom x "XdndLeave") with false
    by (symmetry; differ).
  destruct filtered; reflexivity.
Qed.

Lemma process_leave self leave :
  xclient_message_type leave = atom x "XdndLeave" ->
  process self leave = (set_drop 0 X.None self, []).
Proof.
  intros Hty. unfold process, processClientMessage, wmProtocolsBlock,
    xdndPositionBlock, xdndEnterBlock, xdndDropBlock, xdndLeaveBlock.
  rewrite Hty, Z.eqb_refl.
  replace (atom x "XdndLeave" =? atom x "WM_PROTOCOLS") with false
    by (symmetry; differ).
  replace (atom x "XdndLeave" =? atom x "XdndPosition") with false
    by (symmetry; differ).
  replace (atom x "XdndLeave" =? atom x "XdndEnter") with false
    by (symmetry; differ).
  replace (atom x "XdndLeave" =? atom x "XdndDrop") with false
    by (symmetry; differ).
  destruct filtered; reflexivity.
Qed.

Lemma process_drop_state self drop :
  xclient_message_type drop = atom x "XdndDrop" ->
  fst (process self drop) = set_drop 0 X.None self.
Proof.
  intros Hty. unfold process, processClientMessage, wmProtocolsBlock,
    xdndPositionBlock, xdndEnterBlock, xdndDropBlock, xdndLeaveBlock.
  rewrite Hty, Z.eqb_refl.
  replace (atom x "XdndDrop" =? atom x "XdndEnter") with false
    by (symmetry; differ).
  replace (atom x "XdndDrop" =? atom x "XdndLeave") with false
    by (symmetry; differ).
  reflexivity.
Qed.

Lemma process_enter_state self enter :
  xclient_message_type enter = atom x "XdndEnter" ->
  fst (process self enter)
  = set_drop (wrap_ulong (xclient_l0 enter))
             (firstAccepted x (offeredTypes x enter) X.None) self.
Proof.
  intros Hty. unfold process, processClientMessage, xdndEnterBlock,
    xdndDropBlock, xdndLeaveBlock, offeredTypes.
  rewrite Hty, Z.eqb_refl.
  replace (atom x "XdndEnter" =? atom x "XdndDrop") with false
    by (symmetry; differ).
  replace (atom x "XdndEnter" =? atom x "XdndLeave") with false
    by (symmetry; differ).
  cbn [fst].
  destruct (Z.testbit (xclient_l1 enter) 0); [|reflexivity].
  destruct (_ && _); reflexivity.
Qed.

Lemma firstAccepted_none_iff types :
  negb (firstAccepted x types X.None =? X.None)
  = existsb (Z.eqb (atom x "text/uri-list")) types.
Proof.
  pose proof wellFormed as Hw. unfold atomsWellFormed in Hw.
  apply andb_true_iff in Hw. destruct Hw as [_ Huri].
  apply negb_true_iff in Huri.
  induction types as [|t rest IH]; simpl; [reflexivity|].
  unfold canAcceptFileType. simpl. rewrite orb_false_r.
  fold (atom x "text/uri-list").
  destruct (atom x "text/uri-list" =? t) eqn:Ht; simpl; [|exact IH].
  apply Z.eqb_eq in Ht. subst t. rewrite Huri. reflexivity.
Qed.

(** X6: once a drag has left the window or has been dropped, the window
    accepts nothing: the next [XdndPosition] message is answered by an
    [XdndStatus] message whose accept flag is 0, and the window keeps no
    drop source. *)
Theorem xdndPosition_after_end_is_refused (self : WindowImplX11)
    (last move : XClientMessageEvent) :
  xclient_message_type last = atom x "XdndLeave"
  \/ xclient_message_type last = atom x "XdndDrop" ->
  xclient_message_type move = atom x "XdndPosition" ->
  let ended := fst (process self last) in
  m_dropSource ended = 0
  /\ m_acceptedFileType ended = X.None
  /\ exists status,
       snd (process ended move) = [XSendEvent 0 false 0 status]
       /\ xclient_message_type status = atom x "XdndStatus"
       /\ xclient_l0 status = m_window self
       /\ xclient_l1 status = 0.
Proof.
  intros Hlast Hmove ended.
  assert (Hended : ended = set_drop 0 X.None self).
  { unfold ended. destruct Hlast as [Hl|Hd].
    - rewrite process_leave by exact Hl. reflexivity.
    - apply process_drop_state. exact Hd. }
  rewrite Hended, process_position_reply by exact Hmove.
  split; [reflexivity|]. split; [reflexivity|].
  eexists. split; [reflexivity|]. repeat split.
Qed.

(** X7: while a drag is over the window, every [XdndPosition] message is
    answered by one [XdndStatus] message to the source named by the
    [XdndEnter] message, with the window as its first datum, the action
    [XdndActionCopy], and an accept flag that is 1 exactly when the source
    offered [text/uri-list]; what an earlier drag left in the window plays
    no part. *)
Theorem xdndPosition_reports_negotiation (self : WindowImplX11)
    (enter move : XClientMessageEvent) (moves : list XClientMessageEvent) :
  xclient_message_type enter = atom x "XdndEnter" ->
  Forall (fun e => xclient_message_type e = atom x "XdndPosition") moves ->
  xclient_message_type move = atom x "XdndPosition" ->
  let during := afterMessages x filtered netWmPing indeterminate self
                  (enter :: moves) in
  snd (process during move)
  = [XSendEvent (wrap_ulong (xclient_l0 enter)) false 0
       {| xclient_window := wrap_ulong (xclient_l0 enter);
          xclient_message_type := atom x "XdndStatus";
          xclient_format := 32;
          xclient_l0 := m_window self;
          xclient_l1 :=
            if existsb (Z.eqb (atom x "text/uri-list"))
                       (offeredTypes x enter)
            then 1 else 0;
          xclient_l2 := 0;
          xclient_l3 := 0;
          xclient_l4 := atom x "XdndActionCopy" |}].
Proof.
  intros Henter Hmoves Hmove during.
  assert (Hduring : during
                    = set_drop (wrap_ulong (xclient_l0 enter))
                        (firstAccepted x (offeredTypes x enter) X.None) self).
  { unfold during. simpl.
    rewrite afterMessages_positions by assumption.
    apply process_enter_state. exact Henter. }
  rewrite Hduring, process_position_reply by exact Hmove.
  cbn [snd m_dropSource m_acceptedFileType m_window set_drop].
  rewrite firstAccepted_none_iff. reflexivity.
Qed.

(** X8: a [WM_PROTOCOLS] message never changes the window.  When the input
    method does not filter it, it pushes a [Closed] event exactly when its
    format is 32 and its first datum is the [WM_DELETE_WINDOW] atom; a
    [_NET_WM_PING] message (when that atom is known) is answered by sending
    the message itself to the root window with only its window member
    replaced by the root window; a filtered message does nothing. *)
Theorem wmProtocols_close_and_ping (self : WindowImplX11)
    (ev : XClientMessageEvent) :
  xclient_message_type ev = atom x "WM_PROTOCOLS" ->
  fst (process self ev) = self
  /\ (In (pushEvent "Closed") (snd (process self ev))
      <-> filtered = false /\ xclient_format ev = 32
          /\ xclient_l0 ev = atom x "WM_DELETE_WINDOW")
  /\ (filtered = true -> snd (process self ev) = [])
  /\ (filtered = false -> xclient_format ev = 32 ->
      netWmPing <> 0 -> xclient_l0 ev = netWmPing ->
      netWmPing <> atom x "WM_DELETE_WINDOW" ->
      exists pong,
        snd (process self ev)
        = [XSendEvent (DefaultRootWindow x) false
             (Z.lor SubstructureNotifyMask SubstructureRedirectMask) pong]
        /\ xclient_window pong = DefaultRootWindow x
        /\ xclient_message_type pong = xclient_message_type ev
        /\ xclient_format pong = xclient_format ev
        /\ (xclient_l0 pong, xclient_l1 pong, xclient_l2 pong,
            xclient_l3 pong, xclient_l4 pong)
           = (xclient_l0 ev, xclient_l1 ev, xclient_l2 ev,
              xclient_l3 ev, xclient_l4 ev)).
Proof.
  intros Hty.
  assert (Hrun : process self ev
                 = (self, wmProtocolsBlock x filtered netWmPing ev)).
  { unfold process, processClientMessage, xdndPositionBlock,
      xdndEnterBlock, xdndDropBlock, xdndLeaveBlock.
    rewrite Hty.
    replace (atom x "WM_PROTOCOLS" =? atom x "XdndPosition") with false
      by (symmetry; differ).
    replace (atom x "WM_PROTOCOLS" =? atom x "XdndEnter") with false
      by (symmetry; differ).
    replace (atom x "WM_PROTOCOLS" =? atom x "XdndDrop") with false
      by (symmetry; differ).
    replace (atom x "WM_PROTOCOLS" =? atom x "XdndLeave") with false
      by (symmetry; differ).
    cbn. rewrite app_nil_r. reflexivity. }
  rewrite Hrun. cbn [fst snd]. unfold wmProtocolsBlock.
  rewrite Hty, Z.eqb_refl.
  split; [reflexivity|]. split; [|split].
  - destruct filtered; cbn [negb].
    { split; [intros [] | intros [H _]; discriminate]. }
    destruct ((xclient_format ev =? 32)
              && (xclient_l0 ev =? atom x "WM_DELETE_WINDOW")) eqn:Hc.
    + apply andb_true_iff in Hc. destruct Hc as [Hf Hl].
      apply Z.eqb_eq in Hf, Hl.
      split; [intros _; auto | intros _; left; reflexivity].
    + split.
      * intros Hin. exfalso.
        destruct (_ && _ && _) in Hin; simpl in Hin;
          intuition discriminate.
      * intros (_ & Hf & Hl). rewrite Hf, Hl, !Z.eqb_refl in Hc.
        discriminate.
  - intros Hf. rewrite Hf. reflexivity.
  - intros Hf H32 Hnz Hl Hnd. rewrite Hf. cbn [negb].
    rewrite H32, Hl. apply Z.eqb_neq in Hnz, Hnd.
    rewrite Hnd, Hnz, !Z.eqb_refl. cbn.
    eexists. split; [reflexivity|]. rewrite <- Hl. repeat split.
Qed.

End DndMore.

(** ** Input time, focus, buttons and resizing *)

Section RequestsFacts.

Import CursorGrab EWMH Focus Requests.

Lemma set_cursorGrabbed_same w :
  m_cursorGrabbed w = true -> set_cursorGrabbed true w = w.
Proof. destruct w; simpl; intros ->; reflexivity. Qed.

Lemma with_impl_same m : with_impl (impl m) m = m.
Proof. destruct m; reflexivity. Qed.

(** With the flag set, the grab loop leaves the window as it is. *)
Lemma grabTrials_grabbed grabPointer remaining : forall trial w,
  m_cursorGrabbed w = true ->
  fst (grabTrials grabPointer remaining trial w) = w.
Proof.
  induction remaining as [|n IH]; intros trial w Hg; simpl; [reflexivity|].
  destruct (grabPointer trial =? GrabSuccess).
  - apply set_cursorGrabbed_same. exact Hg.
  - specialize (IH (S trial) w Hg).
    destruct (grabTrials grabPointer n (S trial) w). exact IH.
Qed.

Lemma grabTrials_only_grab_sleep grabPointer remaining : forall trial w,
  forallb (fun e => match e with
                    | XGrabPointer _ | sleep _ => true
                    | _ => false
                    end)
          (snd (grabTrials grabPointer remaining trial w)) = true.
Proof.
  induction remaining as [|n IH]; intros trial w; simpl; [reflexivity|].
  destruct (grabPointer trial =? GrabSuccess); [reflexivity|].
  specialize (IH (S trial) w).
  destruct (grabTrials grabPointer n (S trial) w). exact IH.
Qed.

Lemma isGrabOutput_map tr :
  length (filter isGrabOutput (map effect tr)) = grabCount tr.
Proof.
  unfold grabCount. induction tr as [|e tr IH]; simpl; [reflexivity|].
  destruct e; simpl; auto.
Qed.

Lemma isErrOutput_map tr :
  forallb (fun e => match e with
                    | XGrabPointer _ | sleep _ => true
                    | _ => false
                    end) tr = true ->
  filter isErrOutput (map effect tr) = [].
Proof.
  induction tr as [|e tr IH]; simpl; [reflexivity|].
  intros H. apply andb_true_iff in H. destruct H as [He Htr].
  destruct e; simpl in *; try discriminate; auto.
Qed.

(** X9: [updateLastInputTime] never stores the timestamp 0 and never
    turns a known input time into 0; with a timestamp that is not 0 the
    input time becomes that timestamp; the [_NET_WM_USER_TIME] property is
    written only with the new timestamp, and a second call with the same
    timestamp writes nothing and changes nothing. *)
Theorem updateLastInputTime_idempotent (x x' : XServer) (time : Time)
    (w w1 : WindowImplX11) (tr : list Output) :
  updateLastInputTime x time w = (w1, tr) ->
  (time <> 0 -> m_lastInputTime w1 = time)
  /\ (time = 0 -> w1 = w /\ tr = [])
  /\ (m_lastInputTime w <> 0 -> m_lastInputTime w1 <> 0)
  /\ (forall o, In o tr ->
        exists property,
          property <> 0
          /\ o = XChangeProperty (m_window w) property XA_CARDINAL 32
                   PropModeReplace [time])
  /\ updateLastInputTime x' time w1 = (w1, []).
Proof.
  unfold updateLastInputTime. intros Hrun.
  destruct (time =? 0) eqn:Ht; cbn [negb andb] in Hrun.
  - inversion Hrun; subst w1 tr; clear Hrun. cbn [negb andb].
    apply Z.eqb_eq in Ht.
    split; [intros H; contradiction|]. split; [auto|]. split; [auto|].
    split; [intros o []|reflexivity].
  - destruct (time =? m_lastInputTime w) eqn:Hsame; cbn [negb] in Hrun.
    + inversion Hrun; subst w1 tr; clear Hrun.
      rewrite Hsame. cbn [negb andb].
      apply Z.eqb_eq in Hsame. apply Z.eqb_neq in Ht.
      split; [intros _; symmetry; exact Hsame|].
      split; [intros H; contradiction|]. split; [auto|].
      split; [intros o []|reflexivity].
    + inversion Hrun; subst w1 tr; clear Hrun.
      cbn [m_lastInputTime set_lastInputTime]. rewrite Z.eqb_refl.
      cbn [negb andb]. apply Z.eqb_neq in Ht.
      split; [reflexivity|]. split; [intros H; contradiction|].
      split; [intros _; exact Ht|]. split; [|reflexivity].
      intros o Ho.
      destruct (getAtom x "_NET_WM_USER_TIME" true =? 0) eqn:Ha;
        cbn in Ho; [contradiction|].
      destruct Ho as [Ho|[]]. apply Z.eqb_neq in Ha.
      eexists. split; [exact Ha | subst o; reflexivity].
Qed.

Lemma buttonPress_keeps_time (x : XServer) (button : Z) (position : Z * Z)
    (time : Time) (w : WindowImplX11) :
  m_lastInputTime w <> 0 ->
  m_lastInputTime (fst (buttonPress x button position time w)) <> 0
  /\ m_window (fst (buttonPress x button position time w)) = m_window w.
Proof.
  intros Hnz. unfold buttonPress, updateLastInputTime.
  destruct (Z.eqb_spec time 0) as [->|Htime]; cbn [negb andb fst].
  - split; [exact Hnz | reflexivity].
  - destruct (negb (time =? m_lastInputTime w)); cbn [fst].
    + split; [exact Htime | reflexivity].
    + split; [exact Hnz | reflexivity].
Qed.

(** X10: [PropertyNotify] only initialises the input time.  Once an input
    time is known, the [PropertyNotify] events among the events of the
    window change nothing: the window and what is sent to the server are
    the same as if only the button presses had arrived, and the input
    time stays known.  While no input time is known, [PropertyNotify]
    stores its time. *)
Theorem propertyNotify_only_initialises (x : XServer)
    (events : list TimedEvent) (w : WindowImplX11) :
  (m_lastInputTime w <> 0 ->
   processAll x events w = processAll x (filter isButtonPress events) w
   /\ m_lastInputTime (fst (processAll x events w)) <> 0
   /\ m_window (fst (processAll x events w)) = m_window w)
  /\ (m_lastInputTime w = 0 ->
      forall time,
        m_lastInputTime (fst (processTimed x (PropertyNotifyEvent time) w))
        = time).
Proof.
  split.
  - revert w. induction events as [|e events IH]; intros w Hnz.
    + cbn. split; [reflexivity|]. split; [exact Hnz | reflexivity].
    + destruct e as [time|button position time].
      * cbn [processAll processTimed filter isButtonPress].
        unfold propertyNotify. apply Z.eqb_neq in Hnz. rewrite Hnz.
        apply Z.eqb_neq in Hnz. destruct (IH w Hnz) as (Hsame & Hkeep & Hwin).
        rewrite <- Hsame.
        destruct (processAll x events w) as [w' tr']. cbn [app fst] in *.
        split; [reflexivity|]. split; [exact Hkeep | exact Hwin].
      * cbn [processAll processTimed filter isButtonPress].
        destruct (buttonPress_keeps_time x button position time w Hnz)
          as [Hnz1 Hwin1].
        destruct (buttonPress x button position time w) as [w1 tr1].
        cbn [fst] in *.
        destruct (IH w1 Hnz1) as (Hsame & Hkeep & Hwin).
        rewrite <- Hsame.
        destruct (processAll x events w1) as [w' tr']. cbn [fst] in *.
        split; [reflexivity|]. split; [exact Hkeep | congruence].
  - intros Hzero time. cbn [processTimed fst]. unfold propertyNotify.
    rewrite Hzero. reflexivity.
Qed.

Lemma focusIn_head (b : bool) :
  filter isErrOutput (if b then [XSetICFocus] else []) = []
  /\ filter isPush (if b then [XSetICFocus] else []) = []
  /\ filter isGrabOutput (if b then [XSetICFocus] else []) = [].
Proof. destruct b; repeat split. Qed.

Lemma focusIn_tail (hints : option Z) (w : Window) :
  let tr4 := match hints with
             | Some flags =>
                 [effect (XSetWMHints w (Z.land flags (Z.lnot XUrgencyHint)))]
             | None => []
             end in
  filter isErrOutput tr4 = [] /\ filter isPush tr4 = []
  /\ filter isGrabOutput tr4 = [].
Proof. destruct hints; repeat split. Qed.

Lemma isPush_map tr : filter isPush (map effect tr) = [].
Proof. induction tr as [|e t IH]; simpl; [reflexivity | exact IH]. Qed.

(** X11: [FocusIn] changes no member of the window.  When the cursor is
    grabbed it tries [XGrabPointer] at most 5 times and, unlike
    [setMouseCursorGrabbed], keeps the flag set and logs no error even
    when the 5 trials fail; when the cursor is not grabbed it grabs
    nothing.  It pushes exactly one event, [FocusGained]. *)
Theorem focusIn_keeps_members (x : XServer) (grabPointer : nat -> Z)
    (m m' : Members) (tr : list Output) :
  focusIn x grabPointer m = (m', tr) ->
  m' = m
  /\ filter isErrOutput tr = []
  /\ filter isPush tr = [push FocusGained]
  /\ (length (filter isGrabOutput tr) <= maxTrialsCount)%nat
  /\ (m_cursorGrabbed (impl m) = false -> filter isGrabOutput tr = [])
  /\ (m_cursorGrabbed (impl m) = true ->
      (forall k, (k < maxTrialsCount)%nat -> grabPointer k <> GrabSuccess) ->
      length (filter isGrabOutput tr) = maxTrialsCount).
Proof.
  unfold focusIn. intros Hrun.
  destruct (focusIn_head (m_inputContext m)) as (He1 & Hp1 & Hg1).
  destruct (focusIn_tail (XGetWMHints x (m_window (impl m)))
              (m_window (impl m))) as (He4 & Hp4 & Hg4).
  cbv zeta in He4, Hp4, Hg4.
  destruct (m_cursorGrabbed (impl m)) eqn:Hgrabbed.
  - pose proof (grabTrials_grabbed grabPointer maxTrialsCount 0 (impl m)
                  Hgrabbed) as Hw.
    pose proof (grabTrials_only_grab_sleep grabPointer maxTrialsCount 0
                  (impl m)) as Honly.
    pose proof (grabTrials_count grabPointer maxTrialsCount 0 (impl m))
      as Hcount.
    destruct (grabTrials grabPointer maxTrialsCount 0 (impl m))
      as [w' tr2] eqn:Htrials.
    cbn [fst snd] in Hw, Honly, Hcount. subst w'.
    rewrite Hgrabbed in Hrun. cbn [negb] in Hrun.
    inversion Hrun; subst m' tr; clear Hrun.
    rewrite with_impl_same.
    rewrite !filter_app.
    cbn [app filter isErrOutput isPush isGrabOutput].
    rewrite He1, He4, Hp1, Hp4, Hg1, Hg4.
    rewrite (isErrOutput_map _ Honly), isPush_map.
    cbn [app]. rewrite app_nil_r, isGrabOutput_map.
    split; [reflexivity|]. split; [reflexivity|]. split; [reflexivity|].
    split; [exact Hcount|]. split; [discriminate|].
    intros _ Hfail.
    destruct (grabTrials_all_fail grabPointer maxTrialsCount 0 (impl m)
                Hfail) as [tr' [E C]].
    rewrite Htrials in E. inversion E; subst. exact C.
  - inversion Hrun; subst m' tr; clear Hrun.
    rewrite with_impl_same.
    rewrite !filter_app.
    cbn [app map filter isErrOutput isPush isGrabOutput].
    rewrite He1, He4, Hp1, Hp4, Hg1, Hg4. cbn.
    split; [reflexivity|]. split; [reflexivity|]. split; [reflexivity|].
    split; [unfold maxTrialsCount; lia|]. split; [reflexivity|].
    intros H. discriminate.
Qed.

Lemma grabFocus_no_hints x st w flags self :
  ~ In (XSetWMHints w flags) (fst (grabFocus x st self)).
Proof.
  unfold grabFocus. destruct (ewmhSupported x st) as [ewmh st1].
  destruct (_ =? IsUnmapped); [intros []|].
  destruct (negb _); cbn [fst].
  - destruct (XSendEvent_status x =? 0); simpl; intuition discriminate.
  - simpl. intuition discriminate.
Qed.

Lemma clear_after_set flags :
  Z.land (Z.lor flags XUrgencyHint) (Z.lnot XUrgencyHint)
  = Z.land flags (Z.lnot XUrgencyHint)
  /\ (Z.testbit flags 8 = false ->
      Z.land flags (Z.lnot XUrgencyHint) = flags).
Proof.
  assert (Hbit : forall n, 0 <= n ->
            Z.testbit XUrgencyHint n = (n =? 8)).
  { intros n Hn. unfold XUrgencyHint. rewrite Z.shiftl_spec by exact Hn.
    destruct (Z.eqb_spec n 8) as [->|Hne]; [reflexivity|].
    destruct (Z.ltb_spec (n - 8) 0) as [Hlt|Hge].
    - apply Z.testbit_neg_r. exact Hlt.
    - change 1 with (2 ^ 0). apply Z.pow2_bits_false. lia. }
  split.
  - apply Z.bits_inj'. intros n Hn.
    rewrite !Z.land_spec, Z.lor_spec, Z.lnot_spec, Hbit by exact Hn.
    destruct (Z.testbit flags n), (n =? 8); reflexivity.
  - intros H8. apply Z.bits_inj'. intros n Hn.
    rewrite Z.land_spec, Z.lnot_spec, Hbit by exact Hn.
    destruct (Z.eqb_spec n 8) as [->|Hne].
    + rewrite H8. reflexivity.
    + apply andb_true_r.
Qed.

(** X12: the urgency hint that [requestFocus] sets is taken back by the
    next [FocusIn].  When the server holds the hints that [requestFocus]
    wrote, [FocusIn] writes hints whose flags are the ones the window had
    before the request with the urgency bit cleared: exactly the old
    flags, when the window was not urgent before. *)
Theorem focusIn_undoes_requestFocus_urgency (x x' : XServer)
    (st st' : Statics) (allWindows : list WindowImplX11)
    (grabPointer : nat -> Z) (m : Members) (tr : list Effect)
    (old written : Z) :
  requestFocus x st allWindows (impl m) = (tr, st') ->
  XGetWMHints x (m_window (impl m)) = Some old ->
  In (XSetWMHints (m_window (impl m)) written) tr ->
  XGetWMHints x' (m_window (impl m)) = Some written ->
  In (effect (XSetWMHints (m_window (impl m))
                (Z.land old (Z.lnot XUrgencyHint))))
     (snd (focusIn x' grabPointer m))
  /\ (Z.testbit old 8 = false ->
      In (effect (XSetWMHints (m_window (impl m)) old))
         (snd (focusIn x' grabPointer m))).
Proof.
  intros Hrun Hold Hin Hnew.
  assert (Hwritten : written = Z.lor old XUrgencyHint).
  { unfold requestFocus in Hrun.
    destruct (XGetWindowAttributes x (m_window (impl m))) as [ms|].
    - destruct (_ && _).
      + exfalso. apply (grabFocus_no_hints x st (m_window (impl m)) written
                          (impl m)).
        rewrite Hrun. exact Hin.
      + rewrite Hold in Hrun. inversion Hrun; subst tr.
        destruct Hin as [Hin|[]]. inversion Hin. reflexivity.
    - inversion Hrun; subst tr. destruct Hin as [Hin|[]]. discriminate. }
  assert (Hfocus : In (effect (XSetWMHints (m_window (impl m))
                                 (Z.land written (Z.lnot XUrgencyHint))))
                      (snd (focusIn x' grabPointer m))).
  { unfold focusIn. rewrite Hnew.
    destruct (if m_cursorGrabbed (impl m) then _ else _) as [w' tr2].
    cbn [snd]. apply in_or_app. right. apply in_or_app. right.
    apply in_or_app. right. left. reflexivity. }
  subst written. destruct (clear_after_set old) as [Hclear Hsame].
  rewrite Hclear in Hfocus. split; [exact Hfocus|].
  intros H8. rewrite Hsame in Hfocus by exact H8. exact Hfocus.
Qed.

(** X13: [FocusOut] releases the pointer exactly when the cursor is
    grabbed and leaves the flag set, so that the next [FocusIn] grabs
    again; it pushes exactly one event, [FocusLost]. *)
Theorem focusOut_then_focusIn_regrabs (x : XServer) (grabPointer : nat -> Z)
    (m : Members) :
  filter isPush (focusOut m) = [push FocusLost]
  /\ (In (effect XUngrabPointer) (focusOut m)
      <-> m_cursorGrabbed (impl m) = true)
  /\ (m_cursorGrabbed (impl m) = true ->
      grabPointer 0%nat = GrabSuccess ->
      filter isGrabOutput (snd (focusIn x grabPointer m))
      = [effect (XGrabPointer (m_window (impl m)))]).
Proof.
  unfold focusOut. split; [|split].
  - destruct (m_inputContext m), (m_cursorGrabbed (impl m)); reflexivity.
  - destruct (m_inputContext m), (m_cursorGrabbed (impl m)); simpl;
      split; intros H; try reflexivity; try discriminate;
      intuition discriminate.
  - intros Hg H0. unfold focusIn. rewrite Hg.
    unfold maxTrialsCount. cbn [grabTrials]. rewrite H0. cbn.
    rewrite !filter_app.
    destruct (m_inputContext m); destruct (XGetWMHints x _); reflexivity.
Qed.

(** X14: [ConfigureNotify] pushes a [Resized] event exactly when the size
    differs from the size it saw last, records the size, and so pushes
    nothing for the same size again. *)
Theorem configureNotify_pushes_once (width height : Z) (m m1 : Members)
    (tr : list Output) :
  configureNotify width height m = (m1, tr) ->
  m_previousSize m1 = (width, height)
  /\ (tr = [] <-> m_previousSize m = (width, height))
  /\ (tr <> [] ->
      tr = [push (Resized (wrap_uint width, wrap_uint height))])
  /\ configureNotify width height m1 = (m1, []).
Proof.
  unfold configureNotify. intros Hrun.
  destruct (m_previousSize m) as [pw ph] eqn:Hprev. cbn [fst snd] in Hrun.
  destruct (negb (width =? pw) || negb (height =? ph)) eqn:Hc.
  - inversion Hrun; subst m1 tr; clear Hrun.
    cbn [m_previousSize with_previousSize fst snd].
    rewrite !Z.eqb_refl. cbn.
    repeat split; auto; try discriminate.
    intros Heq. inversion Heq; subst.
    rewrite !Z.eqb_refl in Hc. discriminate.
  - apply orb_false_iff in Hc. destruct Hc as [Hw Hh].
    apply negb_false_iff, Z.eqb_eq in Hw, Hh. subst pw ph.
    inversion Hrun; subst m1 tr; clear Hrun.
    rewrite Hprev. cbn [fst snd]. rewrite !Z.eqb_refl. cbn.
    repeat split; auto. intros H. contradiction H. reflexivity.
Qed.

Lemma updateLastInputTime_no_push x time w :
  filter isPush (snd (updateLastInputTime x time w)) = [].
Proof.
  unfold updateLastInputTime.
  destruct (_ && _); [|reflexivity].
  destruct (negb _); reflexivity.
Qed.

(** X15: mouse buttons.  The X buttons 1, 2, 3, 8 and 9 are the buttons
    [Left], [Middle], [Right], [Extra1] and [Extra2]: their press pushes
    one [MouseButtonPressed] and their release one [MouseButtonReleased]
    of that button.  For the wheel buttons 4 to 7 a click (press and
    release) pushes exactly one [MouseWheelScrolled], at the release,
    vertical for 4 and 5 and horizontal for 6 and 7, with delta 1 for 4
    and 6 and -1 for 5 and 7.  Any other button pushes nothing. *)
Theorem buttons_press_and_release (x : XServer) (button : Z)
    (pressedAt releasedAt : Z * Z) (time : Time) (w : WindowImplX11) :
  let pressed :=
    filter isPush (snd (buttonPress x button pressedAt time w)) in
  let released := buttonRelease button releasedAt in
  (forall b,
     In (button, b)
        [(1, Left); (2, Middle); (3, Right); (8, Extra1); (9, Extra2)] ->
     pressed = [push (MouseButtonPressed b pressedAt)]
     /\ released = [push (MouseButtonReleased b releasedAt)])
  /\ (4 <= button <= 7 ->
      pressed = []
      /\ released
         = [push (MouseWheelScrolled
                    (if button <=? 5 then Vertical else Horizontal)
                    (if Z.even button then 1 else -1) releasedAt)])
  /\ (button < 1 \/ 9 < button -> pressed = [] /\ released = []).
Proof.
  intros pressed released. unfold pressed, released, buttonPress,
    buttonRelease.
  pose proof (updateLastInputTime_no_push x time w) as Hno.
  destruct (updateLastInputTime x time w) as [w' tr'].
  cbn [snd] in *. rewrite filter_app, Hno, app_nil_r.
  unfold mouseButton, Button1, Button2, Button3, Button4, Button5.
  split; [|split].
  - intros b Hb.
    destruct Hb as [Hb|[Hb|[Hb|[Hb|[Hb|[]]]]]]; inversion Hb; subst;
      split; reflexivity.
  - intros Hwheel.
    assert (Hb : button = 4 \/ button = 5 \/ button = 6 \/ button = 7)
      by lia.
    destruct Hb as [-> | [-> | [-> | ->]]]; split; reflexivity.
  - intros Hout.
    destruct (Z.eqb_spec button 1); [lia|].
    destruct (Z.eqb_spec button 2); [lia|].
    destruct (Z.eqb_spec button 3); [lia|].
    destruct (Z.eqb_spec button 8); [lia|].
    destruct (Z.eqb_spec button 9); [lia|].
    destruct (Z.eqb_spec button 4); [lia|].
    destruct (Z.eqb_spec button 5); [lia|].
    destruct (Z.eqb_spec button 6); [lia|].
    destruct (Z.eqb_spec button 7); [lia|].
    split; reflexivity.
Qed.

(** X16: a window of fixed size ([m_useSizeHints]) only ever sends size
    hints whose minimum and maximum are equal: [setSize] sends hints with
    the flags [PMinSize] and [PMaxSize] and both bounds at the new size,
    before it resizes the window, and [setWindowSizeConstraints] sends
    nothing.  For a resizable window [setSize] sends no hints, and
    [setWindowSizeConstraints] sends one set of hints whose [PMinSize] and
    [PMaxSize] flags tell which bounds are set, with those bounds, so that
    removing both bounds sends the flags 0. *)
Theorem size_hints_of_fixed_window (size : Z * Z)
    (minimumSize maximumSize : option (Z * Z)) (m : Members) :
  (m_useSizeHints m = true ->
   setWindowSizeConstraints minimumSize maximumSize m = []
   /\ exists hints,
        setSize size m
        = [XSetWMNormalHints (m_window (impl m)) hints;
           XResizeWindow (m_window (impl m)) (fst size) (snd size);
           effect XFlush]
        /\ hint_flags hints = Z.lor PMinSize PMaxSize
        /\ Z.testbit (hint_flags hints) 4 = true
        /\ Z.testbit (hint_flags hints) 5 = true
        /\ min_width hints = to_int (fst size)
        /\ max_width hints = to_int (fst size)
        /\ min_height hints = to_int (snd size)
        /\ max_height hints = to_int (snd size))
  /\ (m_useSizeHints m = false ->
      setSize size m
      = [XResizeWindow (m_window (impl m)) (fst size) (snd size);
         effect XFlush]
      /\ exists hints,
           setWindowSizeConstraints minimumSize maximumSize m
           = [XSetWMNormalHints (m_window (impl m)) hints]
           /\ (Z.testbit (hint_flags hints) 4 = true
               <-> minimumSize <> None)
           /\ (Z.testbit (hint_flags hints) 5 = true
               <-> maximumSize <> None)
           /\ (minimumSize = None -> maximumSize = None ->
               hint_flags hints = 0)
           /\ (forall s, minimumSize = Some s ->
                 min_width hints = to_int (fst s)
                 /\ min_height hints = to_int (snd s))
           /\ (forall s, maximumSize = Some s ->
                 max_width hints = to_int (fst s)
                 /\ max_height hints = to_int (snd s))).
Proof.
  unfold setWindowSizeConstraints, setSize. split; intros Hu; rewrite Hu.
  - split; [reflexivity|]. eexists. split; [reflexivity|].
    repeat split.
  - split; [reflexivity|]. eexists. split; [reflexivity|].
    destruct minimumSize as [[a b]|], maximumSize as [[c d]|]; cbn;
      repeat split; intros; try discriminate; try reflexivity;
      try congruence;
      match goal with
      | H : Some _ = Some _ |- _ => inversion H; subst; reflexivity
      end.
Qed.

End RequestsFacts.

(** ** Window protocols and the fullscreen state *)

Section ProtocolFacts.

Import EWMH Focus Requests.

(** X17: [setProtocols] writes no property when [WM_PROTOCOLS] has no
    atom.  Otherwise the [WM_PROTOCOLS] property it writes is never empty,
    holds no null atom and only [WM_DELETE_WINDOW] and [_NET_WM_PING];
    and [_NET_WM_PING] is listed only when EWMH is supported, and then the
    [_NET_WM_PID] property has been written, with the process id, just
    before. *)
Theorem setProtocols_ping_needs_pid (x : XServer) (st st' : Statics)
    (pid : Z) (w : WindowImplX11) (tr : list Output) :
  setProtocols x st pid w = (tr, st') ->
  getAtom x "_NET_WM_PING" true <> getAtom x "WM_DELETE_WINDOW" false ->
  (getAtom x "WM_PROTOCOLS" false = 0 -> filter isChangeProperty tr = [])
  /\ (forall w' property format mode atoms,
        In (XChangeProperty w' property XA_ATOM format mode atoms) tr ->
        w' = m_window w
        /\ property = getAtom x "WM_PROTOCOLS" false
        /\ atoms <> []
        /\ (forall a, In a atoms ->
              a <> 0
              /\ (a = getAtom x "WM_DELETE_WINDOW" false
                  \/ a = getAtom x "_NET_WM_PING" true))
        /\ (In (getAtom x "_NET_WM_PING" true) atoms ->
            fst (ewmhSupported x st) = true
            /\ exists before,
                 tr = before
                      ++ [XChangeProperty (m_window w)
                            (getAtom x "_NET_WM_PID" true) XA_CARDINAL 32
                            PropModeReplace [pid];
                          XChangeProperty (m_window w)
                            (getAtom x "WM_PROTOCOLS" false) XA_ATOM 32
                            PropModeReplace atoms])).
Proof.
  unfold setProtocols. intros Hrun Hdiff.
  destruct (getAtom x "WM_PROTOCOLS" false =? 0) eqn:Hp.
  { inversion Hrun; subst tr. split; [reflexivity|].
    intros w' property format mode atoms [Hin|[]]. discriminate. }
  apply Z.eqb_neq in Hp.
  split; [intros H; contradiction|].
  destruct (ewmhSupported x st) as [ewmh st1] eqn:He. cbn [fst].
  intros w' property format mode atoms Hin.
  destruct (getAtom x "WM_DELETE_WINDOW" false =? 0) eqn:Hd; cbn [negb] in Hrun;
    destruct ewmh;
    try (destruct (getAtom x "_NET_WM_PING" true =? 0) eqn:Hping;
         destruct (getAtom x "_NET_WM_PID" true =? 0) eqn:Hpid);
    cbn in Hrun; inversion Hrun; subst tr st'; clear Hrun;
    cbn in Hin;
    repeat match goal with
           | H : _ \/ _ |- _ => destruct H
           | H : False |- _ => contradiction
           | H : effect _ = _ |- _ => discriminate
           | H : XChangeProperty _ _ XA_CARDINAL _ _ _ = _ |- _ =>
               discriminate
           | H : XChangeProperty _ _ XA_ATOM _ _ _ = _ |- _ =>
               inversion H; subst; clear H
           end;
    apply Z.eqb_neq in Hd || apply Z.eqb_eq in Hd;
    try (apply Z.eqb_neq in Hping);
    (split; [reflexivity|]); (split; [reflexivity|]);
    (split; [discriminate|]);
    (split;
     [ intros a Ha; simpl in Ha;
       repeat match goal with
              | H : _ \/ _ |- _ => destruct H
              | H : False |- _ => contradiction
              end; subst; auto
     | intros Hin'; simpl in Hin';
       repeat match goal with
              | H : _ \/ _ |- _ => destruct H
              | H : False |- _ => contradiction
              end;
       try (exfalso; apply Hdiff; congruence);
       try (split; [reflexivity|]; eexists []; reflexivity);
       try (split; [reflexivity|];
            eexists [_]; reflexivity) ]).
Qed.

End ProtocolFacts.

Section FullscreenFacts.

Import EWMH Focus Requests.

Variable x : XServer.

(** Atoms of different names differ. *)
Hypothesis distinctAtoms :
  getAtom x "_NET_ACTIVE_WINDOW" false <> getAtom x "_NET_WM_STATE" true.

Lemma grabFocus_statics st self :
  snd (grabFocus x st self) = snd (ewmhSupported x st).
Proof.
  unfold grabFocus. destruct (ewmhSupported x st) as [ewmh st1].
  destruct (_ =? IsUnmapped); [reflexivity|].
  destruct (negb _); reflexivity.
Qed.

Lemma grabFocus_no_state_message st self :
  existsb (isStateMessage x) (map effect (fst (grabFocus x st self)))
  = false.
Proof.
  unfold grabFocus.
  destruct (ewmhSupported x st) as [ewmh st1].
  destruct (_ =? IsUnmapped); [reflexivity|].
  destruct ewmh; [|reflexivity].
  destruct (negb _) eqn:Hn; [|reflexivity].
  apply Z.eqb_neq in distinctAtoms.
  destruct (XSendEvent_status x =? 0); cbn; rewrite distinctAtoms;
    reflexivity.
Qed.

(** X18: [switchToFullscreen] asks the window manager for the fullscreen
    state, by a [_NET_WM_STATE] message to the root window that adds
    [_NET_WM_STATE_FULLSCREEN] for the window, exactly when EWMH is
    supported and the two atoms exist.  Without EWMH it does nothing but
    grab the focus. *)
Theorem switchToFullscreen_asks_window_manager (st st' : Statics)
    (w : WindowImplX11) (tr : list Output) :
  reachable st ->
  switchToFullscreen x st w = (tr, st') ->
  let netWmState := getAtom x "_NET_WM_STATE" true in
  let netWmStateFullscreen := getAtom x "_NET_WM_STATE_FULLSCREEN" true in
  (existsb (isStateMessage x) tr = true
   <-> fst (ewmhSupported x st) = true
       /\ netWmState <> 0 /\ netWmStateFullscreen <> 0)
  /\ (existsb (isStateMessage x) tr = true ->
      In (effect (XSendEvent (DefaultRootWindow x) false
                    (Z.lor SubstructureNotifyMask SubstructureRedirectMask)
                    {| xclient_window := m_window w;
                       xclient_message_type := netWmState;
                       xclient_format := 32;
                       xclient_l0 := 1;
                       xclient_l1 := netWmStateFullscreen;
                       xclient_l2 := 0;
                       xclient_l3 := 1;
                       xclient_l4 := 0 |})) tr)
  /\ (fst (ewmhSupported x st) = false ->
      tr = map effect (fst (grabFocus x st w))).
Proof.
  intros Hreach Hrun netWmState netWmStateFullscreen.
  unfold switchToFullscreen in Hrun.
  pose proof (grabFocus_statics st w) as Hst.
  pose proof (grabFocus_no_state_message st w) as Hno.
  destruct (grabFocus x st w) as [tr0 st0].
  destruct (ewmhSupported x st) as [ewmh st1] eqn:He.
  cbn [fst snd] in *. subst st0.
  rewrite (ewmhSupported_stable x st ewmh st1 Hreach He x) in Hrun.
  destruct ewmh.
  2:{ inversion Hrun; subst tr st'; clear Hrun. rewrite Hno.
      split; [|split; [discriminate|reflexivity]].
      split; [discriminate | intros [H _]; discriminate]. }
  fold netWmState netWmStateFullscreen in Hrun.
  destruct ((netWmState =? 0) || (netWmStateFullscreen =? 0)) eqn:Hatoms.
  - inversion Hrun; subst tr st'; clear Hrun.
    rewrite !existsb_app, Hno.
    replace (existsb (isStateMessage x)
               (if negb (getAtom x "_NET_WM_BYPASS_COMPOSITOR" false =? 0)
                then [XChangeProperty (m_window w)
                        (getAtom x "_NET_WM_BYPASS_COMPOSITOR" false)
                        XA_CARDINAL 32 PropModeReplace [1]]
                else [])) with false by (destruct (negb _); reflexivity).
    cbn.
    split; [|split; discriminate].
    split; [discriminate|]. intros (_ & Hs & Hf).
    apply Z.eqb_neq in Hs, Hf. rewrite Hs, Hf in Hatoms. discriminate.
  - apply orb_false_iff in Hatoms. destruct Hatoms as [Hs Hf].
    apply Z.eqb_neq in Hs, Hf.
    inversion Hrun; subst tr st'; clear Hrun.
    rewrite !existsb_app.
    cbn [existsb isStateMessage fullscreenMessage xclient_message_type].
    fold netWmState. rewrite Z.eqb_refl, !orb_true_r.
    split; [|split; [intros _ | discriminate]].
    + split; [intros _; auto | reflexivity].
    + apply in_or_app. right. apply in_or_app. right. left. reflexivity.
Qed.

End FullscreenFacts.

(** ** The icon buffers *)

Section IconFacts.

Import Icon.

Lemma length_upd i value (v : list Z) : length (upd i value v) = length v.
Proof.
  unfold upd. destruct (skipn i v) as [|a rest] eqn:Hs; [reflexivity|].
  rewrite <- (firstn_skipn i v) at 2. rewrite Hs, !length_app. reflexivity.
Qed.

Lemma nth_upd i j value (v : list Z) :
  nth j (upd i value v) 0
  = if ((i =? j) && (i <? length v))%nat then value else nth j v 0.
Proof.
  unfold upd. destruct (skipn i v) as [|a rest] eqn:Hs.
  - assert (Hlen : (length v <= i)%nat).
    { destruct (Nat.le_gt_cases (length v) i) as [H|H]; [exact H|].
      assert (Hl : length (skipn i v) = (length v - i)%nat)
        by apply length_skipn.
      rewrite Hs in Hl. simpl in Hl. lia. }
    destruct (Nat.ltb_spec i (length v)); [lia|].
    rewrite andb_false_r. reflexivity.
  - assert (Hl : length (skipn i v) = (length v - i)%nat)
      by apply length_skipn.
    rewrite Hs in Hl. simpl in Hl.
    assert (Hf : length (firstn i v) = i) by (rewrite length_firstn; lia).
    destruct (Nat.ltb_spec i (length v)); [|lia].
    rewrite andb_true_r.
    destruct (Nat.eqb_spec i j) as [->|Hne].
    + rewrite app_nth2 by lia. rewrite Hf, Nat.sub_diag. reflexivity.
    + rewrite <- (firstn_skipn i v) at 2. rewrite Hs.
      destruct (Nat.lt_ge_cases j i) as [Hlt|Hge].
      * rewrite !app_nth1 by lia. reflexivity.
      * rewrite !app_nth2 by lia. rewrite Hf.
        destruct (j - i)%nat as [|d] eqn:Hd; [lia|]. reflexivity.
Qed.

Ltac nth_upd_solve :=
  rewrite ?nth_upd, ?length_upd;
  repeat match goal with
         | |- context [(?a =? ?b)%nat] =>
             destruct (Nat.eqb_spec a b); try lia
         | |- context [(?a <? ?b)%nat] =>
             destruct (Nat.ltb_spec a b); try lia
         end;
  cbn [andb]; try reflexivity.

Variable pixels : list Z.

Lemma swapLoop_spec count : forall i buf,
  (4 * (i + count) <= length buf)%nat ->
  length (swapLoop count i pixels buf) = length buf
  /\ (forall p, (i <= p < i + count)%nat ->
        nth (p * 4 + 0) (swapLoop count i pixels buf) 0
        = nth (p * 4 + 2) pixels 0
        /\ nth (p * 4 + 1) (swapLoop count i pixels buf) 0
           = nth (p * 4 + 1) pixels 0
        /\ nth (p * 4 + 2) (swapLoop count i pixels buf) 0
           = nth (p * 4 + 0) pixels 0
        /\ nth (p * 4 + 3) (swapLoop count i pixels buf) 0
           = nth (p * 4 + 3) pixels 0)
  /\ (forall idx, (idx < 4 * i \/ 4 * (i + count) <= idx)%nat ->
        nth idx (swapLoop count i pixels buf) 0 = nth idx buf 0).
Proof.
  induction count as [|count IH]; intros i buf Hlen.
  - simpl. split; [reflexivity|]. split; [intros p Hp; lia | reflexivity].
  - cbn [swapLoop].
    set (buf4 := upd (i * 4 + 3) _ (upd (i * 4 + 2) _
                   (upd (i * 4 + 1) _ (upd (i * 4 + 0) _ buf)))).
    assert (Hlen4 : length buf4 = length buf)
      by (unfold buf4; rewrite !length_upd; reflexivity).
    destruct (IH (S i) buf4) as (Hl & Hin & Hout); [lia|].
    split; [congruence|]. split.
    + intros p Hp.
      destruct (Nat.eq_dec p i) as [->|Hne].
      * rewrite !Hout by lia. unfold buf4.
        repeat split; nth_upd_solve.
      * apply Hin. lia.
    + intros idx Hidx. rewrite Hout by lia. unfold buf4.
      nth_upd_solve.
Qed.

(** X19: the image that [setIcon] gives to X holds, for every pixel, the
    blue, green, red and alpha bytes in that order: red and blue are
    exchanged, green and alpha kept, and no byte of the allocated memory
    is left as it was. *)
Theorem iconPixels_swaps_red_and_blue (size : nat * nat)
    (allocated : list Z) :
  length allocated = (fst size * snd size * 4)%nat ->
  length (iconPixels size pixels allocated) = (fst size * snd size * 4)%nat
  /\ forall p, (p < fst size * snd size)%nat ->
       nth (p * 4 + 0) (iconPixels size pixels allocated) 0
       = nth (p * 4 + 2) pixels 0
       /\ nth (p * 4 + 1) (iconPixels size pixels allocated) 0
          = nth (p * 4 + 1) pixels 0
       /\ nth (p * 4 + 2) (iconPixels size pixels allocated) 0
          = nth (p * 4 + 0) pixels 0
       /\ nth (p * 4 + 3) (iconPixels size pixels allocated) 0
          = nth (p * 4 + 3) pixels 0.
Proof.
  intros Hlen. unfold iconPixels.
  destruct (swapLoop_spec (fst size * snd size) 0 allocated)
    as (Hl & Hin & _); [lia|].
  split; [congruence|]. intros p Hp. apply Hin. lia.
Qed.

End IconFacts.

Section MaskFacts.

Import Icon.

Lemma opacity_bit (o : bool) (k b : nat) :
  (k < 8)%nat ->
  Z.testbit (wrap_uchar (Z.shiftl (if o then 1 else 0) (Z.of_nat k)))
            (Z.of_nat b)
  = o && (b =? k)%nat.
Proof.
  intros Hk. unfold wrap_uchar. destruct o; cbn [andb].
  - rewrite Z.shiftl_1_l. rewrite Z.mod_small.
    + rewrite Z.pow2_bits_eqb by lia.
      destruct (Nat.eqb_spec b k) as [->|Hne].
      * apply Z.eqb_refl.
      * apply Z.eqb_neq. lia.
    + split; [apply Z.pow_nonneg; lia|].
      apply Z.pow_lt_mono_r; lia.
  - rewrite Z.shiftl_0_l. apply Z.testbit_0_l.
Qed.

Variable size : nat * nat.
Variable pixels : list Z.

(** The bit [b] of the byte [i] of row [j], as the loops leave it. *)
Let maskBit (i j b : nat) : bool :=
  ((b <? 8) && (i * 8 + b <? fst size))%nat && opaque size pixels (i * 8 + b) j.

Lemma maskBits_spec count : forall k mask i j,
  (k + count <= 8)%nat ->
  (i + j * pitch size < length mask)%nat ->
  length (maskBits count k size pixels i j mask) = length mask
  /\ (forall c, c <> (i + j * pitch size)%nat ->
        nth c (maskBits count k size pixels i j mask) 0 = nth c mask 0)
  /\ (forall b,
        Z.testbit (nth (i + j * pitch size)
                       (maskBits count k size pixels i j mask) 0)
                  (Z.of_nat b)
        = Z.testbit (nth (i + j * pitch size) mask 0) (Z.of_nat b)
          || ((k <=? b) && (b <? k + count))%nat && maskBit i j b).
Proof.
  induction count as [|count IH]; intros k mask i j Hk Hcell.
  - simpl. split; [reflexivity|]. split; [reflexivity|].
    intros b. replace ((k <=? b) && (b <? k + 0))%nat with false.
    + rewrite orb_false_r. reflexivity.
    + symmetry. destruct (Nat.leb_spec k b), (Nat.ltb_spec b (k + 0));
        try reflexivity; lia.
  - cbn [maskBits].
    set (mask' := if (i * 8 + k <? fst size)%nat then _ else mask).
    assert (Hlen' : length mask' = length mask).
    { unfold mask'. destruct (_ <? _)%nat; [apply length_upd|reflexivity]. }
    assert (Hother : forall c, c <> (i + j * pitch size)%nat ->
                       nth c mask' 0 = nth c mask 0).
    { intros c Hc. unfold mask'. destruct (_ <? _)%nat; [|reflexivity].
      rewrite nth_upd. destruct (Nat.eqb_spec (i + j * pitch size) c);
        [congruence | reflexivity]. }
    assert (Hbit : forall b,
              Z.testbit (nth (i + j * pitch size) mask' 0) (Z.of_nat b)
              = Z.testbit (nth (i + j * pitch size) mask 0) (Z.of_nat b)
                || (b =? k)%nat && maskBit i j b).
    { intros b. unfold mask', maskBit, opaque.
      destruct (Nat.eqb_spec b k) as [->|Hne].
      - destruct (Nat.ltb_spec k 8); [|lia]. cbn [andb].
        destruct (i * 8 + k <? fst size)%nat; cbn [andb].
        + rewrite nth_upd, Nat.eqb_refl.
          destruct (Nat.ltb_spec (i + j * pitch size) (length mask)); [|lia].
          cbn [andb]. rewrite Z.lor_spec, opacity_bit by lia.
          rewrite Nat.eqb_refl, andb_true_r. reflexivity.
        + rewrite orb_false_r. reflexivity.
      - cbn [andb]. rewrite orb_false_r.
        destruct (i * 8 + k <? fst size)%nat; [|reflexivity].
        rewrite nth_upd, Nat.eqb_refl.
        destruct (Nat.ltb_spec (i + j * pitch size) (length mask)); [|lia].
        cbn [andb]. rewrite Z.lor_spec, opacity_bit by lia.
        destruct (Nat.eqb_spec b k); [congruence|].
        rewrite andb_false_r, orb_false_r. reflexivity. }
    destruct (IH (S k) mask' i j) as (Hl & Ho & Hb); [lia | lia |].
    split; [congruence|]. split.
    + intros c Hc. rewrite Ho by exact Hc. apply Hother. exact Hc.
    + intros b. rewrite Hb, Hbit.
      destruct (Z.testbit (nth (i + j * pitch size) mask 0) (Z.of_nat b));
        [reflexivity|]. cbn [orb].
      destruct (Nat.eqb_spec b k), (Nat.leb_spec (S k) b),
        (Nat.leb_spec k b), (Nat.ltb_spec b (S k + count)),
        (Nat.ltb_spec b (k + S count)); try lia; cbn [andb orb];
        try reflexivity; rewrite ?orb_false_r; reflexivity.
Qed.

Lemma maskRow_spec count : forall i0 mask j,
  (i0 + count <= pitch size)%nat ->
  (j * pitch size + pitch size <= length mask)%nat ->
  length (maskRow count i0 size pixels j mask) = length mask
  /\ (forall c, (c < i0 + j * pitch size
                 \/ i0 + count + j * pitch size <= c)%nat ->
        nth c (maskRow count i0 size pixels j mask) 0 = nth c mask 0)
  /\ (forall i b, (i0 <= i < i0 + count)%nat ->
        Z.testbit (nth (i + j * pitch size)
                       (maskRow count i0 size pixels j mask) 0)
                  (Z.of_nat b)
        = Z.testbit (nth (i + j * pitch size) mask 0) (Z.of_nat b)
          || maskBit i j b).
Proof.
  induction count as [|count IH]; intros i0 mask j Hi Hlen.
  - simpl. split; [reflexivity|]. split; [reflexivity|]. intros; lia.
  - cbn [maskRow].
    destruct (maskBits_spec 8 0 mask i0 j) as (Hl1 & Ho1 & Hb1);
      [lia | lia |].
    destruct (IH (S i0) (maskBits 8 0 size pixels i0 j mask) j)
      as (Hl & Ho & Hb); [lia | lia |].
    split; [congruence|]. split.
    + intros c Hc. rewrite Ho by lia. apply Ho1. lia.
    + intros i b Hib.
      destruct (Nat.eq_dec i i0) as [->|Hne].
      * rewrite Ho by lia. rewrite Hb1.
        replace ((0 <=? b) && (b <? 0 + 8))%nat with (b <? 8)%nat
          by reflexivity.
        unfold maskBit.
        destruct (b <? 8)%nat; cbn [andb]; [reflexivity|].
        rewrite !orb_false_r. reflexivity.
      * rewrite Hb by lia. rewrite Ho1 by lia. reflexivity.
Qed.

Lemma maskRows_spec count : forall j0 mask,
  ((j0 + count) * pitch size <= length mask)%nat ->
  length (maskRows count j0 size pixels mask) = length mask
  /\ (forall c, (c < j0 * pitch size
                 \/ (j0 + count) * pitch size <= c)%nat ->
        nth c (maskRows count j0 size pixels mask) 0 = nth c mask 0)
  /\ (forall i j b, (i < pitch size)%nat -> (j0 <= j < j0 + count)%nat ->
        Z.testbit (nth (i + j * pitch size)
                       (maskRows count j0 size pixels mask) 0)
                  (Z.of_nat b)
        = Z.testbit (nth (i + j * pitch size) mask 0) (Z.of_nat b)
          || maskBit i j b).
Proof.
  induction count as [|count IH]; intros j0 mask Hlen.
  - simpl. split; [reflexivity|]. split; [reflexivity|]. intros; lia.
  - cbn [maskRows].
    assert (Hmul : ((j0 + S count) * pitch size
                    = j0 * pitch size + pitch size
                      + count * pitch size)%nat) by lia.
    destruct (maskRow_spec (pitch size) 0 mask j0) as (Hl1 & Ho1 & Hb1);
      [lia | lia |].
    destruct (IH (S j0) (maskRow (pitch size) 0 size pixels j0 mask))
      as (Hl & Ho & Hb); [lia|].
    split; [congruence|]. split.
    + intros c Hc. rewrite Ho by lia. apply Ho1. lia.
    + intros i j b Hi Hj.
      destruct (Nat.eq_dec j j0) as [->|Hne].
      * rewrite Ho by lia. apply Hb1. lia.
      * rewrite Hb by lia. rewrite Ho1; [reflexivity|].
        right. assert (S j0 <= j)%nat by lia.
        assert (S j0 * pitch size <= j * pitch size)%nat
          by (apply Nat.mul_le_mono_r; assumption).
        lia.
Qed.

(** X20: the bitmap that [setIcon] builds as the mask of the icon has
    [pitch] bytes per row.  The bit [b] of the byte [i] of the row [j] is
    set exactly when [b] is below 8, the pixel [i * 8 + b] lies in the row
    and its alpha is not 0: every pixel has its own bit, least
    significant bit first, and the padding bits at the end of a row are
    0. *)
Theorem maskPixels_one_bit_per_pixel :
  length (maskPixels size pixels) = (pitch size * snd size)%nat
  /\ (forall i j b, (i < pitch size)%nat -> (j < snd size)%nat ->
        Z.testbit (nth (i + j * pitch size) (maskPixels size pixels) 0)
                  (Z.of_nat b)
        = ((b <? 8) && (i * 8 + b <? fst size))%nat
          && opaque size pixels (i * 8 + b) j)
  /\ (Z.of_nat (fst size) + 7 < 2 ^ 32 ->
      forall px py, (px < fst size)%nat -> (py < snd size)%nat ->
        (px / 8 < pitch size)%nat
        /\ Z.testbit (nth (px / 8 + py * pitch size)
                          (maskPixels size pixels) 0)
                     (Z.of_nat (px mod 8))
           = opaque size pixels px py).
Proof.
  unfold maskPixels.
  destruct (maskRows_spec (snd size) 0
              (repeat 0 (pitch size * snd size))) as (Hl & Ho & Hb).
  { rewrite repeat_length. lia. }
  rewrite repeat_length in Hl.
  assert (Hall : forall i j b, (i < pitch size)%nat -> (j < snd size)%nat ->
            Z.testbit (nth (i + j * pitch size)
                         (maskRows (snd size) 0 size pixels
                            (repeat 0 (pitch size * snd size))) 0)
                      (Z.of_nat b)
            = maskBit i j b).
  { intros i j b Hi Hj. rewrite Hb by lia.
    rewrite nth_repeat, Z.testbit_0_l. reflexivity. }
  split; [exact Hl|]. split; [exact Hall|].
  intros Hfit px py Hpx Hpy.
  assert (Hpitch : pitch size = ((fst size + 7) / 8)%nat).
  { unfold pitch, wrap_uint. rewrite Z.mod_small by lia.
    change 8 with (Z.of_nat 8). change 7 with (Z.of_nat 7).
    rewrite <- Nat2Z.inj_add, <- Nat2Z.inj_div, Nat2Z.id. reflexivity. }
  assert (Hdiv : (px / 8 < pitch size)%nat).
  { rewrite Hpitch. apply Nat.Div0.div_lt_upper_bound.
    pose proof (Nat.Div0.mul_div_le (fst size + 7) 8) as H1.
    pose proof (Nat.mod_upper_bound (fst size + 7) 8 ltac:(lia)) as H2.
    pose proof (Nat.div_mod (fst size + 7) 8 ltac:(lia)) as H3.
    pose proof (Nat.div_mod px 8 ltac:(lia)) as H4.
    pose proof (Nat.mod_upper_bound px 8 ltac:(lia)) as H5.
    lia. }
  split; [exact Hdiv|].
  rewrite Hall by assumption. unfold maskBit.
  pose proof (Nat.div_mod px 8 ltac:(lia)) as H4.
  pose proof (Nat.mod_upper_bound px 8 ltac:(lia)) as H5.
  replace (px / 8 * 8 + px mod 8)%nat with px by lia.
  destruct (Nat.ltb_spec (px mod 8) 8); [|lia].
  destruct (Nat.ltb_spec px (fst size)); [|lia].
  reflexivity.
Qed.

End MaskFacts.

Section IcccmFacts.

Import Icon.

Lemma to_int_low_bits z m :
  0 <= m < 32 -> Z.testbit (to_int z) m = Z.testbit z m.
Proof.
  intros Hm.
  rewrite <- (Z.mod_pow2_bits_low (to_int z) 32 m) by lia.
  rewrite <- (Z.mod_pow2_bits_low z 32 m) by lia.
  f_equal. unfold to_int.
  rewrite Zminus_mod_idemp_l.
  replace (z + 2 ^ 31 - 2 ^ 31) with z by lia. reflexivity.
Qed.

Lemma byte_bits v m : isByte v -> ~ 0 <= m < 8 -> Z.testbit v m = false.
Proof.
  unfold isByte. intros Hv Hm.
  destruct (Z.ltb_spec m 0) as [Hneg|Hpos].
  - apply Z.testbit_neg_r. exact Hneg.
  - destruct (Z.eq_dec v 0) as [->|Hnz]; [apply Z.testbit_0_l|].
    apply Z.bits_above_log2; [lia|].
    assert (Z.log2 v < 8) by (apply Z.log2_lt_pow2; lia). lia.
Qed.

Lemma mask255_bits n : 0 <= n -> Z.testbit 255 n = (n <? 8).
Proof.
  intros Hn. change 255 with (Z.ones 8).
  destruct (Z.ltb_spec n 8).
  - apply Z.ones_spec_low. lia.
  - apply Z.ones_spec_high. lia.
Qed.

Variable pixels : list Z.

Hypothesis bytes : Forall isByte pixels.

Lemma pixel_byte idx : isByte (nth idx pixels 0).
Proof.
  destruct (Nat.lt_ge_cases idx (length pixels)) as [Hlt|Hge].
  - apply (proj1 (Forall_forall isByte pixels) bytes). apply nth_In.
    exact Hlt.
  - rewrite nth_overflow by exact Hge. unfold isByte. lia.
Qed.

Lemma icccmPixel_bits i n :
  0 <= n < 32 ->
  Z.testbit (icccmPixel pixels i) n
  = Z.testbit (nth (i * 4 + 2) pixels 0) n
    || Z.testbit (nth (i * 4 + 1) pixels 0) (n - 8)
    || Z.testbit (nth (i * 4 + 0) pixels 0) (n - 16)
    || Z.testbit (nth (i * 4 + 3) pixels 0) (n - 24).
Proof.
  intros Hn. unfold icccmPixel, wrap_ulong.
  rewrite Z.mod_pow2_bits_low by lia.
  rewrite !Z.lor_spec, !to_int_low_bits by lia.
  rewrite !Z.shiftl_spec by lia.
  rewrite Z.sub_0_r. reflexivity.
Qed.

Lemma icccmPixel_byte i shift (channel : nat) :
  (shift = 0 /\ channel = 2%nat) \/ (shift = 8 /\ channel = 1%nat)
  \/ (shift = 16 /\ channel = 0%nat) \/ (shift = 24 /\ channel = 3%nat) ->
  Z.land (Z.shiftr (icccmPixel pixels i) shift) 255
  = nth (i * 4 + channel) pixels 0.
Proof.
  intros Hcase. apply Z.bits_inj'. intros n Hn.
  rewrite Z.land_spec, mask255_bits by exact Hn.
  pose proof (pixel_byte (i * 4 + 0)) as H0.
  pose proof (pixel_byte (i * 4 + 1)) as H1.
  pose proof (pixel_byte (i * 4 + 2)) as H2.
  pose proof (pixel_byte (i * 4 + 3)) as H3.
  destruct (Z.ltb_spec n 8) as [Hlt|Hge].
  - rewrite andb_true_r, Z.shiftr_spec by exact Hn.
    destruct Hcase as [[-> ->]|[[-> ->]|[[-> ->]|[-> ->]]]];
      rewrite icccmPixel_bits by lia.
    + rewrite (byte_bits _ (n + 0 - 8) H1), (byte_bits _ (n + 0 - 16) H0),
        (byte_bits _ (n + 0 - 24) H3) by lia.
      rewrite !orb_false_r. f_equal. lia.
    + rewrite (byte_bits _ (n + 8) H2), (byte_bits _ (n + 8 - 16) H0),
        (byte_bits _ (n + 8 - 24) H3) by lia.
      rewrite !orb_false_r. cbn [orb]. f_equal. lia.
    + rewrite (byte_bits _ (n + 16) H2), (byte_bits _ (n + 16 - 8) H1),
        (byte_bits _ (n + 16 - 24) H3) by lia.
      rewrite !orb_false_r. cbn [orb]. f_equal. lia.
    + rewrite (byte_bits _ (n + 24) H2), (byte_bits _ (n + 24 - 8) H1),
        (byte_bits _ (n + 24 - 16) H0) by lia.
      cbn [orb]. f_equal. lia.
  - rewrite andb_false_r. symmetry.
    destruct Hcase as [[-> ->]|[[-> ->]|[[-> ->]|[-> ->]]]];
      apply byte_bits; (assumption || lia).
Qed.

Lemma icccmLoop_spec count : forall i ptr buf,
  (ptr + count <= length buf)%nat ->
  length (icccmLoop count i ptr pixels buf) = length buf
  /\ (forall q, (q < count)%nat ->
        nth (ptr + q) (icccmLoop count i ptr pixels buf) 0
        = icccmPixel pixels (i + q))
  /\ (forall idx, (idx < ptr \/ ptr + count <= idx)%nat ->
        nth idx (icccmLoop count i ptr pixels buf) 0 = nth idx buf 0).
Proof.
  induction count as [|count IH]; intros i ptr buf Hlen.
  - simpl. split; [reflexivity|]. split; [intros; lia | reflexivity].
  - cbn [icccmLoop].
    destruct (IH (S i) (S ptr) (upd ptr (icccmPixel pixels i) buf))
      as (Hl & Hin & Hout); [rewrite length_upd; lia|].
    rewrite length_upd in Hl.
    split; [exact Hl|]. split.
    + intros q Hq. destruct q as [|q].
      * rewrite Hout by lia. rewrite nth_upd, !Nat.add_0_r, Nat.eqb_refl.
        destruct (Nat.ltb_spec ptr (length buf)); [reflexivity | lia].
      * replace (ptr + S q)%nat with (S ptr + q)%nat by lia.
        replace (i + S q)%nat with (S i + q)%nat by lia.
        apply Hin. lia.
    + intros idx Hidx. rewrite Hout by lia. rewrite nth_upd.
      destruct (Nat.eqb_spec ptr idx); [lia | reflexivity].
Qed.

(** X21: the [_NET_WM_ICON] property that [setIcon] writes starts with
    the width and the height and has one element per pixel after them;
    from the element of a pixel the blue, green, red and alpha bytes are
    read back at the bits 0, 8, 16 and 24. *)
Theorem icccmIconPixels_layout (size : nat * nat) :
  2 + Z.of_nat (fst size) * Z.of_nat (snd size) < 2 ^ 32 ->
  let property := icccmIconPixels size pixels in
  length property = (2 + fst size * snd size)%nat
  /\ nth 0 property 0 = Z.of_nat (fst size)
  /\ nth 1 property 0 = Z.of_nat (snd size)
  /\ forall i, (i < fst size * snd size)%nat ->
       let element := nth (2 + i) property 0 in
       0 <= element < 2 ^ 64
       /\ Z.land (Z.shiftr element 0) 255 = nth (i * 4 + 2) pixels 0
       /\ Z.land (Z.shiftr element 8) 255 = nth (i * 4 + 1) pixels 0
       /\ Z.land (Z.shiftr element 16) 255 = nth (i * 4 + 0) pixels 0
       /\ Z.land (Z.shiftr element 24) 255 = nth (i * 4 + 3) pixels 0.
Proof.
  intros Hfit property. unfold property, icccmIconPixels.
  assert (Hsize : Z.to_nat (wrap_uint (2 + Z.of_nat (fst size)
                                           * Z.of_nat (snd size)))
                  = (2 + fst size * snd size)%nat).
  { unfold wrap_uint. rewrite Z.mod_small by lia. lia. }
  rewrite Hsize.
  set (v := upd 1 _ (upd 0 _ (repeat 0 (2 + fst size * snd size)))).
  assert (Hlenv : length v = (2 + fst size * snd size)%nat).
  { unfold v. rewrite !length_upd, repeat_length. reflexivity. }
  destruct (icccmLoop_spec (fst size * snd size) 0 2 v) as (Hl & Hin & Hout);
    [lia|].
  split; [congruence|]. split; [|split].
  - rewrite Hout by lia. unfold v. rewrite !nth_upd, !length_upd.
    rewrite repeat_length. cbn.
    destruct (Nat.ltb_spec 0 (S (S (fst size * snd size)))); [reflexivity|lia].
  - rewrite Hout by lia. unfold v. rewrite !nth_upd, !length_upd.
    rewrite repeat_length. cbn.
    destruct (Nat.ltb_spec 1 (S (S (fst size * snd size)))); [reflexivity|lia].
  - intros i Hi. cbv zeta. rewrite Hin by exact Hi.
    cbn [Nat.add]. split.
    + unfold icccmPixel, wrap_ulong. apply Z.mod_pos_bound. lia.
    + repeat split; apply icccmPixel_byte; tauto.
Qed.

End IcccmFacts.

(** ** The network audio stream *)

Section NetworkAudioStreamFacts.

Import NetworkAudioStream.

Lemma fromBytes_length count : forall bytes,
  (2 * count <= length bytes)%nat -> length (fromBytes count bytes) = count.
Proof.
  induction count as [|count IH]; intros bytes Hlen; [reflexivity|].
  destruct bytes as [|low [|high rest]]; simpl in Hlen; try lia.
  simpl. rewrite IH by lia. reflexivity.
Qed.

Lemma toBytes_fromBytes count : forall bytes,
  (2 * count <= length bytes)%nat ->
  toBytes (fromBytes count bytes) = firstn (2 * count) bytes.
Proof.
  induction count as [|count IH]; intros bytes Hlen; [reflexivity|].
  destruct bytes as [|low [|high rest]]; simpl in Hlen; try lia.
  replace (2 * S count)%nat with (S (S (2 * count))) by lia.
  cbn [fromBytes toBytes firstn]. rewrite IH by lia. reflexivity.
Qed.

Lemma samplesOf_bytes (packet : Packet) :
  length (samplesOf packet) = ((length packet - 1) / 2)%nat
  /\ toBytes (samplesOf packet)
     = firstn (2 * ((length packet - 1) / 2)) (tl packet).
Proof.
  assert (Hlen : (2 * ((length packet - 1) / 2) <= length (tl packet))%nat).
  { replace (length (tl packet)) with (length packet - 1)%nat
      by (destruct packet; simpl; lia).
    apply Nat.Div0.mul_div_le. }
  unfold samplesOf. split.
  - apply fromBytes_length. exact Hlen.
  - apply toBytes_fromBytes. exact Hlen.
Qed.

Lemma receivePacket_audio (packet : Packet) (s : Stream) :
  isAudio packet = true ->
  Z.of_nat (length (m_samples s)) + Z.of_nat (length packet) < 2 ^ 64 ->
  receivePacket packet s
  = Some (with_samples (m_samples s ++ samplesOf packet) s, []).
Proof.
  intros Haudio Hfit. destruct packet as [|id payload]; [discriminate|].
  cbn [isAudio] in Haudio. unfold receivePacket. rewrite Haudio.
  cbn [length] in *.
  assert (Hcount : wrap_ulong (Z.of_nat (S (length payload)) - 1)
                   / sizeofInt16
                   = Z.of_nat (length payload / 2)).
  { rewrite wrap_ulong_small by lia. unfold sizeofInt16.
    replace (Z.of_nat (S (length payload)) - 1)
      with (Z.of_nat (length payload)) by lia.
    rewrite (Nat2Z.inj_div _ 2). reflexivity. }
  rewrite Hcount.
  pose proof (Nat.Div0.mul_div_le (length payload) 2) as Hhalf.
  rewrite !wrap_ulong_small by (unfold sizeofInt16; lia).
  unfold memcpy, resize, sizeofInt16.
  rewrite Z.div_mul by lia. rewrite !Nat2Z.id.
  replace (Z.to_nat (Z.of_nat (length (m_samples s))
                     + Z.of_nat (length payload / 2)))
    with (length (m_samples s) + length payload / 2)%nat by lia.
  replace (length (m_samples s) + length payload / 2
           - length (m_samples s))%nat with (length payload / 2)%nat by lia.
  rewrite (firstn_all2 (n := length (m_samples s) + length payload / 2)
             (m_samples s)) by lia.
  rewrite firstn_app, firstn_all, Nat.sub_diag, firstn_O, app_nil_r.
  rewrite skipn_all2 by (rewrite length_app, repeat_length; lia).
  rewrite app_nil_r. unfold samplesOf. cbn [length tl].
  replace (S (length payload) - 1)%nat with (length payload) by lia.
  reflexivity.
Qed.

Lemma receivePacket_other (packet : Packet) (s : Stream) :
  packet <> [] -> isAudio packet = false ->
  receivePacket packet s
  = Some (finish s,
          [if hd 0 packet =? serverEndOfStream
           then "Audio data has been 100% received!"
           else "Invalid packet received..."]).
Proof.
  intros Hne Haudio. destruct packet as [|id payload]; [congruence|].
  cbn [isAudio hd] in *. unfold receivePacket. rewrite Haudio.
  destruct (id =? serverEndOfStream); reflexivity.
Qed.

Lemma samplesOf_le (packet : Packet) :
  (length (samplesOf packet) <= length packet)%nat.
Proof.
  rewrite (proj1 (samplesOf_bytes packet)).
  pose proof (Nat.Div0.mul_div_le (length packet - 1) 2). lia.
Qed.

Lemma byteCount_nonneg network : 0 <= byteCount network.
Proof.
  induction network as [|[packet|] rest IH]; simpl; lia.
Qed.

(** X22: [receiveLoop] consumes packets of audio data up to the first
    answer that ends it: a failed [receive], the end of the stream, or an
    invalid packet.  It appends to [m_samples], in order, the samples of
    the audio packets, two bytes each with an odd last byte left out, and
    touches nothing else; only the end of the stream and an invalid
    packet set [m_hasFinished].  What comes after the end is not
    consumed, and a stream that has finished receives nothing. *)
Theorem receiveLoop_appends_audio (network : list Received) (s : Stream) :
  Forall notEmpty network ->
  Z.of_nat (length (m_samples s)) + byteCount network < 2 ^ 64 ->
  (m_hasFinished s = true -> receiveLoop network s = Some (s, [], network))
  /\ (m_hasFinished s = false ->
      exists audio last rest out s',
        receiveLoop network s = Some (s', out, rest)
        /\ network = map Done audio ++ last ++ rest
        /\ forallb isAudio audio = true
        /\ m_samples s' = m_samples s ++ flat_map samplesOf audio
        /\ (forall packet, In packet audio ->
              toBytes (samplesOf packet)
              = firstn (2 * ((length packet - 1) / 2)) (tl packet))
        /\ m_offset s' = m_offset s
        /\ m_tempBuffer s' = m_tempBuffer s
        /\ ((last = [] /\ rest = [] /\ out = []
             /\ m_hasFinished s' = false)
            \/ (last = [NotDone] /\ out = [] /\ m_hasFinished s' = false)
            \/ (exists packet,
                  last = [Done packet] /\ isAudio packet = false
                  /\ out = [if hd 0 packet =? serverEndOfStream
                            then "Audio data has been 100% received!"
                            else "Invalid packet received..."]
                  /\ m_hasFinished s' = true))).
Proof.
  intros Hne Hfit. split.
  { intros Hfin. destruct network; simpl; rewrite Hfin; reflexivity. }
  revert s Hne Hfit.
  induction network as [|r network IH]; intros s Hne Hfit Hfin.
  - exists [], [], [], [], s. simpl. rewrite Hfin, app_nil_r.
    repeat split; auto. intros packet [].
  - inversion Hne as [|? ? Hr Hrest]; subst.
    destruct r as [packet|].
    + cbn [byteCount notEmpty] in *.
      pose proof (byteCount_nonneg network) as Hpos.
      destruct (isAudio packet) eqn:Haudio.
      * pose proof (samplesOf_le packet) as Hle.
        destruct (IH (with_samples (m_samples s ++ samplesOf packet) s))
          as (audio & last & rest & out & s' & Hrun & Hnet & Hall & Hsam
              & Hbytes & Hoff & Htemp & Hend);
          [exact Hrest
          | cbn [m_samples with_samples]; rewrite length_app; lia
          | exact Hfin |].
        exists (packet :: audio), last, rest, out, s'.
        cbn [receiveLoop]. rewrite Hfin, receivePacket_audio by (auto; lia).
        rewrite Hrun. cbn [app map forallb flat_map].
        rewrite Haudio, Hall, Hnet, Hsam. cbn [m_samples with_samples].
        repeat split; auto.
        -- rewrite <- app_assoc. reflexivity.
        -- intros p [<-|Hin]; [apply samplesOf_bytes | apply Hbytes, Hin].
      * exists [], [Done packet], network, 
          [if hd 0 packet =? serverEndOfStream
           then "Audio data has been 100% received!"
           else "Invalid packet received..."], (finish s).
        cbn [receiveLoop]. rewrite Hfin, receivePacket_other by auto.
        assert (Hnext : receiveLoop network (finish s)
                        = Some (finish s, [], network))
          by (destruct network; reflexivity).
        rewrite Hnext. cbn. rewrite app_nil_r.
        repeat split; auto.
        -- intros p [].
        -- right. right. exists packet. repeat split; auto.
    + exists [], [NotDone], network, [], s.
      cbn [receiveLoop]. rewrite Hfin. cbn. rewrite app_nil_r.
      repeat split; auto. intros p [].
Qed.

Lemma receivePacket_sameData packet s1 s2 r1 out :
  sameData s1 s2 -> receivePacket packet s1 = Some (r1, out) ->
  exists r2, receivePacket packet s2 = Some (r2, out) /\ sameData r1 r2.
Proof.
  intros [Hsam Hfin] Hrun. destruct packet as [|id payload]; [discriminate|].
  unfold receivePacket in *. rewrite <- Hsam.
  destruct (id =? serverAudioData).
  - inversion Hrun; subst. eexists. split; [reflexivity|].
    split; [reflexivity | exact Hfin].
  - destruct (id =? serverEndOfStream); inversion Hrun; subst;
      (eexists; split; [reflexivity|]; split; [exact Hsam | reflexivity]).
Qed.

Lemma receiveLoop_sameData network : forall s1 s2 r1 out rest,
  sameData s1 s2 -> receiveLoop network s1 = Some (r1, out, rest) ->
  exists r2, receiveLoop network s2 = Some (r2, out, rest) /\ sameData r1 r2.
Proof.
  induction network as [|r network IH]; intros s1 s2 r1 out rest Hsame Hrun.
  - destruct Hsame as [Hsam Hfin]. simpl in *. rewrite <- Hfin.
    destruct (m_hasFinished s1) eqn:Hfin1; inversion Hrun; subst;
      (exists s2; split; [reflexivity | split; congruence]).
  - pose proof Hsame as [Hsam Hfin]. cbn [receiveLoop] in *.
    rewrite <- Hfin. destruct (m_hasFinished s1) eqn:Hfin1.
    + inversion Hrun; subst. exists s2. split; [reflexivity | exact Hsame].
    + destruct r as [packet|].
      * destruct (receivePacket packet s1) as [[s1' o]|] eqn:Hp;
          [|discriminate].
        destruct (receivePacket_sameData _ _ _ _ _ Hsame Hp)
          as (s2' & Hp2 & Hsame').
        rewrite Hp2.
        destruct (receiveLoop network s1') as [[[r1' o'] rest']|] eqn:Hl;
          [|discriminate].
        destruct (IH _ _ _ _ _ Hsame' Hl) as (r2 & Hl2 & Hsame2).
        rewrite Hl2. inversion Hrun; subst.
        exists r2. split; [reflexivity | exact Hsame2].
      * inversion Hrun; subst. exists s2.
        split; [reflexivity | exact Hsame].
Qed.

Lemma onGetData_sameData inLoop s result s' :
  onGetData inLoop s = Some (result, s') -> sameData s' s.
Proof.
  unfold onGetData, copy. intros Hrun.
  destruct (negb inLoop
            && ((Z.of_nat (length (m_samples s)) <=? m_offset s)
                && m_hasFinished s)).
  { inversion Hrun; subst. split; reflexivity. }
  destruct ((Z.of_nat (length (m_samples s)) <=? m_offset s)
            && negb (m_hasFinished s)).
  { inversion Hrun; subst. split; reflexivity. }
  destruct (m_offset s <=? Z.of_nat (length (m_samples s)));
    inversion Hrun; subst. split; reflexivity.
Qed.

Lemma step_consistent (a : Action) (t : Threads) :
  consistent t ->
  match a with Receive r => notEmpty r | GetData => True end ->
  Z.of_nat (length (m_samples (stream t))) + byteCount (receives [a])
  < 2 ^ 64 ->
  exists t',
    step a t = Some t' /\ consistent t'
    /\ Z.of_nat (length (m_samples (stream t')))
       <= Z.of_nat (length (m_samples (stream t))) + byteCount (receives [a]).
Proof.
  intros (Hoff & Hplayed & Hstop) Hne Hfit. unfold consistent.
  destruct a as [[packet|]|]; cbn [step receives byteCount] in *.
  - destruct (receiving t && negb (m_hasFinished (stream t))) eqn:Hgo.
    + apply andb_prop in Hgo. destruct Hgo as [_ Hfin].
      apply negb_true_iff in Hfin.
      destruct (isAudio packet) eqn:Haudio.
      * rewrite receivePacket_audio by (auto; lia).
        pose proof (samplesOf_le packet) as Hle.
        eexists. split; [reflexivity|].
        cbn [stream played stopped inLoop m_samples m_offset m_hasFinished
             with_samples].
        rewrite length_app. split; [|lia].
        split; [lia|]. split.
        -- rewrite firstn_app, Hplayed.
           replace (Z.to_nat (m_offset (stream t))
                    - length (m_samples (stream t)))%nat with 0%nat by lia.
           rewrite firstn_O, app_nil_r. reflexivity.
        -- intros Hs. destruct (Hstop Hs) as [Habs _]. congruence.
      * rewrite receivePacket_other by auto.
        eexists. split; [reflexivity|].
        cbn [stream played stopped inLoop m_samples m_offset m_hasFinished
             finish].
        split; [|lia]. split; [lia|]. split; [exact Hplayed|].
        intros Hs. destruct (Hstop Hs) as (_ & Hin & Heq).
        repeat split; auto.
    + exists t. split; [reflexivity|]. split; [|lia].
      split; [exact Hoff|]. split; [exact Hplayed | exact Hstop].
  - destruct (receiving t && negb (m_hasFinished (stream t))).
    + eexists. split; [reflexivity|]. split; [|cbn; lia].
      split; [exact Hoff|]. split; [exact Hplayed | exact Hstop].
    + exists t. split; [reflexivity|]. split; [|lia].
      split; [exact Hoff|]. split; [exact Hplayed | exact Hstop].
  - unfold onGetData, copy.
    destruct (negb (inLoop t)
              && ((Z.of_nat (length (m_samples (stream t)))
                   <=? m_offset (stream t))
                  && m_hasFinished (stream t))) eqn:Hfirst.
    { apply andb_prop in Hfirst. destruct Hfirst as [Hin Hend].
      apply andb_prop in Hend. destruct Hend as [Hend Hfin].
      apply negb_true_iff in Hin. apply Z.leb_le in Hend.
      eexists. split; [reflexivity|]. split; [|cbn; lia].
      split; [exact Hoff|]. split; [exact Hplayed|].
      intros _. cbn. repeat split; auto. lia. }
    destruct ((Z.of_nat (length (m_samples (stream t)))
               <=? m_offset (stream t))
              && negb (m_hasFinished (stream t))) eqn:Hwait.
    { apply andb_prop in Hwait. destruct Hwait as [_ Hfin].
      apply negb_true_iff in Hfin.
      eexists. split; [reflexivity|]. split; [|cbn; lia].
      split; [exact Hoff|]. split; [exact Hplayed|].
      cbn. intros Hs. destruct (Hstop Hs) as [Habs _]. congruence. }
    destruct (Z.leb_spec (m_offset (stream t))
                (Z.of_nat (length (m_samples (stream t))))) as [_|Habs];
      [|lia].
    eexists. split; [reflexivity|].
    cbn [stream played stopped inLoop m_samples m_offset m_hasFinished].
    split; [|lia].
    rewrite length_skipn.
    rewrite wrap_ulong_small by lia.
    replace (m_offset (stream t)
             + Z.of_nat (length (m_samples (stream t))
                         - Z.to_nat (m_offset (stream t))))
      with (Z.of_nat (length (m_samples (stream t)))) by lia.
    split; [lia|]. split.
    + rewrite concat_app, Hplayed. cbn [concat]. rewrite app_nil_r.
      rewrite Nat2Z.id, firstn_all. apply firstn_skipn.
    + intros Hs. destruct (Hstop Hs) as (Hfin & _ & Heq).
      repeat split; auto.
Qed.

Lemma run_consistent (schedule : list Action) : forall t,
  consistent t ->
  Forall notEmpty (receives schedule) ->
  Z.of_nat (length (m_samples (stream t))) + byteCount (receives schedule)
  < 2 ^ 64 ->
  exists t', run schedule t = Some t' /\ consistent t'.
Proof.
  induction schedule as [|a schedule IH]; intros t Hc Hne Hfit.
  - exists t. split; [reflexivity | exact Hc].
  - pose proof (byteCount_nonneg (receives schedule)) as Hpos.
    assert (Hne' : match a with Receive r => notEmpty r | GetData => True end
                   /\ Forall notEmpty (receives schedule)).
    { destruct a as [r|]; cbn [receives] in Hne.
      - inversion Hne; subst. split; assumption.
      - split; [exact I | exact Hne]. }
    assert (Hsplit : byteCount (receives (a :: schedule))
                     = byteCount (receives [a])
                       + byteCount (receives schedule)).
    { destruct a as [[packet|]|]; cbn; lia. }
    destruct (step_consistent a t Hc (proj1 Hne')) as (t1 & Hstep & Hc1 & Hle);
      [lia|].
    destruct (IH t1 Hc1 (proj2 Hne')) as (t' & Hrun & Hc'); [lia|].
    exists t'. cbn [run]. rewrite Hstep. split; [exact Hrun | exact Hc'].
Qed.

Lemma receiveLoop_finished network s :
  m_hasFinished s = true -> receiveLoop network s = Some (s, [], network).
Proof.
  intros Hfin. destruct network; simpl; rewrite Hfin; reflexivity.
Qed.

Lemma run_sameData (schedule : list Action) : forall t t',
  run schedule t = Some t' ->
  (receiving t = true ->
   forall s' out rest,
     receiveLoop (receives schedule) (stream t) = Some (s', out, rest) ->
     sameData (stream t') s')
  /\ (receiving t = false -> sameData (stream t') (stream t)).
Proof.
  induction schedule as [|a schedule IH]; intros t t' Hrun.
  - inversion Hrun; subst. split.
    + intros _ s' out rest Hloop. simpl in Hloop.
      destruct (m_hasFinished (stream t')); inversion Hloop; subst;
        split; reflexivity.
    + intros _. split; reflexivity.
  - cbn [run] in Hrun.
    destruct (step a t) as [t1|] eqn:Hstep; [|discriminate].
    destruct (IH t1 t' Hrun) as [Hon Hoff].
    destruct a as [r|]; cbn [step receives] in *.
    + destruct (receiving t) eqn:Hrec; cbn [andb] in Hstep.
      * split; [|discriminate]. intros _ s' out rest Hloop.
        cbn [receiveLoop] in Hloop.
        destruct (m_hasFinished (stream t)) eqn:Hfin; cbn [negb] in Hstep.
        -- inversion Hstep; subst t1. inversion Hloop; subst.
           apply (Hon Hrec _ [] (receives schedule)).
           apply receiveLoop_finished. exact Hfin.
        -- destruct r as [packet|].
           ++ destruct (receivePacket packet (stream t)) as [[s1 o]|];
                [|discriminate].
              inversion Hstep; subst t1. cbn [stream receiving] in *.
              destruct (receiveLoop (receives schedule) s1)
                as [[[s2 o2] rest2]|] eqn:Hl; [|discriminate].
              inversion Hloop; subst.
              apply (Hon eq_refl _ _ _ eq_refl).
           ++ inversion Hstep; subst t1. inversion Hloop; subst.
              apply Hoff. reflexivity.
      * inversion Hstep; subst t1. split; [discriminate|].
        intros _. apply Hoff. exact Hrec.
    + assert (Hsame : sameData (stream t1) (stream t)
                      /\ receiving t1 = receiving t).
      { destruct (onGetData (inLoop t) (stream t)) as [[result s1]|] eqn:Hget;
          [|discriminate].
        pose proof (onGetData_sameData _ _ _ _ Hget) as Hs.
        destruct result; inversion Hstep; subst t1; split; auto. }
      destruct Hsame as [[Hsam Hfin] Hrec]. split.
      * intros Hr s' out rest Hloop.
        destruct (receiveLoop_sameData _ (stream t) (stream t1) _ _ _
                    (conj (eq_sym Hsam) (eq_sym Hfin)) Hloop)
          as (s2 & Hloop2 & [Hsam2 Hfin2]).
        destruct (Hon (eq_trans Hrec Hr) _ _ _ Hloop2) as [Ha Hb].
        split; congruence.
      * intros Hr. destruct (Hoff (eq_trans Hrec Hr)) as [Ha Hb].
        split; congruence.
Qed.

(** X23: however the receiving thread and the audio thread are
    interleaved, [onGetData] never reads outside [m_samples]; the chunks
    it has given to the audio thread are, put end to end, the first
    [m_offset] samples received: no sample is played twice, left out or
    out of order.  When [onGetData] has returned [false] the stream has
    finished and every sample received has been played.  The samples and
    the flag are the ones [receiveLoop] computes alone from the same
    answers of [receive]. *)
Theorem playback_plays_received_in_order (schedule : list Action) :
  Forall notEmpty (receives schedule) ->
  byteCount (receives schedule) < 2 ^ 64 ->
  exists t,
    run schedule started = Some t
    /\ 0 <= m_offset (stream t) <= Z.of_nat (length (m_samples (stream t)))
    /\ concat (played t)
       = firstn (Z.to_nat (m_offset (stream t))) (m_samples (stream t))
    /\ (stopped t = true ->
        m_hasFinished (stream t) = true
        /\ concat (played t) = m_samples (stream t))
    /\ (forall s' out rest,
          receiveLoop (receives schedule) create = Some (s', out, rest) ->
          m_samples (stream t) = m_samples s'
          /\ m_hasFinished (stream t) = m_hasFinished s').
Proof.
  intros Hne Hfit.
  assert (Hstart : consistent started).
  { unfold consistent. cbn. split; [lia|]. split; [reflexivity|].
    discriminate. }
  destruct (run_consistent schedule started Hstart Hne) as (t & Hrun & Hc);
    [cbn; lia|].
  destruct Hc as (Hoff & Hplayed & Hstop).
  exists t. split; [exact Hrun|]. split; [exact Hoff|].
  split; [exact Hplayed|]. split.
  - intros Hs. destruct (Hstop Hs) as (Hfin & _ & Heq).
    split; [exact Hfin|]. rewrite Hplayed, Heq, Nat2Z.id. apply firstn_all.
  - intros s' out rest Hloop.
    destruct (run_sameData schedule started t Hrun) as [Hon _].
    apply (Hon eq_refl s' out rest Hloop).
Qed.

(** X24: [onSeek] sets the offset to the number of samples of the time,
    milliseconds times sample rate times channels over 1000, when that
    product fits 64 bits.  On a stream that has finished, the next
    [onGetData] gives all the samples from that offset on, and the one
    after it returns [false]; a seek to or past the end of the samples
    makes [onGetData] return [false] at once.  So a seek to 0 replays
    everything that was received. *)
Theorem onSeek_replays_from_offset (sampleRate channelCount timeOffset : Z)
    (s : Stream) :
  m_hasFinished s = true ->
  0 <= timeOffset < 2 ^ 31 -> 0 <= sampleRate -> 0 < channelCount ->
  timeOffset * sampleRate * channelCount < 2 ^ 64 ->
  Z.of_nat (length (m_samples s)) < 2 ^ 64 ->
  let offset := timeOffset * sampleRate * channelCount / 1000 in
  let sought := onSeek sampleRate channelCount timeOffset s in
  m_offset sought = offset
  /\ (offset < Z.of_nat (length (m_samples s)) ->
      exists s',
        onGetData false sought
        = Some (Playing (skipn (Z.to_nat offset) (m_samples s)), s')
        /\ onGetData false s' = Some (Stopped, s'))
  /\ (Z.of_nat (length (m_samples s)) <= offset ->
      onGetData false sought = Some (Stopped, sought)).
Proof.
  intros Hfin Ht Hr Hc Hfit Hlen offset sought.
  assert (Hoff : m_offset sought = offset).
  { unfold sought, onSeek. cbn [m_offset with_offset].
    assert (0 <= timeOffset * sampleRate) by nia.
    assert (timeOffset * sampleRate < 2 ^ 64) by nia.
    assert (0 <= timeOffset * sampleRate * channelCount) by nia.
    rewrite (wrap_ulong_small timeOffset) by lia.
    rewrite (wrap_ulong_small (timeOffset * sampleRate)) by lia.
    rewrite wrap_ulong_small by lia. reflexivity. }
  split; [exact Hoff|].
  assert (Hpos : 0 <= offset) by (apply Z.div_pos; nia).
  unfold onGetData, copy. rewrite Hoff.
  unfold sought, onSeek. cbn [m_samples m_hasFinished with_offset m_offset].
  rewrite Hfin. cbn [negb andb]. rewrite !andb_true_r, !andb_false_r.
  split.
  - intros Hlt.
    destruct (Z.leb_spec (Z.of_nat (length (m_samples s))) offset); [lia|].
    fold offset.
    destruct (Z.leb_spec offset (Z.of_nat (length (m_samples s)))); [|lia].
    eexists. split; [reflexivity|].
    cbn [m_samples m_hasFinished m_offset].
    rewrite length_skipn, andb_true_r.
    rewrite wrap_ulong_small by lia.
    destruct (Z.leb_spec (Z.of_nat (length (m_samples s)))
                (offset + Z.of_nat (length (m_samples s)
                                    - Z.to_nat offset))); [|lia].
    reflexivity.
  - intros Hge.
    destruct (Z.leb_spec (Z.of_nat (length (m_samples s))) offset); [|lia].
    reflexivity.
Qed.

End NetworkAudioStreamFacts.

(** ** The complex text *)

Section ComplexTextFacts.

Import ComplexText.

Lemma firstn_snoc {A : Type} (d : A) : forall (n : nat) (l : list A),
  (n < length l)%nat -> firstn (S n) l = firstn n l ++ [nth n l d].
Proof.
  induction n as [|n IH]; intros l Hlen.
  - destruct l; simpl in *; [lia | reflexivity].
  - destruct l as [|a l]; simpl in Hlen; [lia|].
    change (firstn (S (S n)) (a :: l)) with (a :: firstn (S n) l).
    change (firstn (S n) (a :: l) ++ [nth (S n) (a :: l) d])
      with (a :: (firstn n l ++ [nth n l d])).
    rewrite IH by lia. reflexivity.
Qed.

Lemma nth_skipn_add {A : Type} (d : A) : forall (a n : nat) (l : list A),
  nth n (skipn a l) d = nth (a + n) l d.
Proof.
  induction a as [|a IH]; intros n l; [reflexivity|].
  destruct l as [|x l]; [destruct n; reflexivity|]. simpl. apply IH.
Qed.

Lemma segment_snoc (s : list Z) (start len : nat) :
  (start + len < length s)%nat ->
  segment s start (S len) = segment s start len ++ [at_ s (start + len)].
Proof.
  intros Hlen. unfold segment, at_.
  rewrite (firstn_snoc 0) by (rewrite length_skipn; lia).
  rewrite nth_skipn_add. reflexivity.
Qed.

Lemma segment_length (s : list Z) (start len : nat) :
  (start + len <= length s)%nat -> length (segment s start len) = len.
Proof.
  intros Hlen. unfold segment. rewrite length_firstn, length_skipn. lia.
Qed.

Lemma filter_complement {A : Type} (f : A -> bool) (l : list A) :
  (length (filter f l) + length (filter (fun c => negb (f c)) l))%nat
  = length l.
Proof.
  induction l as [|a l IH]; [reflexivity|].
  simpl. destruct (f a); simpl; lia.
Qed.

Lemma isBlank_not_break c : isBlank c = true -> isLineBreak c = false.
Proof.
  unfold isBlank, isLineBreak. intros Hc. apply orb_prop in Hc.
  destruct Hc as [Hc|Hc]; apply Z.eqb_eq in Hc; subst; reflexivity.
Qed.

Lemma scan_spec (s : list Z) (count : nat) : forall n lls sk,
  (n + count <= length s)%nat ->
  Z.of_nat (length s) < 2 ^ 31 ->
  scanned s n lls sk ->
  exists lls' sk',
    scan count (Z.of_nat n) s (Z.of_nat lls) (Z.of_nat sk)
    = (Z.of_nat lls', Z.of_nat sk')
    /\ scanned s (n + count) lls' sk'.
Proof.
  induction count as [|count IH]; intros n lls sk Hlen Hfit Hinv.
  - exists lls, sk. rewrite Nat.add_0_r. split; [reflexivity | exact Hinv].
  - destruct Hinv as (Hle & Hsk & Hbreak & Hstart).
    cbn [scan]. rewrite Nat2Z.id.
    assert (Hnext : wrap_ulong (Z.of_nat n + 1) = Z.of_nat (S n))
      by (rewrite wrap_ulong_small; lia).
    assert (Hseg : segment s lls (S n - lls)
                   = segment s lls (n - lls) ++ [at_ s n]).
    { replace (S n - lls)%nat with (S (n - lls)) by lia.
      rewrite segment_snoc by lia. do 3 f_equal. lia. }
    pose proof (segment_length s lls (n - lls)) as Hseglen.
    pose proof (filter_complement isBlank (segment s lls (n - lls))) as Hc.
    rewrite Hnext.
    replace (n + S count)%nat with (S n + count)%nat by lia.
    destruct (isBlank (at_ s n)) eqn:Hblank.
    + assert (Hsk' : wrap_ulong (Z.of_nat sk + 1) = Z.of_nat (S sk))
        by (rewrite wrap_ulong_small; lia).
      rewrite Hsk'. apply IH; [lia | exact Hfit |].
      split; [lia|]. rewrite Hseg, filter_app, existsb_app, length_app.
      cbn [filter existsb]. rewrite Hblank, Hbreak.
      rewrite (isBlank_not_break _ Hblank). cbn [length orb].
      repeat split; auto. lia.
    + destruct (isLineBreak (at_ s n)) eqn:Hbr.
      * change 0 with (Z.of_nat 0). apply IH; [lia | exact Hfit |].
        split; [lia|]. rewrite Nat.sub_diag. unfold segment. cbn [firstn].
        repeat split; auto. right.
        replace (S n - 1)%nat with n by lia. exact Hbr.
      * apply IH; [lia | exact Hfit |].
        split; [lia|]. rewrite Hseg, filter_app, existsb_app, length_app.
        cbn [filter existsb]. rewrite Hblank, Hbreak, Hbr. cbn [length orb].
        repeat split; auto. lia.
Qed.

Lemma query_facts (s : list Z) (index : Z) :
  0 <= index ->
  Z.of_nat (length s) < 2 ^ 31 ->
  exists (n lls sk : nat),
    Z.of_nat n = Z.min index (Z.of_nat (length s))
    /\ (n <= length s)%nat
    /\ scanned s n lls sk
    /\ query s index
       = {| lineStart := Z.of_nat lls;
            lineLength := Z.of_nat (n - lls);
            glyphIndex := Z.of_nat (n - lls - sk) |}
    /\ (n - lls - sk)%nat
       = length (filter (fun c => negb (isBlank c))
                        (segment s lls (n - lls))).
Proof.
  intros Hpos Hfit.
  set (n := Z.to_nat (Z.min index (Z.of_nat (length s)))).
  assert (Hn : Z.of_nat n = Z.min index (Z.of_nat (length s))) by lia.
  assert (Hclip : (if Z.of_nat (length s) <? index
                   then Z.of_nat (length s) else index) = Z.of_nat n).
  { destruct (Z.ltb_spec (Z.of_nat (length s)) index); lia. }
  destruct (scan_spec s n 0 0 0) as (lls & sk & Hscan & Hinv);
    [lia | exact Hfit | |].
  { split; [lia|]. cbn. repeat split; auto. }
  cbn [Nat.add] in Hinv.
  pose proof Hinv as (Hle & Hsk & _ & _).
  pose proof (segment_length s lls (n - lls)) as Hseglen.
  pose proof (filter_complement isBlank (segment s lls (n - lls))) as Hc.
  exists n, lls, sk. split; [exact Hn|]. split; [lia|].
  split; [exact Hinv|]. split.
  - unfold query. rewrite Hclip, Nat2Z.id.
    change 0 with (Z.of_nat 0) at 1 2 3. rewrite Hscan.
    rewrite (wrap_ulong_small (Z.of_nat n - Z.of_nat lls)) by lia.
    rewrite wrap_ulong_small by lia.
    rewrite to_int_id by lia.
    f_equal; lia.
  - lia.
Qed.

(** X25: [findCharacterPos] gives to harfbuzz the text from the start of
    the line of the character (the position after the last line break
    before it, or the start of the string) to the character, with the
    index clipped to the size of the string.  That text holds no line
    break, and the glyph index is the number of its characters that are
    neither spaces nor tabs; none of the unsigned subtractions wraps
    around. *)
Theorem findCharacterPos_shapes_line_of_index (m_string : list Z)
    (index : Z) :
  0 <= index ->
  Z.of_nat (length m_string) < 2 ^ 31 ->
  let q := query m_string index in
  let clipped := Z.min index (Z.of_nat (length m_string)) in
  let line :=
    segment m_string (Z.to_nat (lineStart q)) (Z.to_nat (lineLength q)) in
  0 <= lineStart q <= clipped
  /\ lineLength q = clipped - lineStart q
  /\ (lineStart q = 0
      \/ isLineBreak (at_ m_string (Z.to_nat (lineStart q - 1))) = true)
  /\ existsb isLineBreak line = false
  /\ glyphIndex q
     = Z.of_nat (length (filter (fun c => negb (isBlank c)) line)).
Proof.
  intros Hpos Hfit q clipped line.
  destruct (query_facts m_string index Hpos Hfit)
    as (n & lls & sk & Hn & Hlen & (Hle & Hsk & Hbreak & Hstart) & Hq & Hg).
  unfold line, q, clipped. rewrite Hq, <- Hn.
  cbn [lineStart lineLength glyphIndex]. rewrite !Nat2Z.id.
  split; [lia|]. split; [lia|]. split; [|split].
  - destruct Hstart as [->|Hbr]; [left; reflexivity | right].
    replace (Z.to_nat (Z.of_nat lls - 1)) with (lls - 1)%nat by lia.
    exact Hbr.
  - exact Hbreak.
  - rewrite Hg. reflexivity.
Qed.

Lemma glyphAt_inside (glyph_pos : list GlyphPosition) (i : nat) :
  (i < length glyph_pos)%nat ->
  glyphAt glyph_pos (Z.of_nat i) = nth_error glyph_pos i.
Proof.
  intros Hi. unfold glyphAt.
  destruct (Z.leb_spec 0 (Z.of_nat i)); [|lia].
  destruct (Z.ltb_spec (Z.of_nat i) (Z.of_nat (length glyph_pos))); [|lia].
  rewrite Nat2Z.id. reflexivity.
Qed.

Lemma glyphAt_outside (glyph_pos : list GlyphPosition) (i : Z) :
  ~ 0 <= i < Z.of_nat (length glyph_pos) -> glyphAt glyph_pos i = None.
Proof.
  intros Hi. unfold glyphAt.
  destruct (Z.leb_spec 0 i); [|reflexivity].
  destruct (Z.ltb_spec i (Z.of_nat (length glyph_pos))); [lia | reflexivity].
Qed.

Lemma advances_spec (glyph_pos : list GlyphPosition) (count : nat) :
  forall i,
    Z.of_nat (i + count) < 2 ^ 64 ->
    advances count (Z.of_nat i) glyph_pos
    = if (i + count <=? length glyph_pos)%nat
      then Some (firstn count (skipn i glyph_pos))
      else match count with O => Some [] | S _ => None end.
Proof.
  induction count as [|count IH]; intros i Hfit.
  - cbn [advances firstn]. destruct (i + 0 <=? length glyph_pos)%nat;
      reflexivity.
  - cbn [advances].
    assert (Hnext : wrap_ulong (Z.of_nat i + 1) = Z.of_nat (S i))
      by (rewrite wrap_ulong_small; lia).
    rewrite Hnext, IH by lia.
    replace (S i + count)%nat with (i + S count)%nat by lia.
    destruct (Nat.leb_spec (i + S count) (length glyph_pos)) as [Hin|Hout].
    + rewrite glyphAt_inside by lia.
      destruct (nth_error glyph_pos i) as [g|] eqn:Hg.
      * apply nth_error_split in Hg.
        destruct Hg as (l1 & l2 & Heq & Hl1). subst glyph_pos i.
        rewrite !skipn_app, !Nat.sub_diag, skipn_all.
        replace (S (length l1) - length l1)%nat with 1%nat by lia.
        rewrite (skipn_all2 (n := S (length l1))) by lia.
        reflexivity.
      * apply nth_error_None in Hg. lia.
    + destruct (Nat.lt_ge_cases i (length glyph_pos)) as [Hi|Hi].
      * rewrite glyphAt_inside by lia.
        destruct (nth_error glyph_pos i) as [g|]; [|reflexivity].
        destruct count; [lia | reflexivity].
      * rewrite glyphAt_outside by lia. reflexivity.
Qed.

(** X26: [findCharacterPos] reads inside the glyphs that harfbuzz
    returned exactly when the glyph index is at least 1 and at most the
    number of glyphs: the comparison with [glyph_count] changes nothing.
    It then adds the advances of the first [glyphIndex] glyphs and the
    offsets of the last of them.  For the index 0 the glyph index is 0 and
    the function reads [glyph_pos[glyphIndex - 1]] outside the glyphs. *)
Theorem findCharacterPos_reads_inside_iff
    (shape : list Z -> list GlyphPosition) (m_string : list Z) (index : Z) :
  0 <= index ->
  Z.of_nat (length m_string) < 2 ^ 31 ->
  let q := query m_string index in
  let glyph_pos :=
    shape (segment m_string (Z.to_nat (lineStart q))
                   (Z.to_nat (lineLength q))) in
  Z.of_nat (length glyph_pos) < 2 ^ 32 ->
  (findCharacterPos shape m_string index <> None
   <-> 1 <= glyphIndex q <= Z.of_nat (length glyph_pos))
  /\ (forall glyphs,
        findCharacterPos shape m_string index = Some glyphs ->
        added glyphs = firstn (Z.to_nat (glyphIndex q)) glyph_pos
        /\ nth_error glyph_pos (Z.to_nat (glyphIndex q - 1))
           = Some (last glyphs))
  /\ (index = 0 ->
      glyphIndex q = 0 /\ findCharacterPos shape m_string index = None).
Proof.
  intros Hpos Hfit q glyph_pos Hcount.
  destruct (query_facts m_string index Hpos Hfit)
    as (n & lls & sk & Hn & Hlen & (Hle & Hsk & Hbreak & Hstart) & Hq & Hg).
  assert (Hrun : findCharacterPos shape m_string index
                 = if (1 <=? glyphIndex q)
                      && (glyphIndex q <=? Z.of_nat (length glyph_pos))
                   then
                     match nth_error glyph_pos
                             (Z.to_nat (glyphIndex q - 1)) with
                     | Some g =>
                         Some {| added := firstn (Z.to_nat (glyphIndex q))
                                                 glyph_pos;
                                 last := g |}
                     | None => None
                     end
                   else None).
  { unfold findCharacterPos. fold q. fold glyph_pos.
    assert (Hsame : (if Z.of_nat (length glyph_pos) <? glyphIndex q
                     then glyphIndex q else glyphIndex q) = glyphIndex q)
      by (destruct (Z.of_nat (length glyph_pos) <? glyphIndex q);
          reflexivity).
    rewrite Hsame. unfold q. rewrite Hq. cbn [glyphIndex].
    set (g := (n - lls - sk)%nat). rewrite Nat2Z.id.
    change 0 with (Z.of_nat 0) at 1. rewrite advances_spec by lia.
    cbn [Nat.add skipn].
    destruct (Z.leb_spec 1 (Z.of_nat g)) as [Hone|Hzero].
    - rewrite wrap_ulong_small by lia.
      destruct (Z.leb_spec (Z.of_nat g) (Z.of_nat (length glyph_pos)))
        as [Hin|Hout]; cbn [andb].
      + destruct (Nat.leb_spec g (length glyph_pos)); [|lia].
        replace (Z.of_nat g - 1) with (Z.of_nat (g - 1)) by lia.
        rewrite glyphAt_inside by lia. rewrite Nat2Z.id. reflexivity.
      + destruct (Nat.leb_spec g (length glyph_pos)); [lia|].
        destruct g; [lia | reflexivity].
    - cbn [andb]. assert (g = 0%nat) as -> by lia.
      destruct (0 <=? length glyph_pos)%nat;
        (rewrite glyphAt_outside; [reflexivity|]);
        change (wrap_ulong (Z.of_nat 0 - 1)) with (2 ^ 64 - 1); lia. }
  assert (Hlast : 1 <= glyphIndex q <= Z.of_nat (length glyph_pos) ->
                  nth_error glyph_pos (Z.to_nat (glyphIndex q - 1))
                  <> None).
  { intros Hin. apply nth_error_Some. lia. }
  split; [|split].
  - rewrite Hrun. split.
    + intros Hsome.
      destruct (Z.leb_spec 1 (glyphIndex q));
        destruct (Z.leb_spec (glyphIndex q) (Z.of_nat (length glyph_pos)));
        cbn [andb] in Hsome; try congruence. lia.
    + intros Hin. pose proof (Hlast Hin) as Hg'.
      destruct (Z.leb_spec 1 (glyphIndex q)); [|lia].
      destruct (Z.leb_spec (glyphIndex q) (Z.of_nat (length glyph_pos)));
        [|lia].
      cbn [andb].
      destruct (nth_error glyph_pos (Z.to_nat (glyphIndex q - 1)));
        congruence.
  - intros glyphs Hsome. rewrite Hrun in Hsome.
    destruct ((1 <=? glyphIndex q)
              && (glyphIndex q <=? Z.of_nat (length glyph_pos)));
      [|discriminate].
    destruct (nth_error glyph_pos (Z.to_nat (glyphIndex q - 1))) as [g|];
      [|discriminate].
    inversion Hsome; subst. split; reflexivity.
  - intros Hzero.
    assert (Hgi : glyphIndex q = 0).
    { unfold q. rewrite Hq. cbn [glyphIndex]. lia. }
    split; [exact Hgi|]. rewrite Hrun, Hgi. reflexivity.
Qed.

Lemma segment_cons (s : list Z) (start len : nat) :
  (start < length s)%nat ->
  segment s start (S len) = at_ s start :: segment s (S start) len.
Proof.
  intros Hlen. unfold segment, at_.
  assert (Hskip : skipn start s = nth start s 0 :: skipn (S start) s).
  { revert s Hlen. induction start as [|start IH]; intros s Hlen.
    - destruct s; simpl in *; [lia | reflexivity].
    - destruct s as [|a s]; simpl in Hlen; [lia|].
      change (skipn (S start) (a :: s)) with (skipn start s).
      rewrite IH by lia. reflexivity. }
  rewrite Hskip. reflexivity.
Qed.

Lemma at_outside (s : list Z) (i : nat) :
  (length s <= i)%nat -> at_ s i = 0.
Proof. intros Hi. unfold at_. apply nth_overflow. exact Hi. Qed.

Lemma endsLine_test (c : Z) :
  negb (c =? 10) && negb (c =? 11) && negb (c =? 0) = negb (endsLine c).
Proof.
  unfold endsLine. destruct (c =? 10), (c =? 11), (c =? 0); reflexivity.
Qed.

Lemma findLineEnd_spec (data : list Z) (fuel : nat) : forall start,
  (length data - start < fuel)%nat ->
  exists e,
    findLineEnd fuel data start = Some e
    /\ (start <= e)%nat
    /\ (start <= length data -> e <= length data)%nat
    /\ existsb endsLine (segment data start (e - start)) = false
    /\ endsLine (at_ data e) = true.
Proof.
  induction fuel as [|fuel IH]; intros start Hfuel; [lia|].
  cbn [findLineEnd]. rewrite endsLine_test.
  destruct (endsLine (at_ data start)) eqn:Hc; cbn [negb].
  - exists start. rewrite Nat.sub_diag. repeat split; auto.
  - assert (Hin : (start < length data)%nat).
    { destruct (Nat.lt_ge_cases start (length data)) as [Hlt|Hge];
        [exact Hlt|].
      rewrite at_outside in Hc by exact Hge. discriminate. }
    destruct (IH (S start)) as (e & Hrun & Hle & Hlen & Hseg & Hend);
      [lia|].
    exists e. split; [exact Hrun|]. split; [lia|]. split; [lia|].
    split; [|exact Hend].
    replace (e - start)%nat with (S (e - S start)) by lia.
    rewrite segment_cons by exact Hin. cbn [existsb].
    rewrite Hc, Hseg. reflexivity.
Qed.

Lemma beforeNull_segment (data : list Z) (len : nat) : forall start,
  (start + len <= length data)%nat ->
  existsb endsLine (segment data start len) = false ->
  beforeNull (skipn start data)
  = segment data start len ++ beforeNull (skipn (start + len) data).
Proof.
  induction len as [|len IH]; intros start Hlen Hseg.
  - rewrite Nat.add_0_r. reflexivity.
  - rewrite segment_cons in * by lia. cbn [existsb] in Hseg.
    apply orb_false_iff in Hseg. destruct Hseg as [Hc Hseg].
    assert (Hskip : skipn start data = at_ data start :: skipn (S start) data).
    { pose proof (segment_cons data start (length data)) as Hs.
      unfold segment in Hs. rewrite !firstn_all2 in Hs
        by (rewrite length_skipn; lia).
      apply Hs. lia. }
    rewrite Hskip. cbn [beforeNull].
    assert (Hnz : (at_ data start =? 0) = false).
    { unfold endsLine in Hc. apply orb_false_iff in Hc. apply Hc. }
    rewrite Hnz, IH by (auto; lia).
    replace (S start + len)%nat with (start + S len)%nat by lia.
    reflexivity.
Qed.

Lemma beforeNull_at (data : list Z) (e : nat) :
  (e <= length data)%nat ->
  beforeNull (skipn e data)
  = if at_ data e =? 0 then []
    else at_ data e :: beforeNull (skipn (S e) data).
Proof.
  intros He. destruct (Nat.eq_dec e (length data)) as [->|Hne].
  - rewrite skipn_all, at_outside by lia. reflexivity.
  - pose proof (segment_cons data e (length data)) as Hs.
    unfold segment in Hs. rewrite !firstn_all2 in Hs
      by (rewrite length_skipn; lia).
    rewrite Hs by lia. reflexivity.
Qed.

Lemma lineLoop_spec (data : list Z) (bound fuel : nat) : forall start,
  (length data < bound)%nat ->
  (start <= length data)%nat ->
  (length data - start < fuel)%nat ->
  exists lines,
    lineLoop bound fuel data start = Some lines
    /\ chained start lines
    /\ Forall (fun line =>
                 (start <= line_start line <= line_end line)%nat
                 /\ (line_end line <= length data)%nat
                 /\ terminator line = at_ data (line_end line)
                 /\ existsb endsLine (text data line) = false) lines
    /\ flat_map (fun line => text data line ++ [terminator line]) lines
       = beforeNull (skipn start data) ++ [0].
Proof.
  induction fuel as [|fuel IH]; intros start Hbound Hstart Hfuel; [lia|].
  cbn [lineLoop].
  destruct (findLineEnd_spec data bound start) as (e & Hrun & Hle & Hlen
                                                   & Hseg & Hend); [lia|].
  specialize (Hlen Hstart). rewrite Hrun.
  pose proof (beforeNull_segment data (e - start) start) as Hbefore.
  replace (start + (e - start))%nat with e in Hbefore by lia.
  rewrite Hbefore, beforeNull_at by (auto; lia).
  destruct (Z.eqb_spec (at_ data e) 0) as [Hnull|Hnot].
  - eexists. split; [reflexivity|]. split; [|split].
    + cbn. split; [reflexivity | exact Hnull].
    + constructor; [|constructor]. cbn. repeat split; auto; lia.
    + cbn. unfold text. cbn. rewrite Hnull, !app_nil_r. reflexivity.
  - assert (Hin : (e < length data)%nat).
    { destruct (Nat.lt_ge_cases e (length data)) as [Hlt|Hge];
        [exact Hlt|].
      rewrite at_outside in Hnot by exact Hge. congruence. }
    assert (Hbreak : isLineBreak (at_ data e) = true).
    { unfold endsLine in Hend. unfold isLineBreak.
      apply Z.eqb_neq in Hnot. rewrite Hnot, orb_false_r in Hend.
      exact Hend. }
    destruct (IH (S e)) as (rest & Hloop & Hchain & Hall & Hcat);
      [exact Hbound | lia | lia |].
    rewrite Hloop. eexists. split; [reflexivity|]. split; [|split].
    + cbn [chained line_start terminator line_end].
      split; [reflexivity|].
      destruct rest as [|line rest]; [destruct Hchain|].
      split; [exact Hbreak | exact Hchain].
    + constructor.
      * cbn. repeat split; auto; lia.
      * eapply Forall_impl; [|exact Hall].
        intros line (Hs & He & Ht & Hx). repeat split; auto; lia.
    + cbn [flat_map]. rewrite Hcat. unfold text at 1.
      cbn [line_start line_end terminator].
      rewrite <- !app_assoc. reflexivity.
Qed.

(** X27: [updateGeometry] always leaves its loop over the lines.  The
    lines it gives to harfbuzz follow one another from the start of the
    string: each ends at a line feed, a vertical tab or the null character
    and holds none of them, the next starts after the line break, and the
    last ends at the first null character.  Put end to end with the
    characters that end them, the lines are the string up to its first
    null character; an empty string has no line. *)
Theorem updateGeometry_splits_lines (m_string : list Z) :
  updateGeometry (S (length m_string)) [] = Some []
  /\ (m_string <> [] ->
      exists lines,
        updateGeometry (S (length m_string)) m_string = Some lines
        /\ chained 0 lines
        /\ Forall (fun line =>
                     (line_start line <= line_end line <= length m_string)%nat
                     /\ terminator line = at_ m_string (line_end line)
                     /\ existsb endsLine (text m_string line) = false)
                  lines
        /\ flat_map (fun line => text m_string line ++ [terminator line])
                    lines
           = beforeNull m_string ++ [0]).
Proof.
  split; [reflexivity|]. intros Hne.
  destruct (lineLoop_spec m_string (S (length m_string))
              (S (length m_string)) 0)
    as (lines & Hrun & Hchain & Hall & Hcat); [lia | lia | lia |].
  exists lines. split.
  - destruct m_string; [congruence | exact Hrun].
  - split; [exact Hchain|]. split; [|exact Hcat].
    eapply Forall_impl; [|exact Hall].
    intros line (Hs & He & Ht & Hx). repeat split; auto; lia.
Qed.

Lemma existsb_segment_false (f : Z -> bool) (s : list Z) (len : nat) :
  forall start,
    existsb f (segment s start len) = false ->
    forall k, (start <= k < start + len)%nat -> (k < length s)%nat ->
      f (at_ s k) = false.
Proof.
  induction len as [|len IH]; intros start Hseg k Hk Hlen; [lia|].
  rewrite segment_cons in Hseg by lia. cbn [existsb] in Hseg.
  apply orb_false_iff in Hseg. destruct Hseg as [Hhead Htail].
  destruct (Nat.eq_dec k start) as [->|Hne]; [exact Hhead|].
  apply (IH (S start) Htail); lia.
Qed.

Lemma isLineBreak_endsLine (c : Z) :
  isLineBreak c = true -> endsLine c = true.
Proof.
  unfold isLineBreak, endsLine. intros ->. reflexivity.
Qed.

Lemma chained_covers (data : list Z) (lines : list Line) : forall start,
  chained start lines ->
  Forall (fun line => terminator line = at_ data (line_end line)) lines ->
  forall n, (start <= n)%nat ->
    (forall k, (start <= k < n)%nat -> at_ data k <> 0) ->
    exists line,
      In line lines
      /\ (line_start line <= n)%nat
      /\ (n <= line_end line \/ line_end line < line_start line)%nat
      /\ (line_start line = start
          \/ isLineBreak (at_ data (line_start line - 1)) = true).
Proof.
  induction lines as [|line rest IH]; intros start Hchain Hall n Hn Hnull;
    [destruct Hchain|].
  destruct Hchain as [Hstart Hrest].
  inversion Hall as [|? ? Hterm Hall']; subst.
  destruct (Nat.le_gt_cases n (line_end line)) as [Hin|Hout].
  { exists line. split; [left; reflexivity|]. split; [lia|].
    split; [left; exact Hin | left; reflexivity]. }
  destruct (Nat.lt_ge_cases (line_end line) (line_start line)) as [Hbad|Hok].
  { exists line. split; [left; reflexivity|]. split; [lia|].
    split; [right; exact Hbad | left; reflexivity]. }
  destruct rest as [|next rest].
  - exfalso. apply (Hnull (line_end line)); [lia|]. congruence.
  - destruct Hrest as [Hbreak Hchain].
    destruct (IH (S (line_end line)) Hchain Hall' n) as
      (found & Hfound & Hle & Hge & Hbefore); [lia | intros k Hk; apply Hnull; lia |].
    exists found. split; [right; exact Hfound|]. split; [exact Hle|].
    split; [exact Hge|]. right.
    destruct Hbefore as [Heq|Hbr]; [|exact Hbr].
    rewrite Heq. replace (S (line_end line) - 1)%nat with (line_end line)
      by lia.
    rewrite <- Hterm. exact Hbreak.
Qed.

(** X28: the two functions agree on the line of a character.  When no
    null character comes before the index, the text that
    [findCharacterPos] gives to harfbuzz starts where one of the lines of
    [updateGeometry] starts, and the index lies in that line: the text is
    the part of that line before the character. *)
Theorem findCharacterPos_line_is_a_line_of_updateGeometry
    (m_string : list Z) (index : Z) (lines : list Line) :
  0 <= index <= Z.of_nat (length m_string) ->
  Z.of_nat (length m_string) < 2 ^ 31 ->
  existsb (Z.eqb 0) (firstn (Z.to_nat index) m_string) = false ->
  m_string <> [] ->
  updateGeometry (S (length m_string)) m_string = Some lines ->
  let q := query m_string index in
  exists line,
    In line lines
    /\ Z.of_nat (line_start line) = lineStart q
    /\ Z.of_nat (line_start line) <= index <= Z.of_nat (line_end line)
    /\ segment m_string (Z.to_nat (lineStart q)) (Z.to_nat (lineLength q))
       = firstn (Z.to_nat (lineLength q)) (text m_string line).
Proof.
  intros Hindex Hfit Hnull Hne Hrun q.
  destruct (query_facts m_string index (proj1 Hindex) Hfit)
    as (n & lls & sk & Hn & Hlen & (Hle & Hsk & Hbreak & Hstart) & Hq & Hg).
  assert (Hni : Z.of_nat n = index) by lia.
  destruct (lineLoop_spec m_string (S (length m_string))
              (S (length m_string)) 0)
    as (lines' & Hrun' & Hchain & Hall & _); [lia | lia | lia |].
  assert (lines' = lines) as ->.
  { destruct m_string; [congruence|]. unfold updateGeometry in Hrun.
    congruence. }
  assert (Hnonull : forall k, (0 <= k < n)%nat -> at_ m_string k <> 0).
  { intros k Hk Hzero.
    assert (Hseg : existsb (Z.eqb 0) (segment m_string 0 n) = false).
    { unfold segment. cbn [skipn]. rewrite <- Hni, Nat2Z.id in Hnull.
      exact Hnull. }
    pose proof (existsb_segment_false _ _ _ _ Hseg k ltac:(lia) ltac:(lia))
      as Hk0.
    rewrite Hzero in Hk0. discriminate. }
  destruct (chained_covers m_string lines 0 Hchain) with (n := n)
    as (line & Hin & Hs & He & Hbefore); [ | lia | exact Hnonull | ].
  { eapply Forall_impl; [|exact Hall]. intros l (_ & _ & Ht & _). exact Ht. }
  pose proof (proj1 (Forall_forall _ _) Hall line Hin)
    as ((_ & Hse) & Hel & Hterm & Htext).
  assert (Hend : (n <= line_end line)%nat) by lia.
  assert (Hsame : line_start line = lls).
  { destruct (Nat.lt_trichotomy lls (line_start line)) as [Hlt|[Heq|Hgt]].
    - exfalso. destruct Hbefore as [Hzero|Hbr]; [lia|].
      pose proof (existsb_segment_false _ _ _ _ Hbreak
                    (line_start line - 1)%nat ltac:(lia) ltac:(lia)) as Hno.
      congruence.
    - symmetry. exact Heq.
    - exfalso. destruct Hstart as [Hzero|Hbr]; [lia|].
      unfold text in Htext.
      pose proof (existsb_segment_false _ _ _ _ Htext (lls - 1)%nat
                    ltac:(lia) ltac:(lia)) as Hno.
      rewrite (isLineBreak_endsLine _ Hbr) in Hno. discriminate. }
  exists line. unfold q. rewrite Hq. cbn [lineStart lineLength].
  rewrite !Nat2Z.id.
  split; [exact Hin|]. split; [lia|]. split; [lia|].
  unfold text, segment. rewrite Hsame, firstn_firstn.
  f_equal. lia.
Qed.

End ComplexTextFacts.

(** ** The name of the executable *)

Section ExecutableNameFacts.

Import ExecutableName.

Lemma cString_zeros (data : list Z) (n : nat) :
  cString (data ++ repeat 0 (S n)) = cString data.
Proof.
  induction data as [|c data IH]; [reflexivity|].
  cbn [app cString]. rewrite IH. reflexivity.
Qed.

Lemma skipn_zeros (n : nat) : forall m,
  skipn n (repeat 0 m) = repeat 0 (m - n).
Proof.
  induction n as [|n IH]; intros m.
  - rewrite Nat.sub_0_r. reflexivity.
  - destruct m as [|m]; [reflexivity|]. cbn [repeat skipn]. apply IH.
Qed.

Lemma readLoop_spec (reads : list (list Z)) : forall data,
  Forall (fun chunk => (length chunk <= 256)%nat) reads ->
  Z.of_nat (length data) + Z.of_nat (length (content reads)) + 256
  < 2 ^ 64 ->
  readLoop reads (Z.of_nat (length data)) (data ++ repeat 0 256)
  = Some (Z.of_nat (length (data ++ content reads)),
          (data ++ content reads) ++ repeat 0 256).
Proof.
  induction reads as [|chunk reads IH]; intros data Hshort Hfit.
  - cbn. rewrite app_nil_r. reflexivity.
  - destruct chunk as [|c chunk].
    + cbn. rewrite app_nil_r. reflexivity.
    + inversion Hshort as [|? ? Hchunk Hrest]; subst.
      set (piece := c :: chunk) in *.
      assert (Hcontent : content (piece :: reads) = piece ++ content reads)
        by reflexivity.
      rewrite Hcontent in *. rewrite length_app in Hfit.
      change (readLoop (piece :: reads) (Z.of_nat (length data))
                (data ++ repeat 0 256))
        with (if Z.of_nat (length data) + 256
                 <=? Z.of_nat (length (data ++ repeat 0 256))
              then
                readLoop reads
                  (wrap_ulong (Z.of_nat (length data)
                               + Z.of_nat (length piece)))
                  (resize
                     (Z.to_nat
                        (wrap_ulong
                           (Z.of_nat
                              (length (store (Z.to_nat (Z.of_nat
                                                          (length data)))
                                             piece
                                             (data ++ repeat 0 256)))
                            + Z.of_nat (length piece))))
                     (store (Z.to_nat (Z.of_nat (length data))) piece
                            (data ++ repeat 0 256)))
              else None).
      rewrite length_app, repeat_length.
      destruct (Z.leb_spec (Z.of_nat (length data) + 256)
                  (Z.of_nat (length data + 256))); [|lia].
      rewrite Nat2Z.id.
      assert (Hstore : store (length data) piece (data ++ repeat 0 256)
                       = (data ++ piece) ++ repeat 0 (256 - length piece)).
      { unfold store.
        rewrite firstn_app, firstn_all, Nat.sub_diag, firstn_O, app_nil_r.
        rewrite skipn_app, skipn_all2 by lia.
        replace (length data + length piece - length data)%nat
          with (length piece) by lia.
        rewrite skipn_zeros, <- app_assoc. reflexivity. }
      rewrite Hstore.
      assert (Hlen : length ((data ++ piece)
                             ++ repeat 0 (256 - length piece))
                     = (length data + 256)%nat).
      { rewrite !length_app, repeat_length. lia. }
      rewrite Hlen, !wrap_ulong_small by lia.
      assert (Hresize :
                resize (Z.to_nat (Z.of_nat (length data + 256)
                                  + Z.of_nat (length piece)))
                       ((data ++ piece) ++ repeat 0 (256 - length piece))
                = (data ++ piece) ++ repeat 0 256).
      { unfold resize. rewrite Hlen, firstn_all2 by lia.
        replace (Z.to_nat (Z.of_nat (length data + 256)
                           + Z.of_nat (length piece)) - (length data + 256))%nat
          with (length piece) by lia.
        rewrite <- app_assoc, <- repeat_app. do 3 f_equal. lia. }
      rewrite Hresize.
      replace (Z.of_nat (length data) + Z.of_nat (length piece))
        with (Z.of_nat (length (data ++ piece)))
        by (rewrite length_app; lia).
      rewrite IH by (auto; rewrite length_app; lia).
      rewrite <- !app_assoc. reflexivity.
Qed.

(** X29: [findExecutableName] never reads into memory outside its
    buffer: before every call of [read] the buffer holds what was read so
    far and 256 more bytes.  Its result depends only on what the file
    holds, not on how [read] cuts it into pieces: it is the [basename] of
    the first string of the file, and [sfml] when the file cannot be
    opened or the first [read] gives nothing. *)
Theorem findExecutableName_is_basename_of_first_string
    (basename : list Z -> list Z) (reads : list (list Z)) :
  Forall (fun chunk => (length chunk <= 256)%nat) reads ->
  Z.of_nat (length (content reads)) + 256 < 2 ^ 64 ->
  findExecutableName basename None = Some sfml
  /\ findExecutableName basename (Some reads)
     = Some (match content reads with
             | [] => sfml
             | _ :: _ => basename (cString (content reads))
             end).
Proof.
  intros Hshort Hfit. split; [reflexivity|].
  unfold findExecutableName.
  pose proof (readLoop_spec reads [] Hshort) as Hloop.
  cbn [length app] in Hloop. change (Z.of_nat 0) with 0 in Hloop.
  rewrite Hloop by lia.
  destruct (content reads) as [|c data] eqn:Hcontent; [reflexivity|].
  set (all := c :: data) in *.
  assert (Hpos : (0 < length all)%nat) by (cbn; lia).
  destruct (Z.eqb_spec (Z.of_nat (length all)) 0) as [Habs|_]; [lia|].
  cbn [negb]. rewrite length_app, repeat_length.
  destruct (Z.ltb_spec (Z.of_nat (length all))
              (Z.of_nat (length all + 256))); [|lia].
  rewrite Nat2Z.id. do 2 f_equal.
  unfold Icon.upd.
  rewrite skipn_app, skipn_all, Nat.sub_diag. cbn [app skipn repeat].
  rewrite firstn_app, firstn_all, Nat.sub_diag, firstn_O, app_nil_r.
  apply (cString_zeros all 255).
Qed.

End ExecutableNameFacts.

(** ** The buffer of the music stream *)

Section MusicBufferFacts.

Import Music.

Context {F : Type} `{SoundFile F}.

(** X30: [onGetData] never changes the size of [m_samples]: the chunk
    holds at most as many samples as the buffer, and the samples of the
    buffer after the ones it read are left as they were.  With an empty
    buffer, as before [initialize], it reads nothing and returns
    [false]. *)
Theorem onGetData_keeps_buffer_size (m : Music F) (continue : bool)
    (data : Chunk) (m' : Music F) :
  (forall f maxCount, 0 <= maxCount ->
     Z.of_nat (length (fst (read f maxCount))) <= maxCount) ->
  onGetData m = (continue, data, m') ->
  length (m_samples m') = length (m_samples m)
  /\ 0 <= sampleCount data <= Z.of_nat (length (m_samples m))
  /\ skipn (Z.to_nat (sampleCount data)) (samples data)
     = skipn (Z.to_nat (sampleCount data)) (m_samples m)
  /\ (m_samples m = [] -> continue = false /\ sampleCount data = 0)
  /\ (continue = true -> 0 < sampleCount data).
Proof.
  intros Hread Hrun. unfold onGetData in Hrun.
  pose proof (Hread (m_file m) (Z.of_nat (length (m_samples m)))
                ltac:(lia)) as Hle.
  destruct (read (m_file m) (Z.of_nat (length (m_samples m))))
    as [got file] eqn:Hr.
  cbn [fst] in Hle. inversion Hrun; subst; clear Hrun.
  cbn [m_samples samples sampleCount].
  split; [apply store_length; lia|]. split; [lia|]. split; [|split].
  - rewrite Nat2Z.id. unfold store.
    rewrite skipn_app, skipn_all, Nat.sub_diag. reflexivity.
  - intros Hempty. rewrite Hempty in Hle. cbn in Hle.
    assert (Hzero : Z.of_nat (length got) = 0) by lia.
    rewrite Hzero. split; reflexivity.
  - intros Hcont. apply andb_prop in Hcont. destruct Hcont as [Hnz _].
    apply negb_true_iff, Z.eqb_neq in Hnz. lia.
Qed.

End MusicBufferFacts.

(** * Examples of the further properties *)

Section MoreExamples.

Import EventQueue KeyRepeat VideoModeSwitch Monitor EWMH Focus Dnd.
Import CursorGrab Requests Icon Samples MoreSamples.

Lemma processEvents_leaves_other_wm_protocols_witness :
  exists rest forwarded,
    processEvents sampleClipboard wmProtocolsAtom sampleWindow
      [otherClose; samplePress]
    = Some (rest, forwarded)
    /\ ~ In otherClose forwarded
    /\ rest = sampleClipboard [otherClose].
Proof.
  exists [otherClose], [samplePress]. split; [reflexivity|].
  destruct (processEvents_leaves_other_wm_protocols sampleClipboard
              wmProtocolsAtom sampleWindow [otherClose; samplePress]
              [otherClose] [samplePress] otherClose)
    as (Hnot & Hrest & _).
  - reflexivity.
  - left. reflexivity.
  - reflexivity.
  - reflexivity.
  - simpl. lia.
  - split; [exact Hnot | exact Hrest].
Defined.

Lemma processEvents_held_key_witness :
  processEvents sampleClipboard wmProtocolsAtom
    (setKeyRepeatEnabled false sampleWindow)
    (heldKey (m_window sampleWindow) 38 1000 [1500; 1530] 1600)
  = Some ([],
          [keyEventOf (m_window sampleWindow) 38 KeyPress 1000;
           keyEventOf (m_window sampleWindow) 38 KeyRelease 1600]).
Proof.
  rewrite (processEvents_held_key sampleClipboard wmProtocolsAtom false
             sampleWindow 38 1000 1600 [1500; 1530]).
  - reflexivity.
  - lia.
  - lia.
  - apply Forall_cons; [lia|]. apply Forall_cons; [lia|]. apply Forall_nil.
Defined.

Lemma resetVideoMode_restores_saved_mode_witness :
  let switched :=
    setVideoMode sampleVideoMode_eq desktop1920 1%nat
      (sampleXRandR RR_Connected RR_Rotate_0) mode800 sampleWindow None in
  resetVideoMode 1%nat switchedXRandR (fst (fst switched))
    (snd (fst switched))
  = (None, [XRRSetCrtcConfig 63 1920 0 71 RR_Rotate_0 [66]]).
Proof.
  intros switched.
  exact (resetVideoMode_restores_saved_mode sampleVideoMode_eq desktop1920
           1%nat (sampleXRandR RR_Connected RR_Rotate_0) switchedXRandR
           mode800 sampleWindow (fst (fst switched)) None
           (snd (fst switched)) (snd switched) sampleResources
           {| output_crtc := 63; output_connection := RR_Connected |}
           {| crtc_x := 0; crtc_y := 0; crtc_mode := 71;
              crtc_rotation := RR_Rotate_0 |}
           {| crtc_x := 1920; crtc_y := 0; crtc_mode := 72;
              crtc_rotation := RR_Rotate_0 |}
           sampleResources
           eq_refl eq_refl eq_refl eq_refl eq_refl eq_refl eq_refl eq_refl).
Defined.

Lemma getPrimaryMonitorPosition_is_switched_crtc_witness :
  exists crtc xRandMode rotation outputs,
    snd (setVideoMode sampleVideoMode_eq desktop1920 1%nat switchedXRandR
           mode800 sampleWindow None)
    = [XRRSetCrtcConfig crtc 1920 0 xRandMode rotation outputs].
Proof.
  set (switched := setVideoMode sampleVideoMode_eq desktop1920 1%nat
                      switchedXRandR mode800 sampleWindow None).
  destruct (getPrimaryMonitorPosition_is_switched_crtc sampleVideoMode_eq
              desktop1920 1%nat switchedXRandR mode800 sampleWindow
              (fst (fst switched)) None (snd (fst switched)) (snd switched))
    as [_ Hswitch].
  destruct (Hswitch eq_refl eq_refl)
    as (crtc & xRandMode & rotation & outputs & Htr & _).
  exists crtc, xRandMode, rotation, outputs. exact Htr.
Defined.

Lemma xdndPosition_after_end_is_refused_witness :
  let x := sampleServer "i3" true [] in
  let ended := fst (processClientMessage x false 0 0 sampleWindow
                      sampleDrop) in
  m_dropSource ended = 0
  /\ exists status,
       snd (processClientMessage x false 0 0 ended sampleMove)
       = [XSendEvent 0 false 0 status]
       /\ xclient_l1 status = 0.
Proof.
  destruct (xdndPosition_after_end_is_refused (sampleServer "i3" true [])
              false 0 0 eq_refl sampleWindow sampleDrop sampleMove
              (or_intror eq_refl) eq_refl)
    as (Hsource & _ & status & Hsent & _ & _ & Hflag).
  split; [exact Hsource|].
  exists status. split; [exact Hsent | exact Hflag].
Defined.

Lemma xdndPosition_reports_negotiation_witness :
  let x := sampleServer "i3" true [] in
  exists status,
    snd (processClientMessage x false 0 0
           (afterMessages x false 0 0 sampleWindow [sampleEnter; sampleMove])
           sampleMove)
    = [XSendEvent 90 false 0 status]
    /\ xclient_l0 status = m_window sampleWindow
    /\ xclient_l1 status = 1.
Proof.
  intros x.
  pose proof (xdndPosition_reports_negotiation x false 0 0 eq_refl
                sampleWindow sampleEnter sampleMove [sampleMove] eq_refl
                (Forall_cons sampleMove eq_refl (Forall_nil _)) eq_refl)
    as Hsent.
  cbv zeta in Hsent. rewrite Hsent.
  eexists. split; [reflexivity|]. split; reflexivity.
Defined.

Lemma wmProtocols_close_and_ping_witness :
  let x := ewmhServer 1 in
  In (pushEvent "Closed")
     (snd (processClientMessage x false 601 0 sampleWindow
             (clientMessage 300 301 0 0 0 0)))
  /\ exists pong,
       snd (processClientMessage x false 601 0 sampleWindow
              (clientMessage 300 601 5000 7 0 0))
       = [XSendEvent 1 false
            (Z.lor SubstructureNotifyMask SubstructureRedirectMask) pong]
       /\ xclient_window pong = 1
       /\ xclient_l1 pong = 5000.
Proof.
  intros x. split.
  - destruct (wmProtocols_close_and_ping x false 601 0 eq_refl sampleWindow
                (clientMessage 300 301 0 0 0 0) eq_refl)
      as (_ & Hclose & _).
    apply Hclose. repeat split; reflexivity.
  - destruct (wmProtocols_close_and_ping x false 601 0 eq_refl sampleWindow
                (clientMessage 300 601 5000 7 0 0) eq_refl)
      as (_ & _ & _ & Hping).
    destruct Hping as (pong & Hsent & Hwindow & _ & _ & Hdata);
      [reflexivity | reflexivity | discriminate | reflexivity
       | discriminate |].
    exists pong. split; [exact Hsent|]. split; [exact Hwindow|].
    simpl in Hdata. congruence.
Defined.

Lemma updateLastInputTime_idempotent_witness :
  let updated := fst (updateLastInputTime (ewmhServer 1) 2000 sampleWindow) in
  m_lastInputTime updated = 2000
  /\ updateLastInputTime bareServer 2000 updated = (updated, []).
Proof.
  destruct (updateLastInputTime_idempotent (ewmhServer 1) bareServer 2000
              sampleWindow _ _ eq_refl)
    as (Htime & _ & _ & _ & Hsecond).
  split; [apply Htime; discriminate | exact Hsecond].
Defined.

Lemma propertyNotify_only_initialises_witness :
  let events := [PropertyNotifyEvent 3000; ButtonPressEvent 1 (10, 20) 4000;
                 PropertyNotifyEvent 5000] in
  processAll (ewmhServer 1) events sampleWindow
  = processAll (ewmhServer 1) [ButtonPressEvent 1 (10, 20) 4000] sampleWindow
  /\ m_lastInputTime (fst (processAll (ewmhServer 1) events sampleWindow))
     <> 0.
Proof.
  intros events.
  destruct (propertyNotify_only_initialises (ewmhServer 1) events
              sampleWindow) as (Hknown & _).
  destruct Hknown as (Hsame & Hkeep & _); [discriminate|].
  split; [exact Hsame | exact Hkeep].
Defined.

Lemma focusIn_keeps_members_witness :
  fst (focusIn (ewmhServer 1) (fun _ => 1) grabbedMembers)
  = grabbedMembers
  /\ length (filter isGrabOutput
               (snd (focusIn (ewmhServer 1) (fun _ => 1)
                       grabbedMembers)))
     = maxTrialsCount.
Proof.
  destruct (focusIn_keeps_members (ewmhServer 1) (fun _ => 1)
              grabbedMembers _ _ eq_refl)
    as (Hsame & _ & _ & _ & _ & Hfive).
  split; [exact Hsame|].
  apply Hfive; [reflexivity|]. intros k _. discriminate.
Defined.

Lemma focusIn_undoes_requestFocus_urgency_witness :
  let m := with_impl window8 sampleMembers in
  In (effect (XSetWMHints 8 1))
     (snd (focusIn (ewmhServer 257) thirdGrabSucceeds m)).
Proof.
  intros m.
  destruct (focusIn_undoes_requestFocus_urgency (ewmhServer 1)
              (ewmhServer 257) initialStatics _ [sampleWindow; window8]
              thirdGrabSucceeds m _ 1 257 eq_refl eq_refl
              (or_introl eq_refl) eq_refl)
    as (_ & Hold).
  apply Hold. reflexivity.
Defined.

Lemma focusOut_then_focusIn_regrabs_witness :
  In (effect XUngrabPointer) (focusOut grabbedMembers)
  /\ filter isGrabOutput
       (snd (focusIn (ewmhServer 1) (fun _ => GrabSuccess) grabbedMembers))
     = [effect (XGrabPointer (m_window (impl grabbedMembers)))].
Proof.
  destruct (focusOut_then_focusIn_regrabs (ewmhServer 1)
              (fun _ => GrabSuccess) grabbedMembers)
    as (_ & Hungrab & Hregrab).
  split; [apply Hungrab; reflexivity|].
  apply Hregrab; reflexivity.
Defined.

Lemma configureNotify_pushes_once_witness :
  let resized := fst (configureNotify 800 600 sampleMembers) in
  m_previousSize resized = (800, 600)
  /\ configureNotify 800 600 resized = (resized, []).
Proof.
  destruct (configureNotify_pushes_once 800 600 sampleMembers _ _ eq_refl)
    as (Hsize & _ & _ & Hsecond).
  split; [exact Hsize | exact Hsecond].
Defined.

Lemma buttons_press_and_release_witness :
  filter isPush
    (snd (buttonPress (ewmhServer 1) 8 (10, 20) 2000 sampleWindow))
  = [push (MouseButtonPressed Extra1 (10, 20))]
  /\ buttonRelease 8 (10, 20) = [push (MouseButtonReleased Extra1 (10, 20))]
  /\ buttonRelease 5 (10, 20)
     = [push (MouseWheelScrolled Vertical (-1) (10, 20))]
  /\ buttonRelease 10 (10, 20) = [].
Proof.
  split; [|split; [|split]].
  - destruct (buttons_press_and_release (ewmhServer 1) 8 (10, 20) (10, 20)
                2000 sampleWindow) as (Hbutton & _).
    apply (Hbutton Extra1). right. right. right. left. reflexivity.
  - destruct (buttons_press_and_release (ewmhServer 1) 8 (10, 20) (10, 20)
                2000 sampleWindow) as (Hbutton & _).
    apply (Hbutton Extra1). right. right. right. left. reflexivity.
  - destruct (buttons_press_and_release (ewmhServer 1) 5 (10, 20) (10, 20)
                2000 sampleWindow) as (_ & Hwheel & _).
    apply Hwheel. lia.
  - destruct (buttons_press_and_release (ewmhServer 1) 10 (10, 20) (10, 20)
                2000 sampleWindow) as (_ & _ & Hother).
    apply Hother. lia.
Defined.

Lemma size_hints_of_fixed_window_witness :
  (exists hints,
     setSize (800, 600) fixedMembers
     = [XSetWMNormalHints (m_window (impl fixedMembers)) hints;
        XResizeWindow (m_window (impl fixedMembers)) 800 600;
        effect XFlush]
     /\ min_width hints = 800 /\ max_width hints = 800)
  /\ setWindowSizeConstraints (Some (100, 100)) None fixedMembers = []
  /\ exists hints,
       setWindowSizeConstraints None None sampleMembers
       = [XSetWMNormalHints (m_window (impl sampleMembers)) hints]
       /\ hint_flags hints = 0.
Proof.
  split; [|split].
  - destruct (size_hints_of_fixed_window (800, 600) (Some (100, 100)) None
                fixedMembers) as (Hfixed & _).
    destruct (Hfixed eq_refl)
      as (_ & hints & Hsent & _ & _ & _ & Hmin & Hmax & _).
    exists hints. split; [exact Hsent|]. split; [exact Hmin | exact Hmax].
  - destruct (size_hints_of_fixed_window (800, 600) (Some (100, 100)) None
                fixedMembers) as (Hfixed & _).
    apply Hfixed. reflexivity.
  - destruct (size_hints_of_fixed_window (800, 600) None None sampleMembers)
      as (_ & Hfree).
    destruct (Hfree eq_refl) as (_ & hints & Hsent & _ & _ & Hnone & _).
    exists hints. split; [exact Hsent|]. apply Hnone; reflexivity.
Defined.

Lemma setProtocols_ping_needs_pid_witness :
  exists before,
    fst (setProtocols (ewmhServer 1) initialStatics 4242 sampleWindow)
    = before
      ++ [XChangeProperty 7 602 XA_CARDINAL 32 PropModeReplace [4242];
          XChangeProperty 7 300 XA_ATOM 32 PropModeReplace [301; 601]].
Proof.
  destruct (setProtocols_ping_needs_pid (ewmhServer 1) initialStatics _
              4242 sampleWindow _ eq_refl)
    as (_ & Hwritten); [discriminate|].
  destruct (Hwritten 7 300 32 PropModeReplace [301; 601])
    as (_ & _ & _ & _ & Hping).
  - right. left. reflexivity.
  - destruct Hping as (_ & before & Htr).
    + right. left. reflexivity.
    + exists before. exact Htr.
Defined.

Lemma switchToFullscreen_asks_window_manager_witness :
  existsb (isStateMessage (ewmhServer 1))
    (fst (switchToFullscreen (ewmhServer 1) initialStatics sampleWindow))
  = true.
Proof.
  assert (Hdistinct : getAtom (ewmhServer 1) "_NET_ACTIVE_WINDOW" false
                      <> getAtom (ewmhServer 1) "_NET_WM_STATE" true)
    by discriminate.
  destruct (switchToFullscreen_asks_window_manager (ewmhServer 1) Hdistinct
              initialStatics _ sampleWindow _ reachable_initialStatics
              eq_refl) as (Hiff & _).
  apply Hiff. repeat split; (reflexivity || discriminate).
Defined.

Lemma iconPixels_swaps_red_and_blue_witness :
  let image := iconPixels (2%nat, 1%nat) samplePixels (repeat 170 8) in
  nth (0 * 4 + 0) image 0 = nth (0 * 4 + 2) samplePixels 0
  /\ nth (0 * 4 + 2) image 0 = nth (0 * 4 + 0) samplePixels 0.
Proof.
  destruct (iconPixels_swaps_red_and_blue samplePixels (2%nat, 1%nat)
              (repeat 170 8) eq_refl) as (_ & Hpixel).
  destruct (Hpixel 0%nat) as (Hblue & _ & Hred & _); [simpl; lia|].
  split; [exact Hblue | exact Hred].
Defined.

Lemma maskPixels_one_bit_per_pixel_witness :
  Z.testbit (nth (1 / 8 + 0 * pitch (2%nat, 1%nat))
                 (maskPixels (2%nat, 1%nat) samplePixels) 0)
            (Z.of_nat (1 mod 8))
  = opaque (2%nat, 1%nat) samplePixels 1 0.
Proof.
  destruct (maskPixels_one_bit_per_pixel (2%nat, 1%nat) samplePixels)
    as (_ & _ & Hpixel).
  apply Hpixel; simpl; lia.
Defined.

Lemma icccmIconPixels_layout_witness :
  length (icccmIconPixels (2%nat, 1%nat) samplePixels) = 4%nat
  /\ Z.land (Z.shiftr (nth 2 (icccmIconPixels (2%nat, 1%nat) samplePixels)
                           0) 16) 255
     = 255.
Proof.
  assert (Hbytes : Forall isByte samplePixels).
  { unfold samplePixels, isByte.
    repeat (apply Forall_cons; [lia|]). apply Forall_nil. }
  destruct (icccmIconPixels_layout samplePixels Hbytes (2%nat, 1%nat))
    as (Hlength & _ & _ & Hpixel); [simpl; lia|].
  split; [exact Hlength|].
  destruct (Hpixel 0%nat) as (_ & _ & _ & Hred & _); [simpl; lia|].
  exact Hred.
Defined.

Section NetworkExamples.

Import NetworkAudioStream.

Lemma receiveLoop_appends_audio_witness :
  exists audio last rest out s',
    receiveLoop sampleNetwork create = Some (s', out, rest)
    /\ sampleNetwork = map Done audio ++ last ++ rest
    /\ m_samples s' = m_samples create ++ flat_map samplesOf audio.
Proof.
  assert (Hne : Forall notEmpty sampleNetwork).
  { unfold sampleNetwork.
    repeat (apply Forall_cons; [discriminate|]). apply Forall_nil. }
  destruct (receiveLoop_appends_audio sampleNetwork create Hne)
    as [_ Hrun]; [cbn; lia|].
  destruct (Hrun eq_refl)
    as (audio & last & rest & out & s' & Hloop & Hnet & _ & Hsam & _).
  exists audio, last, rest, out, s'.
  split; [exact Hloop|]. split; [exact Hnet | exact Hsam].
Defined.

Lemma playback_plays_received_in_order_witness :
  exists t,
    run sampleSchedule started = Some t
    /\ concat (played t)
       = firstn (Z.to_nat (m_offset (stream t))) (m_samples (stream t)).
Proof.
  assert (Hne : Forall notEmpty (receives sampleSchedule)).
  { cbn. repeat (apply Forall_cons; [discriminate|]). apply Forall_nil. }
  destruct (playback_plays_received_in_order sampleSchedule Hne)
    as (t & Hrun & _ & Hplayed & _); [cbn; lia|].
  exists t. split; [exact Hrun | exact Hplayed].
Defined.

Lemma onSeek_replays_from_offset_witness :
  exists s',
    onGetData false (onSeek 44100 1 0 playedStream)
    = Some (Playing (m_samples playedStream), s')
    /\ onGetData false s' = Some (Stopped, s').
Proof.
  destruct (onSeek_replays_from_offset 44100 1 0 playedStream)
    as (_ & Hplay & _);
    [reflexivity | lia | lia | lia | cbn; lia | cbn; lia |].
  apply Hplay. cbn. lia.
Defined.

End NetworkExamples.

Section TextExamples.

Import ComplexText.

Lemma findCharacterPos_shapes_line_of_index_witness :
  let q := query sampleText 5 in
  let line :=
    segment sampleText (Z.to_nat (lineStart q)) (Z.to_nat (lineLength q)) in
  existsb isLineBreak line = false
  /\ glyphIndex q
     = Z.of_nat (length (filter (fun c => negb (isBlank c)) line)).
Proof.
  destruct (findCharacterPos_shapes_line_of_index sampleText 5)
    as (_ & _ & _ & Hbreak & Hglyph); [lia | cbn; lia |].
  split; [exact Hbreak | exact Hglyph].
Defined.

Lemma findCharacterPos_reads_inside_iff_witness :
  findCharacterPos sampleShape sampleText 0 = None
  /\ findCharacterPos sampleShape sampleText 5 <> None.
Proof.
  split.
  - destruct (findCharacterPos_reads_inside_iff sampleShape sampleText 0)
      as (_ & _ & Hzero); [lia | cbn; lia | vm_compute; reflexivity |].
    apply Hzero. reflexivity.
  - destruct (findCharacterPos_reads_inside_iff sampleShape sampleText 5)
      as (Hiff & _); [lia | cbn; lia | vm_compute; reflexivity |].
    apply Hiff. vm_compute. split; discriminate.
Defined.

Lemma updateGeometry_splits_lines_witness :
  exists lines,
    updateGeometry (S (length sampleText)) sampleText = Some lines
    /\ chained 0 lines
    /\ flat_map (fun line => text sampleText line ++ [terminator line]) lines
       = beforeNull sampleText ++ [0].
Proof.
  destruct (updateGeometry_splits_lines sampleText) as [_ Hlines].
  destruct Hlines as (lines & Hrun & Hchain & _ & Hcat); [discriminate|].
  exists lines. split; [exact Hrun|]. split; [exact Hchain | exact Hcat].
Defined.

Lemma findCharacterPos_line_is_a_line_of_updateGeometry_witness :
  exists line,
    In line sampleLines
    /\ Z.of_nat (line_start line) = lineStart (query sampleText 5).
Proof.
  destruct (findCharacterPos_line_is_a_line_of_updateGeometry sampleText 5
              sampleLines)
    as (line & Hin & Hstart & _);
    [cbn; lia | cbn; lia | reflexivity | discriminate | reflexivity |].
  exists line. split; [exact Hin | exact Hstart].
Defined.

End TextExamples.

Section NameExamples.

Import ExecutableName.

Lemma findExecutableName_is_basename_of_first_string_witness :
  findExecutableName afterSlash (Some sampleReads) = Some [97].
Proof.
  destruct (findExecutableName_is_basename_of_first_string afterSlash
              sampleReads) as [_ Hname].
  - unfold sampleReads.
    repeat (apply Forall_cons; [cbn; lia|]). apply Forall_nil.
  - cbn. lia.
  - exact Hname.
Defined.

End NameExamples.

Section MusicExamples.

Import Music.

Lemma onGetData_keeps_buffer_size_witness :
  fst (fst (onGetData sampleMusic)) = false
  /\ sampleCount (snd (fst (onGetData sampleMusic))) = 0.
Proof.
  destruct (onGetData sampleMusic) as [[continue data] m'] eqn:Hrun.
  destruct (onGetData_keeps_buffer_size sampleMusic continue data m'
              MemoryFile_read_bounded Hrun)
    as (_ & _ & _ & Hempty & _).
  apply Hempty. reflexivity.
Defined.

End MusicExamples.

End MoreExamples.
